(** * chatapp: the real-time room / presence coordination layer

    A shallow embedding of the backend services of the chat application
    (RoomService, MessageService, SocketService and the Socket.IO event
    handlers) together with the properties of the specification that are
    checked against them.

    Conventions of the embedding
    - a [Date] is a number of milliseconds ([Z]); [new Date()] reads the
      clock of the world;
    - the Room collection is a finite map keyed by the (unique) room name,
      the Message collection is the list of stored documents;
    - the in-memory JavaScript [Map]s and [Set]s keep their insertion
      order, hence they are association lists and duplicate-free lists;
    - asynchronous service methods are computations in a state-and-exception
      monad over the world; every call to the persisted store consults an
      oracle that tells whether that call throws;
    - outbound Socket.IO events are appended to a log, tagged with the
      emitter that was used ([io.emit], [io.to(room).emit], [socket.emit],
      [socket.to(room).emit]). *)

From Stdlib Require Import ZArith Ascii.
From stdpp Require Import base option list gmap strings sorting pretty.

Local Open Scope Z_scope.

(* ===================================================================== *)
(** * Data model *)
(* ===================================================================== *)

Definition Date := Z.

(** [models/user.ts], interface [AuthUser] *)
Record AuthUser := {
  u_id : string;
  u_username : string;
  u_email : string;
  u_room : option string
}.

Inductive Role := admin | moderator | member.
Inductive RoomType := public | private | direct.
Inductive MessageType := text | image | file | system.

Global Instance Role_eq_dec : EqDecision Role.
Proof. solve_decision. Defined.
Global Instance RoomType_eq_dec : EqDecision RoomType.
Proof. solve_decision. Defined.
Global Instance MessageType_eq_dec : EqDecision MessageType.
Proof. solve_decision. Defined.

(** [models/room.ts], an element of [IRoom.participants] *)
Record Participant := {
  p_userId : string;
  p_username : string;
  p_email : string;
  p_joinedAt : Date;
  p_role : Role;
  p_isActive : bool;
  p_lastSeen : option Date
}.

Record RoomSettings := {
  allowFileSharing : bool;
  allowMentions : bool;
  messageHistory : bool
}.

Record Creator := {
  c_userId : string;
  c_username : string
}.

(** [models/room.ts], interface [IRoom] *)
Record IRoom := {
  r_name : string;
  r_description : option string;
  r_roomType : RoomType;
  r_participants : list Participant;
  r_maxParticipants : option Z;
  r_isActive : bool;
  r_settings : RoomSettings;
  r_lastActivity : Date;
  r_messageCount : Z;
  r_createdBy : Creator
}.

Record Sender := {
  s_id : string;
  s_username : string;
  s_email : string
}.

Record Reaction := {
  rc_userId : string;
  rc_username : string;
  rc_emoji : string;
  rc_timestamp : Date
}.

(** [models/message.ts], interface [IMessage] *)
Record IMessage := {
  m_id : string;
  m_content : string;
  m_sender : Sender;
  m_room : option string;
  m_messageType : MessageType;
  m_timestamp : Date;
  m_isEdited : bool;
  m_editedAt : option Date;
  m_isDeleted : bool;
  m_deletedAt : option Date;
  m_reactions : list Reaction;
  m_mentions : list string;
  m_replyTo : option string
}.

(** The value stored in the [connectedUsers] map of the socket handler. *)
Record Session := {
  cu_id : string;
  cu_username : string;
  cu_room : option string
}.

(** ** JavaScript helpers *)

(** Truthiness of an optional string: [undefined] and the empty string
    are falsy. *)
Definition truthy (o : option string) : option string :=
  match o with
  | Some s => if decide (s = EmptyString) then None else Some s
  | None => None
  end.

(** [n || d] on an optional number: [undefined] and [0] are falsy. *)
Definition or_default (o : option Z) (d : Z) : Z :=
  match o with
  | Some n => if decide (n = 0) then d else n
  | None => d
  end.

(** A JavaScript [Map] with string keys, in insertion order. *)
Section JsMap.
Context {V : Type}.

Fixpoint Map_get (k : string) (m : list (string * V)) : option V :=
  match m with
  | [] => None
  | (k', v) :: m' => if decide (k' = k) then Some v else Map_get k m'
  end.

Definition Map_has (k : string) (m : list (string * V)) : bool :=
  match Map_get k m with Some _ => true | None => false end.

(** [set] keeps the position of a key that is already present *)
Fixpoint Map_set (k : string) (v : V) (m : list (string * V)) : list (string * V) :=
  match m with
  | [] => [(k, v)]
  | (k', v') :: m' =>
      if decide (k' = k) then (k, v) :: m' else (k', v') :: Map_set k v m'
  end.

Fixpoint Map_delete (k : string) (m : list (string * V)) : list (string * V) :=
  match m with
  | [] => []
  | (k', v') :: m' =>
      if decide (k' = k) then m' else (k', v') :: Map_delete k m'
  end.
End JsMap.

(** A JavaScript [Set] of strings, in insertion order. *)
Definition Set_has (x : string) (s : list string) : bool := bool_decide (x ∈ s).
Definition Set_add (x : string) (s : list string) : list string :=
  if Set_has x s then s else s ++ [x].
Definition Set_delete (x : string) (s : list string) : list string :=
  List.filter (λ y, negb (bool_decide (y = x))) s.

(* ===================================================================== *)
(** * Outbound events *)
(* ===================================================================== *)

(** Which Socket.IO emitter a handler used. *)
Inductive Target :=
  | io_emit                                  (* io.emit: every connection *)
  | io_to (room : string)                    (* io.to(room).emit *)
  | socket_emit (socketId : string)          (* socket.emit: this connection only *)
  | socket_to (socketId room : string)       (* socket.to(room).emit: the room but the sender *)
  | socket_broadcast (socketId : string).    (* socket.broadcast.emit *)

Record MessageData := {
  md_id : string;
  md_username : string;
  md_message : string;
  md_timestamp : Date;
  md_room : option string;
  md_replyTo : option string;
  md_mentions : option (list string);
  md_isEdited : bool;
  md_sender : Sender
}.

Inductive Payload :=
  | PError (message : string)
  | PNewMessage (m : IMessage)
  | PReceiveMessage (d : MessageData)
  | PPresence (username message : string) (timestamp : Date)
  | PRoomHistory (room : string) (messages : list IMessage)
  | PJoined (id username : string) (room : option string) (message : string)
  | PRoomJoined (room message : string) (roomInfo : option IRoom)
                (recentMessages : list IMessage)
  | PRoomLeft (room message : string)
  | PReaction (messageId emoji username userId : string)
  | PEdited (messageId newContent : string) (editedAt : option Date) (isEdited : bool)
  | PDeleted (messageId : string)
  | PMention (messageId room content sender : string)
  | PNotice (room message : string) (timestamp : Date).

Record Emission := {
  e_target : Target;
  e_event : string;
  e_data : Payload
}.

(** [events/socketEvents.ts] *)
Module SOCKET_EVENTS.
Definition JOINED : string := "joined".
Definition USER_JOINED : string := "user_joined".
Definition USER_LEFT : string := "user_left".
Definition RECEIVE_MESSAGE : string := "receive_message".
Definition ROOM_JOINED : string := "room_joined".
Definition ROOM_LEFT : string := "room_left".
Definition USER_TYPING : string := "user_typing".
Definition ERROR : string := "error".
End SOCKET_EVENTS.

(* ===================================================================== *)
(** * The world and the monad of the services *)
(* ===================================================================== *)

Record World := {
  Rooms : gmap string IRoom;
  Messages : list IMessage;
  connectedUsers : list (string * Session);
  userRoomMemberships : list (string * list string);
  socketRooms : list (string * list string);
  emitted : list Emission;
  clock : Date;
  next_oid : nat;
  oracle : list (option string)
}.

Definition set_Rooms (f : gmap string IRoom → gmap string IRoom) (w : World) : World :=
  {| Rooms := f (Rooms w); Messages := Messages w;
     connectedUsers := connectedUsers w;
     userRoomMemberships := userRoomMemberships w;
     socketRooms := socketRooms w; emitted := emitted w;
     clock := clock w; next_oid := next_oid w; oracle := oracle w |}.

Definition set_Messages (f : list IMessage → list IMessage) (w : World) : World :=
  {| Rooms := Rooms w; Messages := f (Messages w);
     connectedUsers := connectedUsers w;
     userRoomMemberships := userRoomMemberships w;
     socketRooms := socketRooms w; emitted := emitted w;
     clock := clock w; next_oid := next_oid w; oracle := oracle w |}.

Definition set_connectedUsers
    (f : list (string * Session) → list (string * Session)) (w : World) : World :=
  {| Rooms := Rooms w; Messages := Messages w;
     connectedUsers := f (connectedUsers w);
     userRoomMemberships := userRoomMemberships w;
     socketRooms := socketRooms w; emitted := emitted w;
     clock := clock w; next_oid := next_oid w; oracle := oracle w |}.

Definition set_userRoomMemberships
    (f : list (string * list string) → list (string * list string))
    (w : World) : World :=
  {| Rooms := Rooms w; Messages := Messages w;
     connectedUsers := connectedUsers w;
     userRoomMemberships := f (userRoomMemberships w);
     socketRooms := socketRooms w; emitted := emitted w;
     clock := clock w; next_oid := next_oid w; oracle := oracle w |}.

Definition set_socketRooms
    (f : list (string * list string) → list (string * list string))
    (w : World) : World :=
  {| Rooms := Rooms w; Messages := Messages w;
     connectedUsers := connectedUsers w;
     userRoomMemberships := userRoomMemberships w;
     socketRooms := f (socketRooms w); emitted := emitted w;
     clock := clock w; next_oid := next_oid w; oracle := oracle w |}.

Definition set_emitted (f : list Emission → list Emission) (w : World) : World :=
  {| Rooms := Rooms w; Messages := Messages w;
     connectedUsers := connectedUsers w;
     userRoomMemberships := userRoomMemberships w;
     socketRooms := socketRooms w; emitted := f (emitted w);
     clock := clock w; next_oid := next_oid w; oracle := oracle w |}.

Definition set_next_oid (n : nat) (w : World) : World :=
  {| Rooms := Rooms w; Messages := Messages w;
     connectedUsers := connectedUsers w;
     userRoomMemberships := userRoomMemberships w;
     socketRooms := socketRooms w; emitted := emitted w;
     clock := clock w; next_oid := n; oracle := oracle w |}.

Definition set_clock (d : Date) (w : World) : World :=
  {| Rooms := Rooms w; Messages := Messages w;
     connectedUsers := connectedUsers w;
     userRoomMemberships := userRoomMemberships w;
     socketRooms := socketRooms w; emitted := emitted w;
     clock := d; next_oid := next_oid w; oracle := oracle w |}.

Definition set_oracle (o : list (option string)) (w : World) : World :=
  {| Rooms := Rooms w; Messages := Messages w;
     connectedUsers := connectedUsers w;
     userRoomMemberships := userRoomMemberships w;
     socketRooms := socketRooms w; emitted := emitted w;
     clock := clock w; next_oid := next_oid w; oracle := o |}.

(** The outcome of a call: a value, or a thrown [Error] with its message.
    Effects performed before a throw stay in the world. *)
Inductive Result (A : Type) :=
  | Ok (a : A)
  | Throw (message : string).
Arguments Ok {A} a.
Arguments Throw {A} message.

Definition M (A : Type) : Type := World → Result A * World.

Global Instance M_ret : MRet M := λ A a w, (Ok a, w).
Global Instance M_bind : MBind M := λ A B f m w,
  match m w with
  | (Ok a, w') => f a w'
  | (Throw e, w') => (Throw e, w')
  end.

Definition throw {A} (e : string) : M A := λ w, (Throw e, w).

(** [try { m } catch (error) { h error.message }] *)
Definition try_catch {A} (m : M A) (h : string → M A) : M A := λ w,
  match m w with
  | (Ok a, w') => (Ok a, w')
  | (Throw e, w') => h e w'
  end.

Definition gets {A} (f : World → A) : M A := λ w, (Ok (f w), w).
Definition modify (f : World → World) : M unit := λ w, (Ok tt, f w).

(** [new Date()] *)
Definition new_Date : M Date := gets clock.

(** One round trip to the persisted store: the head of the oracle decides
    whether the call throws; an exhausted oracle means the store answers. *)
Definition store_call : M unit := λ w,
  match oracle w with
  | [] => (Ok tt, w)
  | None :: o => (Ok tt, set_oracle o w)
  | Some e :: o => (Throw e, set_oracle o w)
  end.

(** [emit] on one of the Socket.IO emitters *)
Definition emit (t : Target) (event : string) (data : Payload) : M unit :=
  modify (set_emitted (λ l, l ++ [ {| e_target := t; e_event := event; e_data := data |} ])).

(** [list.forEach(f)] and [for (const x of list) f(x)] *)
Fixpoint forEach {A} (f : A → M unit) (l : list A) : M unit :=
  match l with
  | [] => mret tt
  | x :: l' => f x ;; forEach f l'
  end.

(* ===================================================================== *)
(** * Mongoose operations on the Room collection *)
(* ===================================================================== *)

(** [Room.findOne({ name })] *)
Definition Room_findOne (name : string) : M (option IRoom) :=
  store_call ;; gets (λ w, Rooms w !! name).

(** [Room.findOne({ name, isActive: true })] *)
Definition Room_findOne_active (name : string) : M (option IRoom) :=
  store_call ;;
  gets (λ w, match Rooms w !! name with
             | Some r => if r_isActive r then Some r else None
             | None => None
             end).

(** [room.save()] of a new document; [name] carries a unique index *)
Definition Room_insert (room : IRoom) : M IRoom :=
  store_call ;;
  existing ← gets (λ w, Rooms w !! r_name room);
  match existing with
  | Some _ => throw "E11000 duplicate key error"
  | None => modify (set_Rooms (λ rs, <[r_name room := room]> rs)) ;; mret room
  end.

(** [room.save()] of a document that was read from the collection *)
Definition Room_save (room : IRoom) : M IRoom :=
  store_call ;;
  modify (set_Rooms (λ rs, <[r_name room := room]> rs)) ;;
  mret room.

Definition with_participants (ps : list Participant) (r : IRoom) : IRoom :=
  {| r_name := r_name r; r_description := r_description r;
     r_roomType := r_roomType r; r_participants := ps;
     r_maxParticipants := r_maxParticipants r; r_isActive := r_isActive r;
     r_settings := r_settings r; r_lastActivity := r_lastActivity r;
     r_messageCount := r_messageCount r; r_createdBy := r_createdBy r |}.

Definition with_lastActivity (d : Date) (r : IRoom) : IRoom :=
  {| r_name := r_name r; r_description := r_description r;
     r_roomType := r_roomType r; r_participants := r_participants r;
     r_maxParticipants := r_maxParticipants r; r_isActive := r_isActive r;
     r_settings := r_settings r; r_lastActivity := d;
     r_messageCount := r_messageCount r; r_createdBy := r_createdBy r |}.

Definition with_messageCount (n : Z) (r : IRoom) : IRoom :=
  {| r_name := r_name r; r_description := r_description r;
     r_roomType := r_roomType r; r_participants := r_participants r;
     r_maxParticipants := r_maxParticipants r; r_isActive := r_isActive r;
     r_settings := r_settings r; r_lastActivity := r_lastActivity r;
     r_messageCount := n; r_createdBy := r_createdBy r |}.

Definition with_isActive (b : bool) (r : IRoom) : IRoom :=
  {| r_name := r_name r; r_description := r_description r;
     r_roomType := r_roomType r; r_participants := r_participants r;
     r_maxParticipants := r_maxParticipants r; r_isActive := b;
     r_settings := r_settings r; r_lastActivity := r_lastActivity r;
     r_messageCount := r_messageCount r; r_createdBy := r_createdBy r |}.

Definition with_settings (s : RoomSettings) (r : IRoom) : IRoom :=
  {| r_name := r_name r; r_description := r_description r;
     r_roomType := r_roomType r; r_participants := r_participants r;
     r_maxParticipants := r_maxParticipants r; r_isActive := r_isActive r;
     r_settings := s; r_lastActivity := r_lastActivity r;
     r_messageCount := r_messageCount r; r_createdBy := r_createdBy r |}.

(** [participant.isActive = b; participant.lastSeen = d] *)
Definition mark (b : bool) (d : Date) (p : Participant) : Participant :=
  {| p_userId := p_userId p; p_username := p_username p; p_email := p_email p;
     p_joinedAt := p_joinedAt p; p_role := p_role p;
     p_isActive := b; p_lastSeen := Some d |}.

Definition touch (d : Date) (p : Participant) : Participant :=
  {| p_userId := p_userId p; p_username := p_username p; p_email := p_email p;
     p_joinedAt := p_joinedAt p; p_role := p_role p;
     p_isActive := p_isActive p; p_lastSeen := Some d |}.

(** [participants.findIndex(p => p.userId === userId)] *)
Definition findIndex (userId : string) (ps : list Participant) : option (nat * Participant) :=
  list_find (λ p, p_userId p = userId) ps.

(** [participants.filter(p => p.isActive).length] *)
Definition activeParticipants (ps : list Participant) : nat :=
  length (List.filter p_isActive ps).

(** [participant.role = role] *)
Definition with_role (role : Role) (p : Participant) : Participant :=
  {| p_userId := p_userId p; p_username := p_username p; p_email := p_email p;
     p_joinedAt := p_joinedAt p; p_role := role;
     p_isActive := p_isActive p; p_lastSeen := p_lastSeen p |}.

(** [participants.find(p => p.userId === userId)] *)
Definition find_participant (userId : string) (ps : list Participant)
    : option Participant :=
  snd <$> findIndex userId ps.

(** The query field ['participants.userId': userId]: some element of the
    array carries this user id. *)
Definition has_participant (userId : string) (room : IRoom) : bool :=
  existsb (λ p, bool_decide (p_userId p = userId)) (r_participants room).

(** The query field ['participants.isActive': true]: some element of the
    array is active.  Two such fields of one query are matched
    independently of each other, not on the same element. *)
Definition has_active_participant (room : IRoom) : bool :=
  existsb p_isActive (r_participants room).

(** [.sort({ lastActivity: -1 })] *)
Definition more_recent (a b : IRoom) : Prop := r_lastActivity b ≤ r_lastActivity a.

Global Instance more_recent_dec a b : Decision (more_recent a b).
Proof. unfold more_recent, Date. apply _. Defined.

(** The documents of the Room collection, in the order of the store. *)
Definition Room_documents (w : World) : list IRoom := (map_to_list (Rooms w)).*2.

(** [Room.find(filter).sort({ lastActivity: -1 })] *)
Definition Room_find (filter : IRoom → bool) : M (list IRoom) :=
  store_call ;;
  gets (λ w, merge_sort more_recent (List.filter filter (Room_documents w))).

(** [Room.countDocuments(filter)] *)
Definition Room_countDocuments (filter : IRoom → bool) : M nat :=
  store_call ;;
  gets (λ w, length (List.filter filter (Room_documents w))).

(** [Room.findOneAndUpdate({ name, isActive: true }, update, { new: true })] *)
Definition Room_findOneAndUpdate_active (name : string) (update : IRoom → IRoom)
    : M (option IRoom) :=
  store_call ;;
  found ← gets (λ w, Rooms w !! name);
  match found with
  | Some room =>
      if r_isActive room
      then modify (set_Rooms (λ rs, <[name := update room]> rs)) ;;
           mret (Some (update room))
      else mret None
  | None => mret None
  end.

(** [.limit(n)] of a query: a limit of [0] is no limit *)
Definition limit_docs {A} (n : nat) (l : list A) : list A :=
  if decide (n = 0%nat) then l else take n l.

(** [array.sort(compare)]: the sort of JavaScript is stable, an element
    moves in front of an earlier one only if [compare] says so. *)
Fixpoint sort_insert {A} (compare : A → A → Z) (x : A) (l : list A) : list A :=
  match l with
  | [] => [x]
  | y :: l' =>
      if decide (compare x y ≤ 0) then x :: y :: l'
      else y :: sort_insert compare x l'
  end.

Definition Array_sort {A} (compare : A → A → Z) (l : list A) : list A :=
  foldr (sort_insert compare) [] l.

(** [date?.getTime() || 0] *)
Definition getTime_or_0 (date : option Date) : Z := default 0 date.

(* ===================================================================== *)
(** * RoomService *)
(* ===================================================================== *)

Record CreateRoomData := {
  cr_name : string;
  cr_description : option string;
  cr_roomType : option RoomType;
  cr_maxParticipants : option Z;
  cr_creator : AuthUser
}.

Record PublicRooms := {
  pr_rooms : list IRoom;
  pr_total : nat;
  pr_hasMore : bool
}.

(** [Partial<{ allowFileSharing, allowMentions, messageHistory }>] *)
Record SettingsUpdate := {
  su_allowFileSharing : option bool;
  su_allowMentions : option bool;
  su_messageHistory : option bool
}.

(** The result of [RoomService.getRoomStats]; [createdAt], a timestamp
    that Mongoose maintains, is not part of the model. *)
Record RoomStatistics := {
  st_totalParticipants : nat;
  st_activeParticipants : nat;
  st_messageCount : Z;
  st_lastActivity : Date;
  st_topActiveUsers : list (string * option Date)   (* { username, lastSeen } *)
}.

Module RoomService.

Definition createRoom (data : CreateRoomData) : M IRoom :=
  try_catch
    (existingRoom ← Room_findOne (cr_name data);
     match existingRoom with
     | Some _ => throw "Room with this name already exists"
     | None =>
         now ← new_Date;
         Room_insert
           {| r_name := cr_name data;
              r_description := cr_description data;
              r_roomType := default public (cr_roomType data);
              r_maxParticipants := Some (or_default (cr_maxParticipants data) 100);
              r_participants :=
                [ {| p_userId := u_id (cr_creator data);
                     p_username := u_username (cr_creator data);
                     p_email := u_email (cr_creator data);
                     p_joinedAt := now;
                     p_role := admin;
                     p_isActive := true;
                     p_lastSeen := None |} ];
              r_createdBy := {| c_userId := u_id (cr_creator data);
                                c_username := u_username (cr_creator data) |};
              r_lastActivity := now;
              (* schema defaults *)
              r_isActive := true;
              r_settings := {| allowFileSharing := true; allowMentions := true;
                               messageHistory := true |};
              r_messageCount := 0 |}
     end)
    (λ e, throw ("Failed to create room: " +:+ e)).

Definition joinRoom (roomName : string) (user : AuthUser) : M IRoom :=
  try_catch
    (room ← Room_findOne roomName;
     match room with
     | None =>
         (* dynamic room creation; [createRoom] returns a document or throws *)
         createRoom {| cr_name := roomName; cr_description := None;
                       cr_roomType := Some public; cr_maxParticipants := None;
                       cr_creator := user |}
     | Some room =>
         if negb (r_isActive room) then throw "Room is not active" else
         participants ←
           match findIndex (u_id user) (r_participants room) with
           | Some (existingParticipantIndex, participant) =>
               now ← new_Date;
               mret (<[existingParticipantIndex := mark true now participant]>
                       (r_participants room))
           | None =>
               if decide (or_default (r_maxParticipants room) 100
                            ≤ Z.of_nat (activeParticipants (r_participants room)))
               then throw "Room is full"
               else
                 now ← new_Date;
                 mret (r_participants room ++
                        [ {| p_userId := u_id user;
                             p_username := u_username user;
                             p_email := u_email user;
                             p_joinedAt := now;
                             p_role := member;
                             p_isActive := true;
                             p_lastSeen := Some now |} ])
           end;
         now ← new_Date;
         Room_save (with_lastActivity now (with_participants participants room))
     end)
    (λ e, throw ("Failed to join room: " +:+ e)).

Definition leaveRoom (roomName userId : string) : M (option IRoom) :=
  try_catch
    (room ← Room_findOne roomName;
     match room with
     | None => mret None
     | Some room =>
         participants ←
           match findIndex userId (r_participants room) with
           | Some (participantIndex, participant) =>
               now ← new_Date;
               mret (<[participantIndex := mark false now participant]>
                       (r_participants room))
           | None => mret (r_participants room)
           end;
         now ← new_Date;
         saved ← Room_save (with_lastActivity now (with_participants participants room));
         mret (Some saved)
     end)
    (λ e, throw ("Failed to leave room: " +:+ e)).

(** [Room.findOneAndUpdate({ name, 'participants.userId': userId,
    isActive: true }, { $set: { 'participants.$.lastSeen', lastActivity } })];
    a failure of the store is logged and swallowed. *)
Definition updateUserLastSeen (roomName userId : string) : M unit :=
  try_catch
    (store_call ;;
     now ← new_Date;
     modify (set_Rooms (λ rs,
       match rs !! roomName with
       | Some room =>
           match findIndex userId (r_participants room) with
           | Some (i, p) =>
               if r_isActive room
               then <[roomName :=
                        with_lastActivity now
                          (with_participants (<[i := touch now p]> (r_participants room)) room)]> rs
               else rs
           | None => rs
           end
       | None => rs
       end)))
    (λ _, mret tt).

(** [Room.findOne({ name, isActive: true })] *)
Definition getRoomByName (roomName : string) : M (option IRoom) :=
  try_catch
    (Room_findOne_active roomName)
    (λ e, throw ("Failed to get room: " +:+ e)).

Definition getPublicRooms (limit skip : option nat) : M PublicRooms :=
  try_catch
    (let limit := default 50%nat limit in
     let skip := default 0%nat skip in
     let filter room := bool_decide (r_roomType room = public) && r_isActive room in
     rooms ← Room_find filter;
     total ← Room_countDocuments filter;
     mret {| pr_rooms := limit_docs limit (drop skip rooms);
             pr_total := total;
             pr_hasMore := bool_decide (skip + limit < total)%nat |})
    (λ e, throw ("Failed to get public rooms: " +:+ e)).

(** [Room.find({ 'participants.userId': userId,
    'participants.isActive': true, isActive: true })] *)
Definition getUserRooms (userId : string) : M (list IRoom) :=
  try_catch
    (Room_find (λ room,
       has_participant userId room && has_active_participant room
       && r_isActive room))
    (λ e, throw ("Failed to get user rooms: " +:+ e)).

Definition getRoomParticipants (roomName : string) : M (option (list Participant)) :=
  try_catch
    (room ← Room_findOne_active roomName;
     mret (r_participants <$> room))
    (λ e, throw ("Failed to get room participants: " +:+ e)).

Definition getActiveParticipants (roomName : string) : M (list Participant) :=
  try_catch
    (room ← Room_findOne_active roomName;
     match room with
     | None => mret []
     | Some room => mret (List.filter p_isActive (r_participants room))
     end)
    (λ e, throw ("Failed to get active participants: " +:+ e)).

Definition updateRoomSettings (roomName userId : string) (settings : SettingsUpdate)
    : M (option IRoom) :=
  try_catch
    (room ← Room_findOne_active roomName;
     match room with
     | None => mret None
     | Some room =>
         let participant := find_participant userId (r_participants room) in
         if match participant with
            | None => true
            | Some participant =>
                negb (bool_decide (p_role participant ∈ [admin; moderator]))
            end
         then throw "Insufficient permissions to update room settings"
         else
           now ← new_Date;
           Room_findOneAndUpdate_active roomName
             (λ stored,
                with_lastActivity now
                  (with_settings
                     {| allowFileSharing :=
                          default (allowFileSharing (r_settings room))
                                  (su_allowFileSharing settings);
                        allowMentions :=
                          default (allowMentions (r_settings room))
                                  (su_allowMentions settings);
                        messageHistory :=
                          default (messageHistory (r_settings room))
                                  (su_messageHistory settings) |}
                     stored))
     end)
    (λ e, throw ("Failed to update room settings: " +:+ e)).

Definition changeUserRole (roomName adminUserId targetUserId : string)
    (newRole : Role) : M (option IRoom) :=
  try_catch
    (room ← Room_findOne_active roomName;
     match room with
     | None => mret None
     | Some room =>
         let adminParticipant := find_participant adminUserId (r_participants room) in
         if match adminParticipant with
            | None => true
            | Some adminParticipant =>
                negb (bool_decide (p_role adminParticipant = admin))
            end
         then throw "Only admins can change user roles"
         else
           match findIndex targetUserId (r_participants room) with
           | None => throw "User not found in room"
           | Some (targetParticipantIndex, targetParticipant) =>
               now ← new_Date;
               saved ← Room_save
                 (with_lastActivity now
                    (with_participants
                       (<[targetParticipantIndex := with_role newRole targetParticipant]>
                          (r_participants room)) room));
               mret (Some saved)
           end
     end)
    (λ e, throw ("Failed to change user role: " +:+ e)).

Definition removeUserFromRoom (roomName adminUserId targetUserId : string)
    : M (option IRoom) :=
  try_catch
    (room ← Room_findOne_active roomName;
     match room with
     | None => mret None
     | Some room =>
         let adminParticipant := find_participant adminUserId (r_participants room) in
         if match adminParticipant with
            | None => true
            | Some adminParticipant =>
                negb (bool_decide (p_role adminParticipant ∈ [admin; moderator]))
            end
         then throw "Insufficient permissions to remove users"
         else
           match findIndex targetUserId (r_participants room) with
           | None => throw "User not found in room"
           | Some (targetParticipantIndex, targetParticipant) =>
               if bool_decide (p_role targetParticipant = admin)
                  && negb (bool_decide (c_userId (r_createdBy room) = adminUserId))
               then throw "Cannot remove other admins"
               else
                 now ← new_Date;
                 saved ← Room_save
                   (with_lastActivity now
                      (with_participants
                         (delete targetParticipantIndex (r_participants room)) room));
                 mret (Some saved)
           end
     end)
    (λ e, throw ("Failed to remove user from room: " +:+ e)).

(** a soft delete: the room is marked as inactive *)
Definition deleteRoom (roomName userId : string) : M bool :=
  try_catch
    (room ← Room_findOne roomName;
     match room with
     | None => mret false
     | Some room =>
         (if negb (bool_decide (c_userId (r_createdBy room) = userId))
          then
            let participant := find_participant userId (r_participants room) in
            if match participant with
               | None => true
               | Some participant => negb (bool_decide (p_role participant = admin))
               end
            then throw "Only room creator or admins can delete the room"
            else mret tt
          else mret tt) ;;
         now ← new_Date;
         Room_save (with_lastActivity now (with_isActive false room)) ;;
         mret true
     end)
    (λ e, throw ("Failed to delete room: " +:+ e)).

Definition getRoomStats (roomName : string) : M (option RoomStatistics) :=
  try_catch
    (room ← Room_findOne_active roomName;
     match room with
     | None => mret None
     | Some room =>
         let activeParticipants := List.filter p_isActive (r_participants room) in
         let topActiveUsers :=
           map (λ p, (p_username p, p_lastSeen p))
             (take 10
                (Array_sort
                   (λ a b, getTime_or_0 (p_lastSeen b) - getTime_or_0 (p_lastSeen a))
                   (List.filter (λ p, bool_decide (is_Some (p_lastSeen p)))
                      (r_participants room)))) in
         mret (Some {| st_totalParticipants := length (r_participants room);
                       st_activeParticipants := length activeParticipants;
                       st_messageCount := r_messageCount room;
                       st_lastActivity := r_lastActivity room;
                       st_topActiveUsers := topActiveUsers |})
     end)
    (λ e, throw ("Failed to get room stats: " +:+ e)).

(** [Room.findOne({ name, isActive: true, 'participants.userId': userId,
    'participants.isActive': true })]; a failure of the store yields
    [false]. *)
Definition isUserInRoom (roomName userId : string) : M bool :=
  try_catch
    (store_call ;;
     room ← gets (λ w,
       match Rooms w !! roomName with
       | Some room =>
           if r_isActive room && has_participant userId room
              && has_active_participant room
           then Some room else None
       | None => None
       end);
     mret (bool_decide (is_Some room)))
    (λ _, mret false).

Definition getUserRoleInRoom (roomName userId : string) : M (option Role) :=
  try_catch
    (room ← Room_findOne_active roomName;
     match room with
     | None => mret None
     | Some room =>
         let participant :=
           List.find (λ p, bool_decide (p_userId p = userId) && p_isActive p)
                     (r_participants room) in
         mret (p_role <$> participant)
     end)
    (λ _, mret None).

(** The rooms [cleanupInactiveRooms] deactivates: last active before the
    cutoff, still active, and not a direct conversation. *)
Definition stale (cutoffDate : Date) (room : IRoom) : bool :=
  bool_decide (r_lastActivity room < cutoffDate) && r_isActive room
  && negb (bool_decide (r_roomType room = direct)).

(** [Room.updateMany(..., { $set: { isActive: false } })]; the result is
    [modifiedCount]. *)
Definition cleanupInactiveRooms (daysInactive : option Z) : M nat :=
  try_catch
    (now ← new_Date;
     let cutoffDate := now - default 30 daysInactive * 24 * 60 * 60 * 1000 in
     store_call ;;
     modifiedCount ← gets (λ w,
       length (List.filter (stale cutoffDate) (Room_documents w)));
     modify (set_Rooms (fmap (λ room,
       if stale cutoffDate room then with_isActive false room else room))) ;;
     mret modifiedCount)
    (λ e, throw ("Failed to cleanup inactive rooms: " +:+ e)).

End RoomService.

(* ===================================================================== *)
(** * Mongoose operations on the Message collection *)
(* ===================================================================== *)

(** [new mongoose.Types.ObjectId()]: a fresh identifier *)
Definition new_ObjectId : M string :=
  n ← gets next_oid;
  modify (set_next_oid (S n)) ;;
  mret (pretty n).

(** [message.save()] of a new document *)
Definition Message_save (message : IMessage) : M IMessage :=
  store_call ;;
  modify (set_Messages (λ ms, ms ++ [message])) ;;
  mret message.

(** [Message.findOneAndUpdate(query, update)]: the first document that
    matches is updated; the result carries the document before and after
    the update ([{ new: true }] selects the latter). *)
Definition Message_findOneAndUpdate (query : IMessage → Prop)
    `{∀ m, Decision (query m)} (update : IMessage → IMessage)
    : M (option (IMessage * IMessage)) :=
  store_call ;;
  found ← gets (λ w, list_find query (Messages w));
  match found with
  | Some (i, m) =>
      modify (set_Messages (λ ms, <[i := update m]> ms)) ;;
      mret (Some (m, update m))
  | None => mret None
  end.

(** [Room.findOneAndUpdate({ name }, { $inc: { messageCount: 1 },
    $set: { lastActivity } })] *)
Definition Room_countMessage (name : string) (now : Date) : M unit :=
  store_call ;;
  modify (set_Rooms (alter (λ r,
    with_lastActivity now (with_messageCount (r_messageCount r + 1) r)) name)).

Definition with_content (c : string) (edited : bool) (editedAt : option Date)
    (m : IMessage) : IMessage :=
  {| m_id := m_id m; m_content := c; m_sender := m_sender m; m_room := m_room m;
     m_messageType := m_messageType m; m_timestamp := m_timestamp m;
     m_isEdited := edited; m_editedAt := editedAt;
     m_isDeleted := m_isDeleted m; m_deletedAt := m_deletedAt m;
     m_reactions := m_reactions m; m_mentions := m_mentions m;
     m_replyTo := m_replyTo m |}.

Definition with_deleted (deletedAt : Date) (c : string) (m : IMessage) : IMessage :=
  {| m_id := m_id m; m_content := c; m_sender := m_sender m; m_room := m_room m;
     m_messageType := m_messageType m; m_timestamp := m_timestamp m;
     m_isEdited := m_isEdited m; m_editedAt := m_editedAt m;
     m_isDeleted := true; m_deletedAt := Some deletedAt;
     m_reactions := m_reactions m; m_mentions := m_mentions m;
     m_replyTo := m_replyTo m |}.

Definition with_reactions (rs : list Reaction) (m : IMessage) : IMessage :=
  {| m_id := m_id m; m_content := m_content m; m_sender := m_sender m;
     m_room := m_room m;
     m_messageType := m_messageType m; m_timestamp := m_timestamp m;
     m_isEdited := m_isEdited m; m_editedAt := m_editedAt m;
     m_isDeleted := m_isDeleted m; m_deletedAt := m_deletedAt m;
     m_reactions := rs; m_mentions := m_mentions m;
     m_replyTo := m_replyTo m |}.

(** [{ $pull: { reactions: { userId } } }] *)
Definition pull_reactions (userId : string) (rs : list Reaction) : list Reaction :=
  List.filter (λ r, negb (bool_decide (rc_userId r = userId))) rs.

Definition messageType_name (t : MessageType) : string :=
  match t with
  | text => "text" | image => "image" | file => "file" | system => "system"
  end.

(* ===================================================================== *)
(** * SocketService *)
(* ===================================================================== *)

(** [socket.join(room)] and [socket.leave(room)] on the connection with
    this identifier: the rooms of the Socket.IO adapter. *)
Definition adapter_join (socketId room : string) : M unit :=
  modify (set_socketRooms (λ a,
    Map_set socketId (Set_add room (default [] (Map_get socketId a))) a)).

Definition adapter_leave (socketId room : string) : M unit :=
  modify (set_socketRooms (λ a,
    Map_set socketId (Set_delete room (default [] (Map_get socketId a))) a)).

Module SocketService.

(** The loop of [sendToUser]: the first session of the user receives the
    event, then the loop is left through its [break]. *)
Fixpoint sendToUser_loop (users : list (string * Session))
    (userId event : string) (data : Payload) : M unit :=
  match users with
  | [] => mret tt
  | (socketId, user) :: users' =>
      if decide (cu_id user = userId)
      then emit (io_to socketId) event data   (* break *)
      else sendToUser_loop users' userId event data
  end.

Definition sendToUser (userId event : string) (data : Payload) : M unit :=
  users ← gets connectedUsers;
  sendToUser_loop users userId event data.

Definition sendToRoom (room event : string) (data : Payload) : M unit :=
  emit (io_to room) event data.

Definition broadcast (event : string) (data : Payload) : M unit :=
  emit io_emit event data.

Definition addUserToRoom (userId room : string) : M unit :=
  modify (set_userRoomMemberships (λ m,
    let m := if Map_has userId m then m else Map_set userId [] m in
    Map_set userId (Set_add room (default [] (Map_get userId m))) m)).

Definition removeUserFromRoom (userId room : string) : M unit :=
  modify (set_userRoomMemberships (λ m,
    match Map_get userId m with
    | Some userRooms =>
        let userRooms := Set_delete room userRooms in
        let m := Map_set userId userRooms m in
        if decide (length userRooms = 0%nat) then Map_delete userId m else m
    | None => m
    end)).

Definition getUserRooms (userId : string) : M (list string) :=
  gets (λ w, default [] (Map_get userId (userRoomMemberships w))).

Definition cleanupUserMemberships (userId : string) : M unit :=
  modify (set_userRoomMemberships (Map_delete userId)).

(** [SocketRoomManager.getUsersInRoom] of the socket handler *)
Definition getUsersInRoom (room : string) : M (list Session) :=
  gets (λ w, List.filter (λ user, bool_decide (cu_room user = Some room))
               (map snd (connectedUsers w))).

Record RoomStats := {
  userCount : nat;
  users : list (string * string)      (* { id, username } *)
}.

Definition getRoomStats (room : string) : M RoomStats :=
  roomUsers ← getUsersInRoom room;
  mret {| userCount := length roomUsers;
          users := map (λ user, (cu_id user, cu_username user)) roomUsers |}.

Record ActiveRoom := {
  ar_room : string;
  ar_userCount : nat;
  ar_users : list string               (* usernames *)
}.

(** [rooms.forEach(room => { ... roomStats.get(room).add(userId) })] *)
Definition collect_rooms (userId : string) (rooms : list string)
    (roomStats : list (string * list string)) : list (string * list string) :=
  foldl (λ roomStats room,
           let roomStats :=
             if Map_has room roomStats then roomStats else Map_set room [] roomStats in
           Map_set room (Set_add userId (default [] (Map_get room roomStats))) roomStats)
        roomStats rooms.

(** the username of the first session of [userId], or ['Unknown'] *)
Fixpoint username_of (allUsers : list (string * Session)) (userId : string) : string :=
  match allUsers with
  | [] => "Unknown"
  | (_, user) :: allUsers' =>
      if decide (cu_id user = userId) then cu_username user
      else username_of allUsers' userId
  end.

Definition getAllActiveRooms : M (list ActiveRoom) :=
  allUsers ← gets connectedUsers;
  memberships ← gets userRoomMemberships;
  let roomStats :=
    foldl (λ roomStats '(userId, rooms), collect_rooms userId rooms roomStats)
          [] memberships in
  mret (map (λ '(room, userIds),
               {| ar_room := room;
                  ar_userCount := length userIds;
                  ar_users := map (username_of allUsers) userIds |})
            roomStats).

Definition sendToUserInAllRooms (userId event : string) (data : Payload) : M unit :=
  userRooms ← gets (λ w, Map_get userId (userRoomMemberships w));
  match userRooms with
  | Some userRooms => forEach (λ room, emit (io_to room) event data) userRooms
  | None => mret tt
  end.

(** The loops of [subscribeUserToRooms] and [unsubscribeUserFromRoom]
    stop at the first session of the user.  [sockets] are the
    identifiers of the live connections, [io.sockets.sockets]. *)
Fixpoint subscribeUserToRooms_loop (sockets : list string)
    (users : list (string * Session)) (userId : string) (rooms : list string)
    : M unit :=
  match users with
  | [] => mret tt
  | (socketId, user) :: users' =>
      if decide (cu_id user = userId)
      then
        if Set_has socketId sockets
        then forEach (λ room, adapter_join socketId room ;; addUserToRoom userId room)
                     rooms                  (* break *)
        else mret tt                        (* break *)
      else subscribeUserToRooms_loop sockets users' userId rooms
  end.

Definition subscribeUserToRooms (sockets : list string) (userId : string)
    (rooms : list string) : M unit :=
  users ← gets connectedUsers;
  subscribeUserToRooms_loop sockets users userId rooms.

Fixpoint unsubscribeUserFromRoom_loop (sockets : list string)
    (users : list (string * Session)) (userId room : string) : M unit :=
  match users with
  | [] => mret tt
  | (socketId, user) :: users' =>
      if decide (cu_id user = userId)
      then
        if Set_has socketId sockets
        then adapter_leave socketId room ;; removeUserFromRoom userId room
        else mret tt
      else unsubscribeUserFromRoom_loop sockets users' userId room
  end.

Definition unsubscribeUserFromRoom (sockets : list string) (userId room : string)
    : M unit :=
  users ← gets connectedUsers;
  unsubscribeUserFromRoom_loop sockets users userId room.

Definition broadcastToUserRooms (userId event : string) (data : Payload)
    (excludeRoom : option string) : M unit :=
  userRooms ← getUserRooms userId;
  forEach (λ room,
             if decide (Some room ≠ excludeRoom)
             then emit (io_to room) event data
             else mret tt)
          userRooms.

Definition getAllRoomsFromOneUser (userId : string) : M (list string) :=
  getUserRooms userId.

Fixpoint getUsersInMultipleRooms_loop (rooms : list string)
    (roomUsersMap : list (string * list (string * string)))
    : M (list (string * list (string * string))) :=
  match rooms with
  | [] => mret roomUsersMap
  | room :: rooms' =>
      roomUsers ← getUsersInRoom room;
      getUsersInMultipleRooms_loop rooms'
        (Map_set room (map (λ user, (cu_id user, cu_username user)) roomUsers)
                 roomUsersMap)
  end.

Definition getUsersInMultipleRooms (rooms : list string)
    : M (list (string * list (string * string))) :=
  getUsersInMultipleRooms_loop rooms [].

End SocketService.

(** [handler/socketHandler.ts], class [SocketRoomManager]
    ([getUsersInRoom] is with the SocketService above) *)
Module SocketRoomManager.

Definition getConnectedUsers : M (list (string * Session)) :=
  gets connectedUsers.

Definition getUserBySocketId (socketId : string) : M (option Session) :=
  gets (λ w, Map_get socketId (connectedUsers w)).

Definition removeUser (socketId : string) : M unit :=
  modify (set_connectedUsers (Map_delete socketId)).

Definition getUserCount : M nat :=
  gets (λ w, length (connectedUsers w)).

(** [new Set(Array.from(connectedUsers.values()).map(user => user.room)
    .filter(Boolean)).size] *)
Definition getRoomCount : M nat :=
  gets (λ w,
    length (foldl (λ rooms room, Set_add room rooms) []
              (omap (λ user, truthy (cu_room user)) (map snd (connectedUsers w))))).

End SocketRoomManager.

(* ===================================================================== *)
(** * MessageService *)
(* ===================================================================== *)

Record CreateMessageData := {
  cm_content : string;
  cm_sender : AuthUser;
  cm_room : option string;
  cm_messageType : option MessageType;
  cm_replyTo : option string;
  cm_mentions : option (list string)
}.

Record MessageFilter := {
  f_room : option string;
  f_senderId : option string;
  f_messageType : option string;
  f_startDate : option Date;
  f_endDate : option Date;
  f_limit : option nat;
  f_skip : option nat
}.

Record MessagePage := {
  pg_messages : list IMessage;
  pg_total : nat;
  pg_hasMore : bool
}.

Record RoomPage := {
  rp_room : option IRoom;
  rp_messages : list IMessage;
  rp_total : nat;
  rp_hasMore : bool
}.

(** [n || d] on an optional count *)
Definition or_nat (o : option nat) (d : nat) : nat :=
  match o with
  | Some n => if decide (n = 0%nat) then d else n
  | None => d
  end.

Module MessageService.

Definition createMessage (data : CreateMessageData) : M IMessage :=
  try_catch
    (now ← new_Date;
     oid ← new_ObjectId;
     let message :=
       {| m_id := oid;
          m_content := cm_content data;
          m_sender := {| s_id := u_id (cm_sender data);
                         s_username := u_username (cm_sender data);
                         s_email := u_email (cm_sender data) |};
          m_room := cm_room data;
          m_messageType := default text (cm_messageType data);
          m_replyTo := cm_replyTo data;
          m_mentions := default [] (cm_mentions data);
          m_timestamp := now;
          (* schema defaults *)
          m_isEdited := false; m_editedAt := None;
          m_isDeleted := false; m_deletedAt := None;
          m_reactions := [] |} in
     savedMessage ← Message_save message;
     match truthy (cm_room data) with
     | Some room =>
         now ← new_Date;
         Room_countMessage room now ;;
         SocketService.sendToRoom room "newMessage" (PNewMessage savedMessage)
     | None => mret tt
     end ;;
     mret savedMessage)
    (λ e, throw ("Failed to create message: " +:+ e)).

(** The query object that [getMessages] builds from its filter. *)
Definition query (filter : MessageFilter) (m : IMessage) : bool :=
  negb (m_isDeleted m)
  && match truthy (f_room filter) with
     | Some room => bool_decide (m_room m = Some room)
     | None => true
     end
  && match truthy (f_senderId filter) with
     | Some senderId => bool_decide (s_id (m_sender m) = senderId)
     | None => true
     end
  && match truthy (f_messageType filter) with
     | Some t => bool_decide (messageType_name (m_messageType m) = t)
     | None => true
     end
  && match f_startDate filter with
     | Some d => bool_decide (d ≤ m_timestamp m)
     | None => true
     end
  && match f_endDate filter with
     | Some d => bool_decide (m_timestamp m ≤ d)
     | None => true
     end.

(** [.sort({ timestamp: -1 })] *)
Definition not_older (a b : IMessage) : Prop := m_timestamp b ≤ m_timestamp a.

Global Instance not_older_dec a b : Decision (not_older a b).
Proof. unfold not_older, Date. apply _. Defined.

Definition newest_first (ms : list IMessage) : list IMessage :=
  merge_sort not_older ms.

Definition getMessages (filter : MessageFilter) : M MessagePage :=
  try_catch
    (let limit := or_nat (f_limit filter) 50 in
     let skip := or_nat (f_skip filter) 0 in
     (* Message.find(query).sort(..).limit(limit).skip(skip) *)
     store_call ;;
     messages ← gets (λ w,
       take limit (drop skip (newest_first (List.filter (query filter) (Messages w)))));
     (* Message.countDocuments(query) *)
     store_call ;;
     total ← gets (λ w, length (List.filter (query filter) (Messages w)));
     mret {| pg_messages := reverse messages;
             pg_total := total;
             pg_hasMore := bool_decide (skip + limit < total)%nat |})
    (λ e, throw ("Failed to get messages: " +:+ e)).

Definition getRoomMessages (roomName : string) (limit skip : nat) : M RoomPage :=
  try_catch
    (room ← Room_findOne_active roomName;
     messageResult ← getMessages
       {| f_room := Some roomName; f_senderId := None; f_messageType := None;
          f_startDate := None; f_endDate := None;
          f_limit := Some limit; f_skip := Some skip |};
     mret {| rp_room := room;
             rp_messages := pg_messages messageResult;
             rp_total := pg_total messageResult;
             rp_hasMore := pg_hasMore messageResult |})
    (λ e, throw ("Failed to get room messages: " +:+ e)).

Definition editMessage (messageId newContent userId : string) : M (option IMessage) :=
  try_catch
    (now ← new_Date;
     message ← Message_findOneAndUpdate
       (λ m, m_id m = messageId ∧ s_id (m_sender m) = userId ∧ m_isDeleted m = false)
       (with_content newContent true (Some now));
     mret (snd <$> message))
    (λ e, throw ("Failed to edit message: " +:+ e)).

Definition deleteMessage (messageId userId : string) : M bool :=
  try_catch
    (now ← new_Date;
     result ← Message_findOneAndUpdate
       (λ m, m_id m = messageId ∧ s_id (m_sender m) = userId ∧ m_isDeleted m = false)
       (with_deleted now "[Message deleted]");
     mret (bool_decide (is_Some result)))
    (λ e, throw ("Failed to delete message: " +:+ e)).

Definition addReaction (messageId userId username emoji : string) : M (option IMessage) :=
  try_catch
    ((* remove existing reaction from this user first *)
     Message_findOneAndUpdate (λ m, m_id m = messageId)
       (λ m, with_reactions (pull_reactions userId (m_reactions m)) m) ;;
     (* add new reaction *)
     now ← new_Date;
     message ← Message_findOneAndUpdate (λ m, m_id m = messageId)
       (λ m, with_reactions
               (m_reactions m ++
                  [ {| rc_userId := userId; rc_username := username;
                       rc_emoji := emoji; rc_timestamp := now |} ]) m);
     mret (snd <$> message))
    (λ e, throw ("Failed to add reaction: " +:+ e)).

End MessageService.

(* ===================================================================== *)
(** * AuthService (the part the socket handlers call) *)
(* ===================================================================== *)

(** Both methods update the User collection, which is not part of the
    world; what remains of them is one call to the store whose failure is
    logged and swallowed. *)
Module AuthService.

Definition updateUserStatus (userId : string) (isOnline : bool) : M unit :=
  try_catch store_call (λ _, mret tt).

Definition updateUserRoom (userId : string) (room : option string) : M unit :=
  try_catch store_call (λ _, mret tt).

End AuthService.

(* ===================================================================== *)
(** * The Socket.IO event handlers ([setupSocketHandlers]) *)
(* ===================================================================== *)

Record Socket := {
  sk_id : string;
  sk_user : option AuthUser
}.

Record SendMessageData := {
  sm_message : string;
  sm_room : option string;
  sm_replyTo : option string;
  sm_mentions : option (list string)
}.

(** [socket.join(room)] and [socket.leave(room)] *)
Definition socket_join (socket : Socket) (room : string) : M unit :=
  modify (set_socketRooms (λ a,
    Map_set (sk_id socket) (Set_add room (default [] (Map_get (sk_id socket) a))) a)).

Definition socket_leave (socket : Socket) (room : string) : M unit :=
  modify (set_socketRooms (λ a,
    Map_set (sk_id socket) (Set_delete room (default [] (Map_get (sk_id socket) a))) a)).

Module Handlers.
Import SOCKET_EVENTS.

(** [socket.on('join', ...)] *)
Definition join (socket : Socket) (room : option string) : M unit :=
  match sk_user socket with
  | None => mret tt
  | Some user =>
      try_catch
        (let username := u_username user in
         AuthService.updateUserRoom (u_id user) room ;;
         AuthService.updateUserStatus (u_id user) true ;;
         modify (set_connectedUsers
                   (Map_set (sk_id socket)
                      {| cu_id := u_id user; cu_username := username; cu_room := room |})) ;;
         match truthy room with
         | Some room =>
             RoomService.joinRoom room user ;;
             socket_join socket room ;;
             now ← new_Date;
             emit (socket_to (sk_id socket) room) USER_JOINED
               (PPresence username (username +:+ " joined the room") now) ;;
             page ← MessageService.getRoomMessages room 20 0;
             emit (socket_emit (sk_id socket)) "room_history"
               (PRoomHistory room (rp_messages page))
         | None => mret tt
         end ;;
         emit (socket_emit (sk_id socket)) JOINED
           (PJoined (sk_id socket) username room
              (match truthy room with
               | Some room => "Joined room: " +:+ room
               | None => "Connected to chat"
               end)))
        (λ e, emit (socket_emit (sk_id socket)) "error" (PError e))
  end.

(** [socket.on('send_message', ...)] *)
Definition send_message (socket : Socket) (data : SendMessageData) : M unit :=
  match sk_user socket with
  | None => mret tt
  | Some user =>
      try_catch
        (savedMessage ← MessageService.createMessage
           {| cm_content := sm_message data;
              cm_sender := user;
              cm_room := sm_room data;
              cm_messageType := None;
              cm_replyTo := sm_replyTo data;
              cm_mentions := sm_mentions data |};
         let messageData :=
           {| md_id := m_id savedMessage;
              md_username := u_username user;
              md_message := sm_message data;
              md_timestamp := m_timestamp savedMessage;
              md_room := sm_room data;
              md_replyTo := sm_replyTo data;
              md_mentions := sm_mentions data;
              md_isEdited := false;
              md_sender := {| s_id := u_id user; s_username := u_username user;
                              s_email := u_email user |} |} in
         match truthy (sm_room data) with
         | Some room =>
             SocketService.sendToRoom room RECEIVE_MESSAGE (PReceiveMessage messageData) ;;
             RoomService.updateUserLastSeen room (u_id user)
         | None =>
             SocketService.broadcast RECEIVE_MESSAGE (PReceiveMessage messageData)
         end)
        (λ e, emit (socket_emit (sk_id socket)) "error" (PError e))
  end.

(** [socket.on('join_room', ...)] *)
Definition join_room (socket : Socket) (room : string) : M unit :=
  match sk_user socket with
  | None => mret tt
  | Some user =>
      try_catch
        (RoomService.joinRoom room user ;;
         socket_join socket room ;;
         SocketService.addUserToRoom (u_id user) room ;;
         AuthService.updateUserRoom (u_id user) (Some room) ;;
         modify (set_connectedUsers (λ cu,
           match Map_get (sk_id socket) cu with
           | Some user' =>
               Map_set (sk_id socket)
                 {| cu_id := cu_id user'; cu_username := cu_username user';
                    cu_room := Some room |} cu
           | None => cu
           end)) ;;
         now ← new_Date;
         emit (socket_to (sk_id socket) room) USER_JOINED
           (PPresence (u_username user) (u_username user +:+ " joined the room") now) ;;
         page ← MessageService.getRoomMessages room 20 0;
         emit (socket_emit (sk_id socket)) ROOM_JOINED
           (PRoomJoined room ("Joined room: " +:+ room) (rp_room page) (rp_messages page)))
        (λ e, emit (socket_emit (sk_id socket)) "error" (PError e))
  end.

(** [socket.on('leave_room', ...)] *)
Definition leave_room (socket : Socket) (roomToLeave : option string) : M unit :=
  match sk_user socket with
  | None => mret tt
  | Some user =>
      try_catch
        (session ← gets (λ w, Map_get (sk_id socket) (connectedUsers w));
         let currentRoom :=
           match truthy roomToLeave with
           | Some room => Some room
           | None => truthy (session ≫= cu_room)
           end in
         match currentRoom with
         | None => mret tt
         | Some currentRoom =>
             socket_leave socket currentRoom ;;
             RoomService.leaveRoom currentRoom (u_id user) ;;
             SocketService.removeUserFromRoom (u_id user) currentRoom ;;
             now ← new_Date;
             emit (socket_to (sk_id socket) currentRoom) USER_LEFT
               (PPresence (u_username user) (u_username user +:+ " left the room") now) ;;
             match truthy roomToLeave, session with
             | None, Some user' =>
                 AuthService.updateUserRoom (u_id user) None ;;
                 modify (set_connectedUsers
                           (Map_set (sk_id socket)
                              {| cu_id := cu_id user'; cu_username := cu_username user';
                                 cu_room := None |}))
             | _, _ => mret tt
             end ;;
             emit (socket_emit (sk_id socket)) ROOM_LEFT
               (PRoomLeft currentRoom ("Left room: " +:+ currentRoom))
         end)
        (λ e, emit (socket_emit (sk_id socket)) "error" (PError e))
  end.

(** [socket.on('add_reaction', ...)] *)
Definition add_reaction (socket : Socket) (messageId emoji : string) : M unit :=
  match sk_user socket with
  | None => mret tt
  | Some user =>
      try_catch
        (message ← MessageService.addReaction messageId (u_id user) (u_username user) emoji;
         match message with
         | Some message =>
             let eventData := PReaction messageId emoji (u_username user) (u_id user) in
             match truthy (m_room message) with
             | Some targetRoom => emit (io_to targetRoom) "message_reaction" eventData
             | None => emit io_emit "message_reaction" eventData
             end
         | None => mret tt
         end)
        (λ e, emit (socket_emit (sk_id socket)) "error" (PError e))
  end.

(** [socket.on('edit_message', ...)] *)
Definition edit_message (socket : Socket) (messageId newContent : string) : M unit :=
  match sk_user socket with
  | None => mret tt
  | Some user =>
      try_catch
        (message ← MessageService.editMessage messageId newContent (u_id user);
         match message with
         | Some message =>
             let eventData := PEdited messageId newContent (m_editedAt message) true in
             match truthy (m_room message) with
             | Some room => emit (io_to room) "message_edited" eventData
             | None => emit io_emit "message_edited" eventData
             end
         | None => mret tt
         end)
        (λ e, emit (socket_emit (sk_id socket)) "error" (PError e))
  end.

(** [socket.on('delete_message', ...)] *)
Definition delete_message (socket : Socket) (messageId : string) : M unit :=
  match sk_user socket with
  | None => mret tt
  | Some user =>
      try_catch
        (success ← MessageService.deleteMessage messageId (u_id user);
         if (success : bool)
         then
           (* Note of the source: the message would be needed to know
              which room to emit to *)
           emit (socket_emit (sk_id socket)) "message_deleted" (PDeleted messageId)
         else mret tt)
        (λ e, emit (socket_emit (sk_id socket)) "error" (PError e))
  end.

(** [io.on('connection', ...)]: the rooms of the user are looked up in
    the Room collection and the new connection joins them.  [sockets]
    are the identifiers of the live connections, this one included. *)
Definition connection (sockets : list string) (socket : Socket) : M unit :=
  match sk_user socket with
  | None => mret tt
  | Some user =>
      try_catch
        (userRooms ← RoomService.getUserRooms (u_id user);
         let roomNames := map r_name userRooms in
         SocketService.subscribeUserToRooms sockets (u_id user) roomNames ;;
         forEach (λ roomName, socket_join socket roomName) roomNames)
        (λ _, mret tt)
  end.

(** [socket.on('disconnect', ...)] *)
Definition disconnect (socket : Socket) : M unit :=
  match sk_user socket with
  | None => mret tt
  | Some user =>
      try_catch
        (AuthService.updateUserStatus (u_id user) false ;;
         userRooms ← SocketService.getUserRooms (u_id user);
         forEach (λ room,
                    now ← new_Date;
                    emit (socket_to (sk_id socket) room) USER_LEFT
                      (PPresence (u_username user)
                         (u_username user +:+ " disconnected") now))
                 userRooms ;;
         SocketService.cleanupUserMemberships (u_id user) ;;
         session ← gets (λ w, Map_get (sk_id socket) (connectedUsers w));
         match truthy (session ≫= cu_room) with
         | Some room => RoomService.updateUserLastSeen room (u_id user)
         | None => mret tt
         end ;;
         modify (set_connectedUsers (Map_delete (sk_id socket))))
        (λ _, mret tt)
  end.

End Handlers.

(* ===================================================================== *)
(** * The HTTP route [POST /api/messages] *)
(* ===================================================================== *)

(** [\w] of a JavaScript regular expression: letters, digits, underscore *)
Definition is_word (c : ascii) : bool :=
  let n := nat_of_ascii c in
  ((48 <=? n) && (n <=? 57) || (65 <=? n) && (n <=? 90)
   || (97 <=? n) && (n <=? 122) || (n =? 95))%nat.

Definition is_at (c : ascii) : bool := (nat_of_ascii c =? 64)%nat.

(** the capture of a match that ends here, if any *)
Definition flush (cur : option string) : list string :=
  match cur with
  | Some word => if decide (word = EmptyString) then [] else [word]
  | None => []
  end.

(** The successive matches of [/@(\w+)/g] in a string, as one left-to-right
    pass: [cur] is [Some word] after an [@] that was followed by [word]. *)
Fixpoint scan_mentions (cur : option string) (content : string) : list string :=
  match content with
  | EmptyString => flush cur
  | String c rest =>
      if is_at c then flush cur ++ scan_mentions (Some EmptyString) rest
      else if is_word c then
        match cur with
        | Some word => scan_mentions (Some (word +:+ String c EmptyString)) rest
        | None => scan_mentions None rest
        end
      else flush cur ++ scan_mentions None rest
  end.

(** [content.includes("@")] *)
Fixpoint includes_at (content : string) : bool :=
  match content with
  | EmptyString => false
  | String c rest => is_at c || includes_at rest
  end.

Record PostMessageBody := {
  b_roomName : option string;
  b_content : option string;
  b_messageType : option MessageType;
  b_replyTo : option string;
  b_mentions : option (list string)
}.

Inductive Response :=
  | Json (status : nat) (body : IMessage)
  | JsonMessage (status : nat) (message : string).

Module MessageRoutes.

(** [router.post("/", authenticateToken, ...)] *)
Definition post (user : option AuthUser) (body : PostMessageBody) : M Response :=
  try_catch
    (match truthy (b_roomName body), truthy (b_content body) with
     | Some roomName, Some content =>
         match user with
         | None => mret (JsonMessage 401 "User not authenticated")
         | Some user =>
             let finalMentions :=
               match b_mentions body with
               | Some mentions => Some mentions
               | None =>
                   if includes_at content then Some (scan_mentions None content)
                   else None
               end in
             message ← MessageService.createMessage
               {| cm_content := content;
                  cm_sender := user;
                  cm_room := Some roomName;
                  cm_messageType := Some (default text (b_messageType body));
                  cm_replyTo := truthy (b_replyTo body);
                  cm_mentions := finalMentions |};
             mapM (λ mention,
                     SocketService.sendToUser mention "mention"
                       (PMention (m_id message) roomName content (u_username user)))
                  (default [] finalMentions) ;;
             mret (Json 201 message)
         end
     | _, _ => mret (JsonMessage 400 "Room name and content are required")
     end)
    (λ e, mret (JsonMessage 500 e)).

(** [router.delete("/:messageId", authenticateToken, ...)] *)
Definition delete_message (user : option AuthUser) (messageId : string) : M Response :=
  try_catch
    (match truthy (u_id <$> user) with
     | None => mret (JsonMessage 401 "User not authenticated")
     | Some userId =>
         result ← MessageService.deleteMessage messageId userId;
         if (result : bool)
         then mret (JsonMessage 200 "Message deleted successfully")
         else mret (JsonMessage 404 "Message not found or unauthorized")
     end)
    (λ e, mret (JsonMessage 500 e)).

End MessageRoutes.

(* ===================================================================== *)
(** * The HTTP routes of [/api/socket] *)
(* ===================================================================== *)

(** [res.json({ message, room })] and [res.status(s).json({ message })] *)
Inductive RoomResponse :=
  | RoomOk (message room : string)
  | RoomError (status : nat) (message : string).

Module SocketRoutes.

(** [router.post('/join-room', authenticateToken, ...)] *)
Definition join_room (user : AuthUser) (roomName : string) : M RoomResponse :=
  try_catch
    (let userId := u_id user in
     RoomService.joinRoom roomName user ;;
     SocketService.addUserToRoom userId roomName ;;
     AuthService.updateUserRoom userId (Some roomName) ;;
     now ← new_Date;
     SocketService.sendToUser userId "room_joined_api"
       (PNotice roomName ("Joined room " +:+ roomName +:+ " via API") now) ;;
     mret (RoomOk ("Successfully joined room: " +:+ roomName) roomName))
    (λ e, mret (RoomError 400 e)).

(** [router.post('/leave-room', authenticateToken, ...)] *)
Definition leave_room (user : AuthUser) (roomName : string) : M RoomResponse :=
  try_catch
    (let userId := u_id user in
     RoomService.leaveRoom roomName userId ;;
     SocketService.removeUserFromRoom userId roomName ;;
     now ← new_Date;
     SocketService.sendToUser userId "room_left_api"
       (PNotice roomName ("Left room " +:+ roomName +:+ " via API") now) ;;
     mret (RoomOk ("Successfully left room: " +:+ roomName) roomName))
    (λ e, mret (RoomError 400 e)).

End SocketRoutes.

(* ===================================================================== *)
(** * The middleware [authenticateToken] *)
(* ===================================================================== *)

(** [s.split(' ')]: [cur] is the piece read so far *)
Fixpoint split_space (cur s : string) : list string :=
  match s with
  | EmptyString => [cur]
  | String c rest =>
      if Ascii.eqb c " "%char
      then cur :: split_space EmptyString rest
      else split_space (cur +:+ String c EmptyString) rest
  end.

(** [authHeader && authHeader.split(' ')[1]], when it is truthy *)
Definition token_of (authHeader : option string) : option string :=
  match truthy authHeader with
  | Some authHeader => truthy (split_space EmptyString authHeader !! 1%nat)
  | None => None
  end.

(** What the middleware does with the request: it calls [next()] with
    [req.user] set, or it answers. *)
Inductive Verdict :=
  | next (user : AuthUser)
  | answer (status : nat) (error message : string).

Section middleware.
(** [AuthService.verifyToken], [None] when it throws *)
Variable verifyToken : string → option AuthUser.

Definition authenticateToken (authHeader : option string) : Verdict :=
  match token_of authHeader with
  | None =>
      answer 401 "Access token required" "Please provide a valid access token"
  | Some token =>
      match verifyToken token with
      | Some user => next user
      | None =>
          answer 403 "Invalid token" "The provided token is invalid or expired"
      end
  end.

(** [req.user] when [optionalAuth] calls [next()] *)
Definition optionalAuth (authHeader : option string) : option AuthUser :=
  match token_of authHeader with
  | Some token => verifyToken token
  | None => None
  end.
End middleware.

(* ===================================================================== *)
(** * [joinRoom] split at its awaits *)
(* ===================================================================== *)

(** Between [await Room.findOne] and [await room.save()] of one
    [joinRoom], other handlers may run.  Mongoose saves a document by the
    changes made to it: an entry pushed on [participants] is sent as
    [$push] and lands behind whatever the stored array holds by then; the
    fields set on the entry at an index are sent as [$set] on that index
    (the version check that guards such a [$set] is not modelled).  The
    creation of a room that does not exist is not split. *)
Module Interleaved.

Inductive Change :=
  | push (p : Participant)
  | reactivate (index : nat) (lastSeen : Date).

(** what a [joinRoom] holds between its read and its save *)
Record Pending := {
  change : Change;
  lastActivity : Date
}.

(** [Room.findOne] and what follows it up to [room.save()] *)
Definition read (roomName : string) (user : AuthUser) : M Pending :=
  try_catch
    (room ← Room_findOne roomName;
     match room with
     | None => throw "not split: the room is created"
     | Some room =>
         if negb (r_isActive room) then throw "Room is not active" else
         change ←
           match findIndex (u_id user) (r_participants room) with
           | Some (existingParticipantIndex, _) =>
               now ← new_Date;
               mret (reactivate existingParticipantIndex now)
           | None =>
               if decide (or_default (r_maxParticipants room) 100
                            ≤ Z.of_nat (activeParticipants (r_participants room)))
               then throw "Room is full"
               else
                 now ← new_Date;
                 mret (push {| p_userId := u_id user;
                               p_username := u_username user;
                               p_email := u_email user;
                               p_joinedAt := now;
                               p_role := member;
                               p_isActive := true;
                               p_lastSeen := Some now |})
           end;
         now ← new_Date;
         mret {| change := change; lastActivity := now |}
     end)
    (λ e, throw ("Failed to join room: " +:+ e)).

Definition apply_change (c : Change) (ps : list Participant) : list Participant :=
  match c with
  | push p => ps ++ [p]
  | reactivate i now =>
      match ps !! i with
      | Some p => <[i := mark true now p]> ps
      | None => ps
      end
  end.

(** [room.save()]: the pending changes reach the stored document *)
Definition save (roomName : string) (pending : Pending) : M unit :=
  try_catch
    (store_call ;;
     modify (set_Rooms (λ rs,
       match rs !! roomName with
       | Some room =>
           <[roomName := with_lastActivity (lastActivity pending)
                           (with_participants
                              (apply_change (change pending) (r_participants room)) room)]> rs
       | None => rs
       end)))
    (λ e, throw ("Failed to join room: " +:+ e)).

End Interleaved.

(* ===================================================================== *)
(** * Specification vocabulary *)
(* ===================================================================== *)

(** [wp m w Q]: running [m] in the world [w] ends with a result and in a
    world that satisfy [Q]. *)
Definition wp {A} (m : M A) (w : World) (Q : Result A → World → Prop) : Prop :=
  Q (m w).1 (m w).2.

(** The world in which a computation ends. *)
Definition exec {A} (m : M A) (w : World) : World := (m w).2.

(** The next call to the store is answered, [o] being the oracle that is left. *)
Definition answers (w : World) (o : list (option string)) : Prop :=
  oracle w = None :: o ∨ (oracle w = [] ∧ o = []).

(** The next call to the store throws [e]. *)
Definition store_fails (w : World) (e : string) : Prop :=
  ∃ o, oracle w = Some e :: o.

(** Every call to the store is answered from now on. *)
Definition reliable (w : World) : Prop := Forall (λ x, x = None) (oracle w).

(** Two worlds that differ at most in their Room collection and oracle. *)
Definition same_but_Rooms (w w' : World) : Prop :=
  Messages w' = Messages w ∧ connectedUsers w' = connectedUsers w ∧
  userRoomMemberships w' = userRoomMemberships w ∧
  socketRooms w' = socketRooms w ∧ emitted w' = emitted w ∧
  clock w' = clock w ∧ next_oid w' = next_oid w.

(** ** Rooms *)

(** The capacity [joinRoom] compares with: [room.maxParticipants || 100]. *)
Definition capacity (room : IRoom) : Z := or_default (r_maxParticipants room) 100.

Definition within_capacity (room : IRoom) : Prop :=
  Z.of_nat (activeParticipants (r_participants room)) ≤ capacity room.

Global Instance within_capacity_dec room : Decision (within_capacity room).
Proof. unfold within_capacity. apply _. Defined.


(** The participant entries of a user. *)
Definition entries_of (userId : string) (ps : list Participant) : list Participant :=
  List.filter (λ p, bool_decide (p_userId p = userId)) ps.

(** The entry [joinRoom] appends for a new member. *)
Definition new_member (now : Date) (user : AuthUser) : Participant :=
  {| p_userId := u_id user; p_username := u_username user; p_email := u_email user;
     p_joinedAt := now; p_role := member; p_isActive := true; p_lastSeen := Some now |}.

(** The participant list [joinRoom] saves for a room it found. *)
Definition joined (now : Date) (user : AuthUser) (ps : list Participant) : list Participant :=
  match findIndex (u_id user) ps with
  | Some (i, p) => <[i := mark true now p]> ps
  | None => ps ++ [new_member now user]
  end.

(** The participant entries of the room are unique per user. *)
Definition unique_participants (room : IRoom) : Prop :=
  NoDup (p_userId <$> r_participants room).




(** ** Events *)

Definition same_but_Messages (w w' : World) : Prop :=
  Rooms w' = Rooms w ∧ connectedUsers w' = connectedUsers w ∧
  userRoomMemberships w' = userRoomMemberships w ∧
  socketRooms w' = socketRooms w ∧ emitted w' = emitted w ∧
  clock w' = clock w ∧ next_oid w' = next_oid w.

Definition error_to (socket : Socket) (e : string) : Emission :=
  {| e_target := socket_emit (sk_id socket); e_event := "error";
     e_data := PError e |}.

(** The rooms of the Socket.IO adapter a connection is in: the room of its
    own identifier and the rooms it joined. *)
Definition rooms_of_socket (w : World) (socketId : string) : list string :=
  socketId :: default [] (Map_get socketId (socketRooms w)).

(** Whether an emission with this target reaches the connection. *)
Definition receives (w : World) (socketId : string) (t : Target) : bool :=
  match t with
  | io_emit => true
  | io_to room => bool_decide (room ∈ rooms_of_socket w socketId)
  | socket_emit sender => bool_decide (socketId = sender)
  | socket_to sender room =>
      bool_decide (socketId ≠ sender) && bool_decide (room ∈ rooms_of_socket w socketId)
  | socket_broadcast sender => bool_decide (socketId ≠ sender)
  end.

(** The document [createMessage] builds from its argument. *)
Definition created_from (data : CreateMessageData) (m : IMessage) : Prop :=
  m_content m = cm_content data ∧
  s_id (m_sender m) = u_id (cm_sender data) ∧
  m_room m = cm_room data ∧
  m_replyTo m = cm_replyTo data ∧
  m_mentions m = default [] (cm_mentions data) ∧
  m_isDeleted m = false ∧ m_isEdited m = false ∧ m_reactions m = [].


(** The emissions a computation adds to the log. *)
Definition emissions {A} (m : M A) (w : World) : list Emission :=
  drop (length (emitted w)) (emitted (exec m w)).

Definition event_to (socketId event : string) (data : Payload) : Emission :=
  {| e_target := io_to socketId; e_event := event; e_data := data |}.

(** ** Messages *)

(** The message a user may still delete or edit: it carries the
    identifier, the user sent it and it is not deleted. *)
Definition own_message (messageId userId : string) (m : IMessage) : Prop :=
  m_id m = messageId ∧ s_id (m_sender m) = userId ∧ m_isDeleted m = false.

Definition deleted_event (socket : Socket) (messageId : string) : Emission :=
  {| e_target := socket_emit (sk_id socket); e_event := "message_deleted";
     e_data := PDeleted messageId |}.



(** [findByIdAndUpdate] with an update of the reactions array. *)
Definition update_reactions (f : list Reaction → list Reaction) (messageId : string)
    (ms : list IMessage) : list IMessage :=
  match list_find (λ m, m_id m = messageId) ms with
  | Some (i, m) => <[i := with_reactions (f (m_reactions m)) m]> ms
  | None => ms
  end.




(** The message history an event carries. *)
Definition history_of (em : Emission) : option (list IMessage) :=
  match e_data em with
  | PRoomHistory _ messages => Some messages
  | PRoomJoined _ _ _ recentMessages => Some recentMessages
  | _ => None
  end.

(** Worlds related by a sequence of MessageService calls, whatever
    their outcome; between two calls anything but the Message collection
    may change. *)
Inductive message_trace : World → World → Prop :=
  | message_trace_nil w : message_trace w w
  | message_trace_env w w1 w2 :
      message_trace w w1 → Messages w2 = Messages w1 → message_trace w w2
  | message_trace_create w w1 data res w2 :
      message_trace w w1 →
      MessageService.createMessage data w1 = (res, w2) → message_trace w w2
  | message_trace_edit w w1 messageId newContent userId res w2 :
      message_trace w w1 →
      MessageService.editMessage messageId newContent userId w1 = (res, w2) →
      message_trace w w2
  | message_trace_delete w w1 messageId userId res w2 :
      message_trace w w1 →
      MessageService.deleteMessage messageId userId w1 = (res, w2) →
      message_trace w w2
  | message_trace_react w w1 messageId userId username emoji res w2 :
      message_trace w w1 →
      MessageService.addReaction messageId userId username emoji w1 = (res, w2) →
      message_trace w w2.

(** The deleted messages stay where they are, deleted, with their content. *)
Definition keeps_deleted (ms ms' : list IMessage) : Prop :=
  ∀ i m, ms !! i = Some m → m_isDeleted m = true →
    ∃ m', ms' !! i = Some m' ∧ m_isDeleted m' = true ∧ m_content m' = m_content m.

(** An event log extended by history events for this connection only,
    each with at most 20 messages of the collection, none of them deleted. *)
Definition delivers_clean_history (socket : Socket) (w w' : World) : Prop :=
  Messages w' = Messages w ∧
  ∃ delta, emitted w' = emitted w ++ delta ∧
    ∀ em ms, em ∈ delta → history_of em = Some ms →
      e_target em = socket_emit (sk_id socket) ∧ (length ms ≤ 20)%nat ∧
      Forall (λ m, m ∈ Messages w ∧ m_isDeleted m = false) ms.

(** ** The live view *)

(** The users whose subscription set in the Membership Index contains the
    room: the index inverted at that room. *)
Definition subscribers (room : string) (memberships : list (string * list string))
    : list string :=
  (List.filter (λ entry, bool_decide (room ∈ entry.2)) memberships).*1.

(** [getRoomStats] as the specification words it: computed by inverting
    the Room Membership Index. *)
Definition getRoomStats_by_index (room : string) (w : World)
    : SocketService.RoomStats :=
  let userIds := subscribers room (userRoomMemberships w) in
  {| SocketService.userCount := length userIds;
     SocketService.users :=
       (λ userId, (userId, SocketService.username_of (connectedUsers w) userId))
         <$> userIds |}.

(** The sessions of the registry whose current room is the room. *)
Definition sessions_in (room : string) (w : World) : list Session :=
  List.filter (λ user, bool_decide (cu_room user = Some room)) (connectedUsers w).*2.

(** [Set.add] of each element of a list *)
Definition Set_add_all (s l : list string) : list string :=
  foldl (λ s x, Set_add x s) s l.


(** ** Administration of a room *)

(** The user holds no privilege in the room: no participant entry, or a
    first entry whose role is [member]. *)
Definition plain_member (userId : string) (room : IRoom) : Prop :=
  match find_participant userId (r_participants room) with
  | Some p => p_role p = member
  | None => True
  end.

(** The call leaves the Room collection as it is, and it throws [e] when
    the store answers. *)
Definition refused {A} (m : M A) (w : World) (e : string) : Prop :=
  Rooms (exec m w) = Rooms w ∧
  ((∀ e', ¬ store_fails w e') → (m w).1 = Throw e).

(** Every room is stored under its name. *)
Definition keyed_by_name (rooms : gmap string IRoom) : Prop :=
  map_Forall (λ name room, r_name room = name) rooms.

(** ** Pages of messages *)

(** The filter with its [limit] and [skip] replaced. *)
Definition page_of (filter : MessageFilter) (limit skip : nat) : MessageFilter :=
  {| f_room := f_room filter; f_senderId := f_senderId filter;
     f_messageType := f_messageType filter;
     f_startDate := f_startDate filter; f_endDate := f_endDate filter;
     f_limit := Some limit; f_skip := Some skip |}.

(** The messages a filter selects, whatever its [limit] and [skip]. *)
Definition matching (filter : MessageFilter) (w : World) : list IMessage :=
  List.filter (MessageService.query filter) (Messages w).

(** ** The membership index and the registry *)

(** The rooms the Membership Index holds for a user. *)
Definition subscriptions (userId : string) (w : World) : list string :=
  default [] (Map_get userId (userRoomMemberships w)).

(** The index lists each user once, with a set of rooms that is not empty. *)
Definition index_ok (memberships : list (string * list string)) : Prop :=
  NoDup memberships.*1 ∧
  Forall (λ entry, entry.2 ≠ [] ∧ NoDup entry.2) memberships.

Global Instance index_ok_dec memberships : Decision (index_ok memberships).
Proof. unfold index_ok. apply _. Defined.

(** The event [event] with [data], emitted to a room with [io.to(room)]. *)
Definition room_event (event : string) (data : Payload) (room : string) : Emission :=
  {| e_target := io_to room; e_event := event; e_data := data |}.

(** The world with these emissions appended to its log. *)
Definition emitting (delta : list Emission) (w : World) : World :=
  set_emitted (λ l, l ++ delta) w.

(** What the stored participants of a room are as members: who, with
    which role, active or not. *)
Definition roster (room : IRoom) : list (string * Role * bool) :=
  (λ p, (p_userId p, p_role p, p_isActive p)) <$> r_participants room.

(** ** The event handlers *)

(** The room the [leave_room] handler acts on: its argument, or else the
    current room of the session of the connection. *)
Definition room_to_leave (socket : Socket) (roomToLeave : option string) (w : World)
    : option string :=
  match truthy roomToLeave with
  | Some room => Some room
  | None => truthy (Map_get (sk_id socket) (connectedUsers w) ≫= cu_room)
  end.

(** The presence event [event] about the user of a connection, sent to
    the others in [room] with [socket.to(room)]. *)
Definition presence_event (socket : Socket) (user : AuthUser) (event suffix : string)
    (now : Date) (room : string) : Emission :=
  {| e_target := socket_to (sk_id socket) room; e_event := event;
     e_data := PPresence (u_username user) (u_username user +:+ suffix) now |}.

(** The rooms of the adapter the connection has joined. *)
Definition joined_rooms (socketId : string) (w : World) : list string :=
  default [] (Map_get socketId (socketRooms w)).

(** ** The HTTP side *)

(** The event that [sendToUser] delivers, if the registry holds a session
    of the user: it goes to the connection of the first such session. *)
Definition user_event (userId event : string) (data : Payload) (w : World)
    : list Emission :=
  match list_find (λ entry, cu_id entry.2 = userId) (connectedUsers w) with
  | Some (_, (socketId, _)) => [event_to socketId event data]
  | None => []
  end.

(** The string holds no space. *)
Fixpoint no_space (s : string) : bool :=
  match s with
  | EmptyString => true
  | String c rest => negb (Ascii.eqb c " "%char) && no_space rest
  end.

(* ===================================================================== *)
(** * Example data *)
(* ===================================================================== *)

Definition alice : AuthUser :=
  {| u_id := "u1"; u_username := "alice"; u_email := "alice@chat.io"; u_room := None |}.
Definition bob : AuthUser :=
  {| u_id := "u2"; u_username := "bob"; u_email := "bob@chat.io"; u_room := None |}.
Definition carol : AuthUser :=
  {| u_id := "u3"; u_username := "carol"; u_email := "carol@chat.io"; u_room := None |}.

Definition w_empty : World :=
  {| Rooms := ∅; Messages := []; connectedUsers := []; userRoomMemberships := [];
     socketRooms := []; emitted := []; clock := 1000; next_oid := 0; oracle := [] |}.

(** Room "vip" with [maxParticipants = 1], created by alice; then alice
    leaves, bob joins, and alice joins again. *)
Definition w_vip : World :=
  exec (RoomService.createRoom
          {| cr_name := "vip"; cr_description := None; cr_roomType := None;
             cr_maxParticipants := Some 1; cr_creator := alice |}) w_empty.
Definition w_vip_left : World := exec (RoomService.leaveRoom "vip" "u1") w_vip.
Definition w_vip_bob : World := exec (RoomService.joinRoom "vip" bob) w_vip_left.
Definition w_vip_both : World := exec (RoomService.joinRoom "vip" alice) w_vip_bob.

(** One minute later. *)
Definition w_vip_later : World := set_clock 61000 w_vip.

(** Room "duo" with [maxParticipants = 2], created by alice. *)
Definition w_duo : World :=
  exec (RoomService.createRoom
          {| cr_name := "duo"; cr_description := None; cr_roomType := None;
             cr_maxParticipants := Some 2; cr_creator := alice |}) w_empty.

(** bob and carol both read room "duo" before either of them saves *)
Definition race : M unit :=
  for_bob ← Interleaved.read "duo" bob;
  for_carol ← Interleaved.read "duo" carol;
  Interleaved.save "duo" for_bob ;;
  Interleaved.save "duo" for_carol.

Definition s1 : Socket := {| sk_id := "s1"; sk_user := Some alice |}.
Definition s2 : Socket := {| sk_id := "s2"; sk_user := Some bob |}.
Definition s3 : Socket := {| sk_id := "s3"; sk_user := Some carol |}.

(** alice and bob are in room "general", carol is connected without a room *)
Definition w_chat : World :=
  exec (Handlers.join s3 None)
    (exec (Handlers.join_room s2 "general")
       (exec (Handlers.join_room s1 "general") w_empty)).

Definition hello_carol : SendMessageData :=
  {| sm_message := "hello @u3"; sm_room := Some "general";
     sm_replyTo := None; sm_mentions := None |}.

Definition w_hello : World := exec (Handlers.send_message s1 hello_carol) w_chat.


Definition post_hello : PostMessageBody :=
  {| b_roomName := Some "general"; b_content := Some "hello @u3";
     b_messageType := None; b_replyTo := None; b_mentions := None |}.


(** alice joins with room "lobby", then joins the rooms "general" and "random" *)
Definition w_rooms : World :=
  exec (Handlers.join_room s1 "random")
    (exec (Handlers.join_room s1 "general")
       (exec (Handlers.join s1 (Some "lobby")) w_empty)).





(** bob answers in room "general"; then alice deletes her message "0" and
    bob reacts to it *)
Definition hi_all : SendMessageData :=
  {| sm_message := "hi all"; sm_room := Some "general";
     sm_replyTo := None; sm_mentions := None |}.
Definition w_answered : World := exec (Handlers.send_message s2 hi_all) w_hello.
Definition w_deleted : World :=
  exec (MessageService.deleteMessage "0" "u1") w_answered.
Definition w_deleted_liked : World :=
  exec (MessageService.addReaction "0" "u2" "bob" "thumbsup") w_deleted.

Definition any_message : MessageFilter :=
  {| f_room := None; f_senderId := None; f_messageType := None;
     f_startDate := None; f_endDate := None; f_limit := None; f_skip := None |}.

(** bob has joined room "duo" *)
Definition w_duo_bob : World := exec (RoomService.joinRoom "duo" bob) w_duo.

(* ===================================================================== *)
(** * Reasoning rules of the monad *)
(* ===================================================================== *)

Section wp_rules.
Context {A B : Type}.
Implicit Types (w : World).

Lemma wp_run (m : M A) w res w' Q : m w = (res, w') → wp m w Q → Q res w'.
Proof. unfold wp. by intros ->. Qed.

Lemma wp_mono (m : M A) w (Q Q' : Result A → World → Prop) :
  wp m w Q → (∀ r w', Q r w' → Q' r w') → wp m w Q'.
Proof. unfold wp. auto. Qed.

Lemma wp_ret (a : A) w (Q : Result A → World → Prop) : Q (Ok a) w → wp (mret a) w Q.
Proof. done. Qed.

Lemma wp_throw e w (Q : Result A → World → Prop) : Q (Throw e) w → wp (throw e) w Q.
Proof. done. Qed.

Lemma wp_bind (m : M A) (f : A → M B) w Q :
  wp m w (λ r w1, match r with
                  | Ok a => wp (f a) w1 Q
                  | Throw e => Q (Throw e) w1
                  end) →
  wp (m ≫= f) w Q.
Proof. unfold wp, mbind, M_bind. by destruct (m w) as [[a|e] w1]. Qed.

Lemma wp_try_catch (m : M A) h w Q :
  wp m w (λ r w1, match r with
                  | Ok a => Q (Ok a) w1
                  | Throw e => wp (h e) w1 Q
                  end) →
  wp (try_catch m h) w Q.
Proof. unfold wp, try_catch. by destruct (m w) as [[a|e] w1]. Qed.

Lemma wp_gets (f : World → A) w Q : Q (Ok (f w)) w → wp (gets f) w Q.
Proof. done. Qed.
End wp_rules.

Lemma wp_modify f w Q : Q (Ok tt) (f w) → wp (modify f) w Q.
Proof. done. Qed.

Lemma wp_store_call w (Q : Result unit → World → Prop) :
  (∀ o, answers w o → Q (Ok tt) (set_oracle o w)) →
  (∀ e o, oracle w = Some e :: o → Q (Throw e) (set_oracle o w)) →
  wp store_call w Q.
Proof.
  intros Hok Hthrow. unfold wp, store_call.
  destruct (oracle w) as [|[e|] o] eqn:Ho; cbn.
  - destruct w; cbn in *; subst. apply (Hok []). by right.
  - by apply Hthrow.
  - apply Hok. by left.
Qed.

Lemma wp_emit t event data w Q :
  Q (Ok tt) (set_emitted (λ l, l ++ [ {| e_target := t; e_event := event; e_data := data |} ]) w) →
  wp (emit t event data) w Q.
Proof. done. Qed.

(** One step of symbolic execution. *)
Ltac wp_rule :=
  lazymatch goal with
  | |- wp (mbind _ _) _ _ => apply wp_bind
  | |- wp (try_catch _ _) _ _ => apply wp_try_catch
  | |- wp (mret _) _ _ => apply wp_ret
  | |- wp (throw _) _ _ => apply wp_throw
  | |- wp (gets _) _ _ => apply wp_gets
  | |- wp (modify _) _ _ => apply wp_modify
  | |- wp (emit _ _ _) _ _ => apply wp_emit
  | |- wp new_Date _ _ => apply wp_gets
  | |- wp store_call _ _ => apply wp_store_call; [intros ? ? | intros ? ? ?]
  end; cbv beta iota.

Ltac wp_step := wp_rule; cbn.
Ltac wp_steps := repeat wp_step.

(** Use a proved outcome of a call inside a symbolic execution. *)
Ltac wp_use lem :=
  eapply wp_mono; [apply lem|]; cbv beta; intros ? ? ?.

(** Step up to the next call and use its proved outcome. *)
Ltac wp_call lem := first [wp_use lem | wp_rule; wp_call lem].

(** From a run [H : m w = (res, w')] to the symbolic execution of [m]. *)
Ltac wp_inv H :=
  lazymatch type of H with
  | ?m ?w = (?res, ?w') =>
      pattern res, w'; apply (wp_run _ _ _ _ _ H); clear H
  end.

Lemma reliable_answers w o : reliable w → answers w o → reliable (set_oracle o w).
Proof.
  unfold reliable. intros Hr [Ho|[Ho ->]]; cbn; [|constructor].
  rewrite Ho in Hr. by inversion Hr.
Qed.

Lemma reliable_not_throw w e o : reliable w → oracle w = Some e :: o → False.
Proof. unfold reliable. intros Hr Ho. rewrite Ho in Hr. by inversion Hr. Qed.

Lemma run_exec {A} (m : M A) w : m w = ((m w).1, exec m w).
Proof. apply surjective_pairing. Qed.

(* ===================================================================== *)
(** * RoomService *)
(* ===================================================================== *)

Section RoomService_facts.
Import RoomService.

(** ** Facts on participant lists *)

Lemma findIndex_cons userId p ps :
  findIndex userId (p :: ps) =
    if decide (p_userId p = userId) then Some (0%nat, p)
    else prod_map S id <$> findIndex userId ps.
Proof. done. Qed.

Lemma findIndex_None_entries userId ps :
  findIndex userId ps = None → entries_of userId ps = [].
Proof.
  induction ps as [|p ps IH]; [done|].
  rewrite findIndex_cons. case_decide as Hp; [done|].
  destruct (findIndex userId ps); [done|]. intros _.
  cbn. rewrite bool_decide_eq_false_2 by done. by apply IH.
Qed.


Lemma entries_of_app userId ps qs :
  entries_of userId (ps ++ qs) = entries_of userId ps ++ entries_of userId qs.
Proof. apply List.filter_app. Qed.




Lemma capacity_maxParticipants room n :
  r_maxParticipants room = Some n → n ≠ 0 → capacity room = n.
Proof. unfold capacity. intros -> Hn. cbn. by rewrite decide_False. Qed.

(** ** What [joinRoom] does to the Room collection *)

Lemma joinRoom_spec roomName user w :
  wp (joinRoom roomName user) w (λ res w',
    same_but_Rooms w w' ∧
    match res with
    | Throw e => Rooms w' = Rooms w
    | Ok r =>
        Rooms w' = <[r_name r := r]> (Rooms w) ∧
        match Rooms w !! roomName with
        | None =>
            r_name r = roomName ∧ r_isActive r = true ∧
            r_maxParticipants r = Some 100 ∧
            ∃ p, r_participants r = [p] ∧ p_userId p = u_id user ∧
                 p_isActive p = true ∧ p_role p = admin
        | Some room =>
            r_isActive room = true ∧
            (findIndex (u_id user) (r_participants room) = None →
             Z.of_nat (activeParticipants (r_participants room)) < capacity room) ∧
            r = with_lastActivity (clock w)
                  (with_participants (joined (clock w) user (r_participants room)) room)
        end
    end).
Proof.
  unfold joinRoom, createRoom, Room_findOne, Room_insert, Room_save, joined, capacity.
  wp_steps; try done.
  destruct (Rooms w !! roomName) as [room|] eqn:Hroom; cbn.
  - destruct (r_isActive room) eqn:Hact; cbn; wp_steps; try done.
    destruct (findIndex _ _) as [[i p]|] eqn:Hfind; wp_steps; try done.
    case_decide; wp_steps; try done.
    repeat split; try done. intros _. lia.
  - wp_steps; try done. rewrite Hroom. wp_steps; try done.
    rewrite Hroom. wp_steps; try done.
    repeat split; try done. eexists; repeat split; done.
Qed.

(** ** Capacity *)








(** ** Idempotence *)





(** ** Entries stay unique per user *)

Lemma mark_userIds (ps : list Participant) (i : nat) p b d :
  ps !! i = Some p →
  p_userId <$> <[i := mark b d p]> ps = p_userId <$> ps.
Proof.
  intros Hi. rewrite list_fmap_insert. apply list_insert_id.
  by rewrite list_lookup_fmap, Hi.
Qed.

Lemma unique_entries userId (ps : list Participant) :
  NoDup (p_userId <$> ps) → (length (entries_of userId ps) ≤ 1)%nat.
Proof.
  unfold entries_of. induction ps as [|p ps IH]; cbn; [lia|].
  intros [Hp Hps]%NoDup_cons. case_bool_decide as Hid; cbn; [|by apply IH].
  destruct (List.filter _ ps) as [|q qs] eqn:Hq; cbn; [lia|].
  assert (In q (List.filter (λ p, bool_decide (p_userId p = userId)) ps))
    as [Hin Hq']%List.filter_In by (rewrite Hq; by left).
  apply bool_decide_eq_true in Hq'. destruct Hp.
  apply list_elem_of_fmap. exists q. split; [congruence|by apply list_elem_of_In].
Qed.

Lemma joined_unique now user (ps : list Participant) :
  NoDup (p_userId <$> ps) → NoDup (p_userId <$> joined now user ps).
Proof.
  intros Hps. unfold joined.
  destruct (findIndex _ _) as [[i p]|] eqn:Hfind.
  - apply list_find_Some in Hfind as [Hi _]. by rewrite mark_userIds.
  - rewrite fmap_app. apply NoDup_app. split_and!; [done| |apply NoDup_singleton].
    intros userId (p & Hid & Hp)%list_elem_of_fmap Hnew%list_elem_of_singleton.
    apply list_find_None in Hfind. rewrite Forall_forall in Hfind.
    apply (Hfind p Hp). cbn in Hnew. congruence.
Qed.

(** [joinRoom] keeps the entries of every room unique per user. *)
Lemma joinRoom_unique_participants roomName user w res w' :
  joinRoom roomName user w = (res, w') →
  map_Forall (λ _ r, unique_participants r) (Rooms w) →
  map_Forall (λ _ r, unique_participants r) (Rooms w').
Proof.
  intros Hrun Hok.
  pose proof (wp_run _ _ _ _ _ Hrun (joinRoom_spec roomName user w)) as [_ Hpost].
  cbv beta in Hpost. destruct res as [r|e]; [|by rewrite Hpost].
  destruct Hpost as [-> Hr]. apply map_Forall_insert_2; [|done].
  unfold unique_participants.
  destruct (Rooms w !! roomName) as [room|] eqn:Hroom.
  - destruct Hr as (_ & _ & ->). apply joined_unique. by apply (Hok roomName).
  - destruct Hr as (_ & _ & _ & p & -> & _). apply NoDup_singleton.
Qed.

(** ** leaveRoom *)

(** C6 (as amended). [leaveRoom] raises no error as long as the store
    answers.  When the room is absent it returns null and leaves the
    collection as it is.  When the room exists it saves and returns the
    room with [lastActivity] set to the current time: the first entry of
    the user, if there is one, has [isActive = false] and [lastSeen]
    stamped; if there is none the participant list is the same. *)
Theorem leaveRoom_outcome roomName userId w res w' :
  leaveRoom roomName userId w = (res, w') →
  (reliable w → ∃ o, res = Ok o) ∧
  match res with
  | Throw e => Rooms w' = Rooms w
  | Ok None => Rooms w !! roomName = None ∧ Rooms w' = Rooms w
  | Ok (Some saved) =>
      ∃ room, Rooms w !! roomName = Some room ∧
        Rooms w' = <[r_name room := saved]> (Rooms w) ∧
        saved = with_lastActivity (clock w)
                  (with_participants (r_participants saved) room) ∧
        match findIndex userId (r_participants room) with
        | Some (i, p) =>
            r_participants saved
              = <[i := mark false (clock w) p]> (r_participants room)
        | None => r_participants saved = r_participants room
        end
  end.
Proof.
  intros Hrun. wp_inv Hrun.
  unfold leaveRoom, Room_findOne, Room_save.
  wp_steps.
  - destruct (Rooms w !! roomName) as [room|] eqn:Hroom; cbn.
    + destruct (findIndex _ _) as [[i p]|] eqn:Hfind; wp_steps.
      * split; [by eauto|]. exists room. by rewrite Hfind.
      * split; [|done]. intros Hrel. exfalso.
        eapply reliable_not_throw; [|done]. by apply reliable_answers.
      * split; [by eauto|]. exists room. rewrite Hfind. by destruct room.
      * split; [|done]. intros Hrel. exfalso.
        eapply reliable_not_throw; [|done]. by apply reliable_answers.
    + wp_steps. split; [by eauto|done].
  - split; [|done]. intros Hrel. exfalso. by eapply reliable_not_throw.
Qed.

Lemma leaveRoom_outcome_witness :
  (∃ saved, (leaveRoom "vip" "u1" w_vip_later).1 = Ok (Some saved) ∧
     (p_isActive <$> r_participants saved) = [false] ∧
     (p_lastSeen <$> r_participants saved) = [Some 61000]) ∧
  (leaveRoom "lobby" "u1" w_vip_later).1 = Ok None.
Proof.
  split.
  - pose proof (leaveRoom_outcome "vip" "u1" w_vip_later _ _ (run_exec _ _))
      as [Hok Hres].
    destruct Hok as [o Ho]; [constructor|].
    rewrite Ho in Hres |- *. destruct o as [saved|].
    + exists saved. split; [done|].
      destruct Hres as (room & Hroom & _ & _ & Hps).
      vm_compute in Hroom. injection Hroom as <-.
      rewrite Hps. by vm_compute.
    + destruct Hres as [Hnone _]. by vm_compute in Hnone.
  - pose proof (leaveRoom_outcome "lobby" "u1" w_vip_later _ _ (run_exec _ _))
      as [Hok Hres].
    destruct Hok as [o Ho]; [constructor|].
    rewrite Ho in Hres |- *. destruct o as [saved|]; [|done].
    destruct Hres as (room & Hroom & _). by vm_compute in Hroom.
Defined.

(** C6, counterexample. Bob is not a participant of room "vip"; yet
    [leaveRoom("vip", bob)] returns the room, not null, and the stored
    room is not the same afterwards: its [lastActivity] has moved. *)
Lemma leaveRoom_counterexample :
  (∃ room, Rooms w_vip_later !! "vip" = Some room ∧
           findIndex "u2" (r_participants room) = None ∧
           r_lastActivity room = 1000) ∧
  (∃ saved, (leaveRoom "vip" "u2" w_vip_later).1 = Ok (Some saved)) ∧
  (∃ room, Rooms (exec (leaveRoom "vip" "u2") w_vip_later) !! "vip" = Some room ∧
           r_lastActivity room = 61000) ∧
  Rooms (exec (leaveRoom "vip" "u2") w_vip_later) ≠ Rooms w_vip_later.
Proof.
  split; [|split; [|split]].
  - eexists. split; [vm_compute; reflexivity|]. by vm_compute.
  - eexists. vm_compute. reflexivity.
  - eexists. split; [vm_compute; reflexivity|]. by vm_compute.
  - intros Heq. apply (f_equal (λ rs, r_lastActivity <$> rs !! "vip")) in Heq.
    by vm_compute in Heq.
Qed.

End RoomService_facts.

(** ** The race of two joins *)

(** Run without another caller in between, the two halves are [joinRoom]. *)
Lemma read_save_joinRoom roomName user w room :
  Rooms w !! roomName = Some room →
  r_name room = roomName →
  Rooms (exec (Interleaved.read roomName user ≫= Interleaved.save roomName) w)
    = Rooms (exec (RoomService.joinRoom roomName user) w).
Proof.
  intros Hroom Hname.
  unfold exec, Interleaved.read, Interleaved.save, RoomService.joinRoom,
    Room_findOne, Room_save, try_catch, mbind, M_bind, mret, M_ret, throw,
    gets, modify, new_Date, store_call.
  destruct (oracle w) as [|[e|] o] eqn:Ho; cbn; rewrite ?Ho; try done.
  - rewrite Hroom. destruct (r_isActive room) eqn:Hact; cbn; [|done].
    destruct (findIndex _ _) as [[i p]|] eqn:Hfind; cbn.
    + rewrite Ho. cbn. rewrite Hroom, Hname.
      apply list_find_Some in Hfind as (-> & _). done.
    + case_decide; cbn; [done|]. rewrite Ho. cbn. by rewrite Hroom, Hname.
  - rewrite Hroom. destruct (r_isActive room) eqn:Hact; cbn; [|done].
    destruct (findIndex _ _) as [[i p]|] eqn:Hfind; cbn.
    + destruct o as [|[e|] o]; cbn; try done.
      * rewrite Hroom, Hname. apply list_find_Some in Hfind as (-> & _). done.
      * rewrite Hroom, Hname. apply list_find_Some in Hfind as (-> & _). done.
    + case_decide; cbn; [done|].
      destruct o as [|[e|] o]; cbn; try done; by rewrite Hroom, Hname.
Qed.

(** Room "duo" has [maxParticipants = 2] and one active participant; bob
    and carol both read it before either saves: both saves succeed and the
    room has three active participants. *)
Lemma joinRoom_race :
  (∃ room, Rooms w_duo !! "duo" = Some room ∧ capacity room = 2 ∧
           activeParticipants (r_participants room) = 1%nat) ∧
  (race w_duo).1 = Ok tt ∧
  (∃ room, Rooms (exec race w_duo) !! "duo" = Some room ∧ capacity room = 2 ∧
           activeParticipants (r_participants room) = 3%nat).
Proof.
  split; [|split].
  - eexists. split; [vm_compute; reflexivity|]. by vm_compute.
  - by vm_compute.
  - eexists. split; [vm_compute; reflexivity|]. by vm_compute.
Qed.

(* ===================================================================== *)
(** * MessageService and the message handlers *)
(* ===================================================================== *)

Section MessageService_facts.
Import MessageService.

Lemma Message_findOneAndUpdate_spec (query : IMessage → Prop)
    `{∀ m, Decision (query m)} update w :
  wp (Message_findOneAndUpdate query update) w (λ res w',
    same_but_Messages w w' ∧
    match res with
    | Throw e => Messages w' = Messages w ∧ store_fails w e
    | Ok None => list_find query (Messages w) = None ∧ Messages w' = Messages w
    | Ok (Some (old, new)) =>
        ∃ i, list_find query (Messages w) = Some (i, old) ∧ new = update old ∧
             Messages w' = <[i := update old]> (Messages w)
    end).
Proof.
  unfold Message_findOneAndUpdate. wp_steps.
  - destruct (list_find query (Messages w)) as [[i m]|] eqn:Hfind; wp_steps.
    + split; [done|]. by exists i.
    + done.
  - repeat split; try done. by exists o.
Qed.

Lemma createMessage_spec data w :
  wp (createMessage data) w (λ res w',
    connectedUsers w' = connectedUsers w ∧
    userRoomMemberships w' = userRoomMemberships w ∧
    socketRooms w' = socketRooms w ∧ clock w' = clock w ∧
    match res with
    | Ok saved =>
        (∀ e, ¬ store_fails w e) ∧
        created_from data saved ∧ m_timestamp saved = clock w ∧
        Messages w' = Messages w ++ [saved] ∧
        emitted w' = emitted w ++
          match truthy (cm_room data) with
          | Some room => [ {| e_target := io_to room; e_event := "newMessage";
                              e_data := PNewMessage saved |} ]
          | None => []
          end
    | Throw e =>
        emitted w' = emitted w ∧
        ((∃ e0, store_fails w e0 ∧ Messages w' = Messages w ∧
                e = "Failed to create message: " +:+ e0) ∨
         ((∀ e0, ¬ store_fails w e0) ∧
          ∃ saved, created_from data saved ∧ Messages w' = Messages w ++ [saved]))
    end).
Proof.
  unfold createMessage, new_ObjectId, Message_save, Room_countMessage,
    SocketService.sendToRoom.
  wp_steps.
  - assert (∀ e, ¬ store_fails w e) as Hanswered.
    { intros err [o' Ho'].
      destruct H as [H|[H _]]; cbn in H; rewrite H in Ho'; done. }
    destruct (truthy (cm_room data)) as [room|] eqn:Hroom; wp_steps;
      split_and!; try done.
    + right. split; [done|]. eexists. split; [|done]. by unfold created_from.
    + by rewrite app_nil_r.
  - split_and!; try done. left. exists e. split; [by exists o|done].
Qed.

Lemma updateUserLastSeen_spec roomName userId w :
  wp (RoomService.updateUserLastSeen roomName userId) w (λ res w',
    res = Ok tt ∧ same_but_Rooms w w').
Proof. unfold RoomService.updateUserLastSeen. by wp_steps. Qed.



(** C4 (what the code does). When the payload of [send_message] carries
    no mentions list, the message is stored with an empty [mentions]
    array, whatever its content; and every event of the handler is either
    the [error] for the sender or one of [newMessage] and
    [receive_message] for the room of the payload (for everyone when
    there is none): no event is addressed to a mentioned user. *)
Theorem send_message_without_mentions socket user data w res w' :
  sk_user socket = Some user →
  sm_mentions data = None →
  Handlers.send_message socket data w = (res, w') →
  (Messages w' = Messages w ∨
   ∃ m, Messages w' = Messages w ++ [m] ∧
        m_content m = sm_message data ∧ m_mentions m = []) ∧
  ∃ delta, emitted w' = emitted w ++ delta ∧
    ∀ em, em ∈ delta →
      e_target em = socket_emit (sk_id socket) ∧ e_event em = SOCKET_EVENTS.ERROR ∨
      e_target em = match truthy (sm_room data) with
                    | Some room => io_to room
                    | None => io_emit
                    end ∧
      (e_event em = "newMessage" ∨ e_event em = SOCKET_EVENTS.RECEIVE_MESSAGE).
Proof.
  intros Huser Hnone Hrun. wp_inv Hrun.
  unfold Handlers.send_message. rewrite Huser. cbv beta iota.
  wp_step. wp_step. wp_use createMessage_spec.
  destruct r as [saved|e].
  - destruct H as (_ & _ & _ & _ & _ & Hsaved & _ & Hmsgs & Hem).
    destruct Hsaved as (Hcontent & _ & _ & _ & Hmentions & _).
    cbn in Hem, Hcontent, Hmentions. rewrite Hnone in Hmentions.
    cbn. destruct (truthy (sm_room data)) as [room|] eqn:Htruthy.
    + unfold SocketService.sendToRoom. wp_steps.
      wp_use updateUserLastSeen_spec.
      destruct H as (-> & Hm & _ & _ & _ & Hem' & _). cbn in Hm, Hem'.
      split; [right; exists saved; by rewrite Hm|].
      eexists. split.
      { rewrite Hem', Hem, <-app_assoc. reflexivity. }
      intros em [->|[->|[]%elem_of_nil]%elem_of_cons]%elem_of_cons; right; auto.
    + unfold SocketService.broadcast. wp_steps.
      split; [right; by exists saved|].
      eexists. split.
      { rewrite Hem, app_nil_r. reflexivity. }
      intros em [->|[]%elem_of_nil]%elem_of_cons; right; auto.
  - destruct H as (_ & _ & _ & _ & Hem & Hfail). wp_steps. split.
    + destruct Hfail as [(_ & _ & -> & _)|(_ & saved & Hsaved & ->)]; [by left|].
      right. exists saved. destruct Hsaved as (Hcontent & _ & _ & _ & Hmentions & _).
      cbn in Hcontent, Hmentions. rewrite Hnone in Hmentions. done.
    + eexists. split; [rewrite Hem; reflexivity|].
      intros em [->|[]%elem_of_nil]%elem_of_cons. by left.
Qed.

(** C4, failing input. alice sends "hello @u3" to room "general" without a mentions list:
    the stored message mentions nobody, although the content names carol's
    identifier, and carol's connection receives none of the events. *)
Lemma send_message_without_mentions_witness :
  scan_mentions None (sm_message hello_carol) = ["u3"] ∧
  (m_mentions <$> Messages (exec (Handlers.send_message s1 hello_carol) w_chat)) = [[]] ∧
  Forall (λ em, receives w_chat "s3" (e_target em) = false)
         (emissions (Handlers.send_message s1 hello_carol) w_chat).
Proof.
  split; [by vm_compute|].
  destruct (send_message_without_mentions s1 alice hello_carol w_chat _ _
              eq_refl eq_refl (run_exec _ _)) as [Hmsgs (delta & Hdelta & Htargets)].
  split.
  - destruct Hmsgs as [Hsame|(m & -> & _ & Hmentions)].
    + by vm_compute in Hsame.
    + change (Messages w_chat) with (@nil IMessage). cbn. by rewrite Hmentions.
  - unfold emissions. rewrite Hdelta, drop_app_length.
    apply Forall_forall. intros em Hem.
    destruct (Htargets em Hem) as [[-> _]|[-> _]]; by vm_compute.
Defined.

(** The route [POST /api/messages] on the same content does extract the
    mention and notifies carol's connection. *)
Example post_message_extracts_mentions :
  (m_mentions <$> Messages (exec (MessageRoutes.post (Some alice) post_hello) w_chat))
    = [["u3"]] ∧
  {| e_target := io_to "s3"; e_event := "mention";
     e_data := PMention "0" "general" "hello @u3" "alice" |}
    ∈ emissions (MessageRoutes.post (Some alice) post_hello) w_chat.
Proof. split; [by vm_compute|]. vm_compute. apply list_elem_of_In. simpl. auto. Qed.

(** ** delete_message *)

Lemma deleteMessage_spec messageId userId w :
  wp (deleteMessage messageId userId) w (λ res w',
    same_but_Messages w w' ∧
    match res with
    | Ok true =>
        ∃ i m, Messages w !! i = Some m ∧ own_message messageId userId m ∧
               Messages w' = <[i := with_deleted (clock w) "[Message deleted]" m]>
                               (Messages w)
    | Ok false =>
        Messages w' = Messages w ∧
        Forall (λ m, ¬ own_message messageId userId m) (Messages w)
    | Throw e => Messages w' = Messages w
    end).
Proof.
  unfold deleteMessage. wp_step. wp_step. wp_step.
  wp_use Message_findOneAndUpdate_spec.
  destruct H as [Hframe Hres]. destruct r as [[[old new]|]|e]; wp_steps.
  - destruct Hres as (i & Hfind & -> & Hmsgs).
    apply list_find_Some in Hfind as (Hi & Hown & _).
    split; [done|]. by exists i, old.
  - destruct Hres as [Hfind Hmsgs]. split; [done|]. split; [done|].
    by apply list_find_None in Hfind.
  - destruct Hres as [Hmsgs _]. done.
Qed.

(** C7 (what the code does). The [delete_message] handler never throws.
    Either the message carried the identifier, was sent by the caller and
    was not deleted: it is then stored with [isDeleted = true] and the
    placeholder as content, and the only event is [message_deleted] on
    the connection of the caller, not on the room of the message.  Or no
    message changes, and the only event, if any, is an [error] on the
    connection of the caller. *)
Theorem delete_message_outcome socket user messageId w res w' :
  sk_user socket = Some user →
  Handlers.delete_message socket messageId w = (res, w') →
  res = Ok tt ∧
  ((∃ i m, Messages w !! i = Some m ∧ own_message messageId (u_id user) m ∧
           Messages w' = <[i := with_deleted (clock w) "[Message deleted]" m]>
                           (Messages w) ∧
           emitted w' = emitted w ++ [deleted_event socket messageId]) ∨
   (Messages w' = Messages w ∧
    (emitted w' = emitted w ∨ ∃ e, emitted w' = emitted w ++ [error_to socket e]))).
Proof.
  intros Huser Hrun. wp_inv Hrun.
  unfold Handlers.delete_message. rewrite Huser. cbv beta iota.
  wp_step. wp_step. wp_use deleteMessage_spec.
  destruct H as [(_ & _ & _ & _ & Hem & _) Hres].
  destruct r as [[]|e]; wp_steps.
  - destruct Hres as (i & m & Hi & Hown & Hmsgs). split; [done|]. left.
    exists i, m. rewrite Hem. done.
  - destruct Hres as [Hmsgs _]. split; [done|]. right. rewrite Hem. auto.
  - split; [done|]. right. rewrite Hem. split; [done|]. right. by eexists.
Qed.

(** C7, failing input. alice deletes her message "0" of room "general": the message is
    soft-deleted, and the only event goes to alice's own connection; bob's
    connection, which is in the room, does not receive it. *)
Lemma delete_message_outcome_witness :
  (m_room <$> Messages w_hello) = [Some "general"] ∧
  receives w_hello "s2" (io_to "general") = true ∧
  ((λ m, (m_isDeleted m, m_content m))
     <$> Messages (exec (Handlers.delete_message s1 "0") w_hello))
    = [(true, "[Message deleted]")] ∧
  emissions (Handlers.delete_message s1 "0") w_hello = [deleted_event s1 "0"] ∧
  receives w_hello "s2" (e_target (deleted_event s1 "0")) = false.
Proof.
  split; [by vm_compute|]. split; [by vm_compute|].
  destruct (delete_message_outcome s1 alice "0" w_hello _ _ eq_refl (run_exec _ _))
    as [_ [(i & m & Hi & Hown & Hmsgs & Hem)|[Hmsgs _]]].
  - split; [by vm_compute|]. split; [|by vm_compute].
    unfold emissions. by rewrite Hem, drop_app_length.
  - apply (f_equal (fmap m_isDeleted)) in Hmsgs. by vm_compute in Hmsgs.
Defined.

End MessageService_facts.

(** ** Reactions *)

Section reactions.
Import MessageService.


Lemma list_find_cons {A} (P : A → Prop) `{∀ x, Decision (P x)} x l :
  list_find P (x :: l)
    = if decide (P x) then Some (0%nat, x) else prod_map S id <$> list_find P l.
Proof. done. Qed.



Lemma addReaction_spec messageId userId username emoji w :
  wp (addReaction messageId userId username emoji) w (λ res w',
    same_but_Messages w w' ∧
    match res with
    | Ok o =>
        Messages w' =
          update_reactions
            (λ rs, rs ++ [ {| rc_userId := userId; rc_username := username;
                              rc_emoji := emoji; rc_timestamp := clock w |} ])
            messageId
            (update_reactions (pull_reactions userId) messageId (Messages w))
    | Throw e =>
        Messages w' = Messages w ∨
        Messages w' = update_reactions (pull_reactions userId) messageId (Messages w)
    end).
Proof.
  unfold addReaction. wp_rule. wp_rule.
  wp_use Message_findOneAndUpdate_spec.
  destruct H as [Hframe Hres].
  assert (Messages w' = update_reactions (pull_reactions userId) messageId (Messages w)
          ∨ (∃ e, r = Throw e) ∧ Messages w' = Messages w) as Hpulled.
  { unfold update_reactions. destruct r as [[[old new]|]|e].
    - destruct Hres as (i & -> & _ & ->). by left.
    - destruct Hres as (-> & ->). by left.
    - right. split; [by eexists|]. by destruct Hres. }
  destruct Hframe as (HR & HC & HU & HS & HE & HK & HN).
  destruct r as [r|e]; [|wp_steps; split; [done|]; by destruct Hres; left].
  destruct Hpulled as [Hpulled|[[? [=]] _]].
  wp_rule. wp_rule. wp_rule. wp_use Message_findOneAndUpdate_spec.
  destruct H as [Hframe' Hres'].
  destruct Hframe' as (HR' & HC' & HU' & HS' & HE' & HK' & HN').
  assert (same_but_Messages w w'0) as Hsame.
  { unfold same_but_Messages. by rewrite HR', HC', HU', HS', HE', HK', HN'. }
  destruct r0 as [[[old new]|]|e]; wp_steps; (split; [done|]).
  - destruct Hres' as (i & Hfind & _ & ->).
    unfold update_reactions at 1. rewrite <-Hpulled, Hfind. by rewrite HK.
  - destruct Hres' as (Hfind & ->).
    unfold update_reactions at 1. by rewrite <-Hpulled, Hfind.
  - right. destruct Hres' as [-> _]. done.
Qed.








End reactions.

(** ** History *)

Section history.
Import MessageService.


Lemma getMessages_spec filter w :
  wp (getMessages filter) w (λ res w',
    Messages w' = Messages w ∧ emitted w' = emitted w ∧ Rooms w' = Rooms w ∧
    connectedUsers w' = connectedUsers w ∧
    userRoomMemberships w' = userRoomMemberships w ∧
    socketRooms w' = socketRooms w ∧ clock w' = clock w ∧
    match res with
    | Ok page =>
        pg_messages page =
          reverse (take (or_nat (f_limit filter) 50)
                     (drop (or_nat (f_skip filter) 0)
                        (newest_first (List.filter (query filter) (Messages w)))))
    | Throw e => True
    end).
Proof. unfold getMessages. by wp_steps. Qed.

Lemma query_not_deleted filter m : query filter m = true → m_isDeleted m = false.
Proof.
  unfold query. rewrite !andb_true_iff. intros [[[[[H _] _] _] _] _].
  by destruct (m_isDeleted m).
Qed.

(** What a page of [getMessages] is made of. *)
Lemma page_elem_of (m : IMessage) limit skip filter ms :
  m ∈ reverse (take limit (drop skip (newest_first (List.filter (query filter) ms)))) →
  m ∈ ms ∧ query filter m = true.
Proof.
  rewrite elem_of_reverse. intros Hm%subseteq_take%subseteq_drop.
  unfold newest_first in Hm. rewrite merge_sort_Permutation in Hm.
  apply list_elem_of_In, List.filter_In in Hm as [Hm Hq].
  by apply list_elem_of_In in Hm.
Qed.

Lemma page_length limit (l : list IMessage) : (length (reverse (take limit l)) ≤ limit)%nat.
Proof. rewrite length_reverse, length_take. lia. Qed.

(** ** The operations never take a deletion back *)

Lemma keeps_deleted_refl ms : keeps_deleted ms ms.
Proof. intros i m Hi Hd. by exists m. Qed.

Lemma keeps_deleted_trans ms1 ms2 ms3 :
  keeps_deleted ms1 ms2 → keeps_deleted ms2 ms3 → keeps_deleted ms1 ms3.
Proof.
  intros H12 H23 i m Hi Hd.
  destruct (H12 i m Hi Hd) as (m' & Hi' & Hd' & Hc').
  destruct (H23 i m' Hi' Hd') as (m'' & Hi'' & Hd'' & Hc'').
  exists m''. split_and!; [done..|congruence].
Qed.

Lemma keeps_deleted_app ms m : keeps_deleted ms (ms ++ [m]).
Proof.
  intros i m' Hi Hd. exists m'. split; [|done]. by apply lookup_app_l_Some.
Qed.

(** An update that keeps [isDeleted] and the content of deleted messages. *)
Lemma keeps_deleted_insert ms i m m' :
  ms !! i = Some m →
  (m_isDeleted m = true → m_isDeleted m' = true ∧ m_content m' = m_content m) →
  keeps_deleted ms (<[i := m']> ms).
Proof.
  intros Hi Hm j mj Hj Hd. destruct (decide (j = i)) as [->|Hne].
  - rewrite Hi in Hj. injection Hj as <-. exists m'.
    rewrite list_lookup_insert_eq by by eapply lookup_lt_Some. by destruct (Hm Hd).
  - exists mj. by rewrite list_lookup_insert_ne.
Qed.

Lemma keeps_deleted_update_reactions f messageId ms :
  keeps_deleted ms (update_reactions f messageId ms).
Proof.
  unfold update_reactions.
  destruct (list_find _ ms) as [[i m]|] eqn:Hfind; [|apply keeps_deleted_refl].
  apply list_find_Some in Hfind as (Hi & _). by eapply keeps_deleted_insert.
Qed.

Lemma createMessage_keeps_deleted data w res w' :
  createMessage data w = (res, w') → keeps_deleted (Messages w) (Messages w').
Proof.
  intros Hrun.
  pose proof (wp_run _ _ _ _ _ Hrun (createMessage_spec data w)) as (_ & _ & _ & _ & H).
  cbv beta in H. destruct res as [saved|e].
  - destruct H as (_ & _ & _ & -> & _). apply keeps_deleted_app.
  - destruct H as [_ [(_ & _ & -> & _)|(_ & saved & _ & ->)]];
      [apply keeps_deleted_refl|apply keeps_deleted_app].
Qed.

Lemma editMessage_keeps_deleted messageId newContent userId w res w' :
  editMessage messageId newContent userId w = (res, w') →
  keeps_deleted (Messages w) (Messages w').
Proof.
  intros Hrun. wp_inv Hrun. unfold editMessage.
  wp_rule. wp_rule. wp_rule. wp_rule. wp_use Message_findOneAndUpdate_spec.
  destruct H as [_ Hres]. destruct r as [[[old new]|]|e]; wp_steps.
  - destruct Hres as (i & Hfind & _ & ->).
    apply list_find_Some in Hfind as (Hi & (_ & _ & Hnd) & _).
    eapply keeps_deleted_insert; [done|]. congruence.
  - destruct Hres as [_ ->]. apply keeps_deleted_refl.
  - destruct Hres as [-> _]. apply keeps_deleted_refl.
Qed.

Lemma deleteMessage_keeps_deleted messageId userId w res w' :
  deleteMessage messageId userId w = (res, w') →
  keeps_deleted (Messages w) (Messages w').
Proof.
  intros Hrun.
  pose proof (wp_run _ _ _ _ _ Hrun (deleteMessage_spec messageId userId w)) as [_ H].
  cbv beta in H. destruct res as [[]|e].
  - destruct H as (i & m & Hi & (_ & _ & Hnd) & ->).
    eapply keeps_deleted_insert; [done|]. congruence.
  - destruct H as [-> _]. apply keeps_deleted_refl.
  - rewrite H. apply keeps_deleted_refl.
Qed.

Lemma addReaction_keeps_deleted messageId userId username emoji w res w' :
  addReaction messageId userId username emoji w = (res, w') →
  keeps_deleted (Messages w) (Messages w').
Proof.
  intros Hrun.
  pose proof (wp_run _ _ _ _ _ Hrun (addReaction_spec messageId userId username emoji w))
    as [_ H].
  cbv beta in H. destruct res as [o|e].
  - rewrite H. eapply keeps_deleted_trans; apply keeps_deleted_update_reactions.
  - destruct H as [->| ->];
      [apply keeps_deleted_refl|apply keeps_deleted_update_reactions].
Qed.

Lemma message_trace_keeps_deleted w w' :
  message_trace w w' → keeps_deleted (Messages w) (Messages w').
Proof.
  induction 1 as [w|w w1 w2 _ IH Heq|w w1 data res w2 _ IH Hrun
                  |w w1 mid c uid res w2 _ IH Hrun|w w1 mid uid res w2 _ IH Hrun
                  |w w1 mid uid uname emoji res w2 _ IH Hrun].
  - apply keeps_deleted_refl.
  - by rewrite Heq.
  - eapply keeps_deleted_trans; [done|]. by eapply createMessage_keeps_deleted.
  - eapply keeps_deleted_trans; [done|]. by eapply editMessage_keeps_deleted.
  - eapply keeps_deleted_trans; [done|]. by eapply deleteMessage_keeps_deleted.
  - eapply keeps_deleted_trans; [done|]. by eapply addReaction_keeps_deleted.
Qed.

(** ** The history pushed to a joining connection *)

Lemma getRoomMessages_spec roomName limit skip w :
  wp (getRoomMessages roomName limit skip) w (λ res w',
    Messages w' = Messages w ∧ emitted w' = emitted w ∧
    match res with
    | Ok page =>
        (length (rp_messages page) ≤ or_nat (Some limit) 50)%nat ∧
        Forall (λ m, m ∈ Messages w ∧ m_isDeleted m = false) (rp_messages page)
    | Throw e => True
    end).
Proof.
  unfold getRoomMessages, Room_findOne_active. wp_rule. wp_rule. wp_rule.
  wp_rule; [|by wp_steps]. wp_rule. wp_rule.
  wp_use getMessages_spec.
  destruct H0 as (Hm & He & _ & _ & _ & _ & _ & Hres). cbn in Hm, He.
  destruct r as [page|e]; wp_steps; [|done].
  split; [done|]. split; [done|]. rewrite Hres. cbn. split; [apply page_length|].
  apply Forall_forall. intros m [Hin Hq]%page_elem_of.
  split; [done|]. by eapply query_not_deleted.
Qed.
Lemma updateUserRoom_spec userId room w :
  wp (AuthService.updateUserRoom userId room) w (λ res w',
    res = Ok tt ∧ Messages w' = Messages w ∧ emitted w' = emitted w).
Proof. unfold AuthService.updateUserRoom. by wp_steps. Qed.

Lemma updateUserStatus_spec userId st w :
  wp (AuthService.updateUserStatus userId st) w (λ res w',
    res = Ok tt ∧ Messages w' = Messages w ∧ emitted w' = emitted w).
Proof. unfold AuthService.updateUserStatus. by wp_steps. Qed.

Lemma no_history_in_nil socket (w : World) :
  ∀ em ms, em ∈ @nil Emission → history_of em = Some ms →
    e_target em = socket_emit (sk_id socket) ∧ (length ms ≤ 20)%nat ∧
    Forall (λ m, m ∈ Messages w ∧ m_isDeleted m = false) ms.
Proof. by intros em ms Hem%elem_of_nil. Qed.

Lemma join_room_history socket room w res w' :
  Handlers.join_room socket room w = (res, w') →
  delivers_clean_history socket w w'.
Proof.
  intros Hrun. wp_inv Hrun. unfold Handlers.join_room, delivers_clean_history.
  destruct (sk_user socket) as [user|]; wp_rule.
  2:{ split; [done|]. exists []. split; [by rewrite app_nil_r|]. apply no_history_in_nil. }
  wp_call joinRoom_spec.
  destruct H as [(Hm & _ & _ & _ & He & _) _].
  destruct r as [r|e].
  2:{ wp_steps. rewrite Hm, He. split; [done|]. eexists. split; [done|].
      by intros em ms [->|[]%elem_of_nil]%elem_of_cons. }
  unfold socket_join, SocketService.addUserToRoom.
  wp_call updateUserRoom_spec.
  destruct H as (-> & Hm1 & He1). cbn in Hm1, He1.
  wp_call getRoomMessages_spec.
  destruct H as (Hm2 & He2 & Hres). cbn in Hm2, He2.
  destruct r0 as [page|e]; wp_steps.
  - rewrite Hm2, Hm1, Hm. split; [done|]. eexists. split.
    { rewrite He2, He1, He, <-app_assoc. reflexivity. }
    intros em ms [->|[->|[]%elem_of_nil]%elem_of_cons]%elem_of_cons; [done|].
    cbn. intros [= <-]. destruct Hres as [Hlen Hall]. split; [done|]. split; [done|].
    cbn in Hall. by rewrite ?Hm1, ?Hm in Hall.
  - rewrite Hm2, Hm1, Hm. split; [done|]. eexists. split.
    { rewrite He2, He1, He, <-app_assoc. reflexivity. }
    by intros em ms [->|[->|[]%elem_of_nil]%elem_of_cons]%elem_of_cons.
Qed.

Lemma join_history socket room w res w' :
  Handlers.join socket room w = (res, w') →
  delivers_clean_history socket w w'.
Proof.
  intros Hrun. wp_inv Hrun. unfold Handlers.join, delivers_clean_history.
  destruct (sk_user socket) as [user|]; wp_rule.
  2:{ split; [done|]. exists []. split; [by rewrite app_nil_r|]. apply no_history_in_nil. }
  wp_call updateUserRoom_spec. destruct H as (-> & Hm0 & He0).
  wp_call updateUserStatus_spec. destruct H as (-> & Hm1 & He1).
  wp_rule. wp_rule. wp_rule.
  destruct (truthy room) as [room'|].
  - wp_call joinRoom_spec.
    destruct H as [(Hm & _ & _ & _ & He & _) _]. cbn in Hm, He.
    destruct r as [r|e].
    2:{ wp_steps. rewrite Hm, He, Hm1, He1, Hm0, He0. split; [done|].
        eexists. split; [done|].
        by intros em ms [->|[]%elem_of_nil]%elem_of_cons. }
    unfold socket_join. wp_call getRoomMessages_spec.
    destruct H as (Hm2 & He2 & Hres). cbn in Hm2, He2.
    destruct r0 as [page|e]; wp_steps.
    + rewrite Hm2, Hm, Hm1, Hm0. split; [done|]. eexists. split.
      { rewrite He2, He, He1, He0, <-!app_assoc. reflexivity. }
      intros em ms [->|[->|[->|[]%elem_of_nil]%elem_of_cons]%elem_of_cons]%elem_of_cons;
        [done| |done].
      cbn. intros [= <-]. destruct Hres as [Hlen Hall]. split; [done|]. split; [done|].
      cbn in Hall. by rewrite ?Hm, ?Hm1, ?Hm0 in Hall.
    + rewrite Hm2, Hm, Hm1, Hm0. split; [done|]. eexists. split.
      { rewrite He2, He, He1, He0, <-!app_assoc. reflexivity. }
      by intros em ms [->|[->|[]%elem_of_nil]%elem_of_cons]%elem_of_cons.
  - wp_steps. rewrite Hm1, Hm0. split; [done|]. eexists. split.
    { rewrite He1, He0. reflexivity. }
    by intros em ms [->|[]%elem_of_nil]%elem_of_cons.
Qed.

(** C10. After any sequence of MessageService calls: every message of a
    page of [getMessages] is a stored message with [isDeleted = false];
    the history that [join_room] and [join] push is addressed to the
    joining connection only and holds at most 20 stored messages, none of
    them deleted; and a message that was deleted is still stored as
    deleted, with the content it had then (the placeholder), so that no
    later page holds it. *)
Theorem history_hides_deleted w w' :
  message_trace w w' →
  (∀ filter page w'',
     getMessages filter w' = (Ok page, w'') →
     Forall (λ m, m ∈ Messages w' ∧ m_isDeleted m = false) (pg_messages page)) ∧
  (∀ socket room res w'',
     Handlers.join_room socket room w' = (res, w'') ∨
     Handlers.join socket (Some room) w' = (res, w'') →
     delivers_clean_history socket w' w'') ∧
  keeps_deleted (Messages w) (Messages w').
Proof.
  intros Htrace. split_and!.
  - intros filter page w'' Hrun.
    pose proof (wp_run _ _ _ _ _ Hrun (getMessages_spec filter w'))
      as (_ & _ & _ & _ & _ & _ & _ & Hpage).
    cbv beta iota in Hpage. rewrite Hpage.
    apply Forall_forall. intros m [Hin Hq]%page_elem_of.
    split; [done|]. by eapply query_not_deleted.
  - intros socket room res w'' [Hrun|Hrun];
      [by eapply join_room_history|by eapply join_history].
  - by apply message_trace_keeps_deleted.
Qed.


Lemma history_hides_deleted_witness :
  message_trace w_deleted w_deleted_liked ∧
  ((λ m, (m_id m, m_isDeleted m, m_content m)) <$> Messages w_deleted)
    = [("0", true, "[Message deleted]"); ("1", false, "hi all")] ∧
  Forall (λ m, m ∈ Messages w_deleted_liked ∧ m_isDeleted m = false)
         (pg_messages (default {| pg_messages := []; pg_total := 0; pg_hasMore := false |}
                         (match (getMessages any_message w_deleted_liked).1 with
                          | Ok page => Some page
                          | Throw _ => None
                          end))) ∧
  delivers_clean_history s3 w_deleted_liked
    (exec (Handlers.join_room s3 "general") w_deleted_liked) ∧
  keeps_deleted (Messages w_deleted) (Messages w_deleted_liked).
Proof.
  assert (message_trace w_deleted w_deleted_liked) as Htrace.
  { eapply message_trace_react; [apply message_trace_nil|apply run_exec]. }
  destruct (history_hides_deleted _ _ Htrace) as (Hpage & Hjoin & Hkeeps).
  split; [done|]. split; [by vm_compute|]. split; [|split; [|done]].
  - destruct (getMessages any_message w_deleted_liked) as [[page|e] w''] eqn:Hrun;
      [|by constructor].
    by eapply Hpage.
  - eapply Hjoin. left. apply run_exec.
Defined.

End history.

(* ===================================================================== *)
(** * SocketService *)
(* ===================================================================== *)

Section sendToUser.
Import SocketService.






End sendToUser.

Section JsMap_facts.
Context {V : Type}.
Implicit Types (m : list (string * V)).

Lemma Map_get_set k k' v m :
  Map_get k' (Map_set k v m) = if decide (k = k') then Some v else Map_get k' m.
Proof.
  induction m as [|[k0 v0] m IH]; cbn.
  - by destruct (decide (k = k')).
  - destruct (decide (k0 = k)) as [->|Hk0]; cbn.
    + by destruct (decide (k = k')).
    + destruct (decide (k0 = k')) as [->|]; [by rewrite decide_False|done].
Qed.

Lemma Map_set_set k v v' m : Map_set k v' (Map_set k v m) = Map_set k v' m.
Proof.
  induction m as [|[k0 v0] m IH]; cbn.
  - by rewrite decide_True.
  - destruct (decide (k0 = k)) as [->|Hk0]; cbn.
    + by rewrite decide_True.
    + rewrite decide_False by done. by rewrite IH.
Qed.

Lemma Map_set_keys k v m k' :
  k' ∈ (Map_set k v m).*1 ↔ k' = k ∨ k' ∈ m.*1.
Proof.
  induction m as [|[k0 v0] m IH]; cbn.
  - rewrite elem_of_cons, elem_of_nil. tauto.
  - destruct (decide (k0 = k)) as [->|Hk0]; cbn.
    + rewrite !elem_of_cons. tauto.
    + rewrite !elem_of_cons, IH. tauto.
Qed.

Lemma Map_set_NoDup k v m : NoDup m.*1 → NoDup (Map_set k v m).*1.
Proof.
  induction m as [|[k0 v0] m IH]; cbn.
  - intros _. apply NoDup_singleton.
  - intros [Hk0 Hm]%NoDup_cons. destruct (decide (k0 = k)) as [->|Hne]; cbn.
    + by apply NoDup_cons.
    + apply NoDup_cons. split; [|by apply IH].
      rewrite Map_set_keys. intros [?|?]; done.
Qed.

Lemma Map_get_None k m : Map_get k m = None ↔ k ∉ m.*1.
Proof.
  induction m as [|[k0 v0] m IH]; cbn.
  - split; [intros _; apply not_elem_of_nil|done].
  - rewrite not_elem_of_cons. destruct (decide (k0 = k)) as [->|Hne].
    + split; [done|]. by intros [? _].
    + rewrite IH. split; [by intros ?; split|by intros [_ ?]].
Qed.

Lemma Map_get_elem_of k v m :
  NoDup m.*1 → (k, v) ∈ m ↔ Map_get k m = Some v.
Proof.
  induction m as [|[k0 v0] m IH]; cbn.
  - intros _. rewrite elem_of_nil. split; [done|by intros [=]].
  - intros [Hk0 Hm]%NoDup_cons. rewrite elem_of_cons.
    destruct (decide (k0 = k)) as [->|Hne].
    + split.
      * intros [[= ->]|Hin]; [done|]. destruct Hk0.
        apply list_elem_of_fmap. by exists (k, v).
      * intros [= ->]. by left.
    + rewrite <-IH by done. split; [|by right]. intros [[= ? ?]|?]; done.
Qed.
End JsMap_facts.

Section Set_facts.
Lemma Set_add_elem_of x y s : y ∈ Set_add x s ↔ y = x ∨ y ∈ s.
Proof.
  unfold Set_add, Set_has. case_bool_decide as Hx.
  - split; [by right|]. by intros [->|?].
  - rewrite elem_of_app, list_elem_of_singleton. tauto.
Qed.

Lemma Set_add_NoDup x s : NoDup s → NoDup (Set_add x s).
Proof.
  unfold Set_add, Set_has. case_bool_decide as Hx; [done|]. intros Hs.
  apply NoDup_app. split_and!; [done| |apply NoDup_singleton].
  intros y Hy ->%list_elem_of_singleton. done.
Qed.

Lemma Set_add_all_elem_of y s l : y ∈ Set_add_all s l ↔ y ∈ s ∨ y ∈ l.
Proof.
  revert s. induction l as [|x l IH]; intros s; cbn.
  - rewrite elem_of_nil. tauto.
  - rewrite IH, Set_add_elem_of, elem_of_cons. tauto.
Qed.

Lemma Set_add_all_NoDup s l : NoDup s → NoDup (Set_add_all s l).
Proof.
  revert s. induction l as [|x l IH]; intros s Hs; [done|].
  cbn. by apply IH, Set_add_NoDup.
Qed.

Lemma Set_add_idemp x s : Set_add x (Set_add x s) = Set_add x s.
Proof.
  unfold Set_add at 1. unfold Set_has.
  rewrite bool_decide_eq_true_2; [done|]. apply Set_add_elem_of. by left.
Qed.
End Set_facts.

Section getAllActiveRooms.
Import SocketService.

(** One round of the inner loop of [getAllActiveRooms]. *)
Lemma collect_room_step userId room (roomStats : list (string * list string)) :
  (let roomStats' :=
     if Map_has room roomStats then roomStats else Map_set room [] roomStats in
   Map_set room (Set_add userId (default [] (Map_get room roomStats'))) roomStats')
  = Map_set room (Set_add userId (default [] (Map_get room roomStats))) roomStats.
Proof.
  cbv zeta. unfold Map_has.
  destruct (Map_get room roomStats) as [s|] eqn:Hget; [by rewrite Hget|].
  rewrite Map_get_set, decide_True by done. by rewrite Map_set_set.
Qed.

Lemma collect_rooms_get userId rooms roomStats room :
  Map_get room (collect_rooms userId rooms roomStats)
    = if decide (room ∈ rooms)
      then Some (Set_add userId (default [] (Map_get room roomStats)))
      else Map_get room roomStats.
Proof.
  unfold collect_rooms. revert roomStats.
  induction rooms as [|r rooms IH]; intros roomStats.
  - cbn. rewrite decide_False; [done|]. apply not_elem_of_nil.
  - cbn [foldl]. rewrite collect_room_step, IH, Map_get_set.
    destruct (decide (r = room)) as [->|Hne],
             (decide (room ∈ rooms)) as [Hin|Hnin],
             (decide (room ∈ _ :: rooms)) as [Hin'|Hnin'];
      cbn; rewrite ?Set_add_idemp; try done; exfalso.
    + apply Hnin', elem_of_cons. by left.
    + apply Hnin', elem_of_cons. by left.
    + apply Hnin', elem_of_cons. by right.
    + by apply elem_of_cons in Hin' as [->|?].
Qed.

Lemma collect_rooms_NoDup userId rooms roomStats :
  NoDup roomStats.*1 → NoDup (collect_rooms userId rooms roomStats).*1.
Proof.
  unfold collect_rooms. revert roomStats.
  induction rooms as [|r rooms IH]; intros roomStats Hnd; [done|].
  cbn [foldl]. rewrite collect_room_step. by apply IH, Map_set_NoDup.
Qed.

Lemma subscribers_cons room userId rooms memberships :
  subscribers room ((userId, rooms) :: memberships)
    = if decide (room ∈ rooms) then userId :: subscribers room memberships
      else subscribers room memberships.
Proof.
  unfold subscribers. cbn. destruct (decide (room ∈ rooms)).
  - by rewrite bool_decide_eq_true_2.
  - by rewrite bool_decide_eq_false_2.
Qed.

(** The grouping loop of [getAllActiveRooms]: under a room it leaves the
    users of the index that are subscribed to it. *)
Lemma invert_get memberships roomStats room :
  Map_get room
    (foldl (λ roomStats '(userId, rooms), collect_rooms userId rooms roomStats)
           roomStats memberships)
  = match subscribers room memberships with
    | [] => Map_get room roomStats
    | subs => Some (Set_add_all (default [] (Map_get room roomStats)) subs)
    end.
Proof.
  revert roomStats. induction memberships as [|[userId rooms] ms IH]; intros roomStats.
  - done.
  - cbn [foldl]. rewrite IH, subscribers_cons, collect_rooms_get.
    destruct (decide (room ∈ rooms)); [|done].
    cbn. by destruct (subscribers room ms).
Qed.

Lemma invert_NoDup memberships roomStats :
  NoDup roomStats.*1 →
  NoDup (foldl (λ roomStats '(userId, rooms), collect_rooms userId rooms roomStats)
               roomStats memberships).*1.
Proof.
  revert roomStats. induction memberships as [|[userId rooms] ms IH];
    intros roomStats Hnd; [done|].
  cbn [foldl]. by apply IH, collect_rooms_NoDup.
Qed.

(** C9 (as amended). [getRoomStats(room)] is computed from the session
    registry: its users are the sessions whose current room is the room,
    one entry per connection, and [userCount] is their number.  It is
    [getAllActiveRooms] that inverts the Membership Index: it lists the
    rooms some user is subscribed to, each once, with the users whose
    subscription set contains the room. *)
Theorem room_statistics w :
  (∀ room, ∃ stats,
     getRoomStats room w = (Ok stats, w) ∧
     users stats = (λ user, (cu_id user, cu_username user)) <$> sessions_in room w ∧
     userCount stats = length (sessions_in room w)) ∧
  ∃ activeRooms,
    getAllActiveRooms w = (Ok activeRooms, w) ∧
    NoDup (ar_room <$> activeRooms) ∧
    (∀ room, room ∈ ar_room <$> activeRooms ↔
             subscribers room (userRoomMemberships w) ≠ []) ∧
    ∀ entry, entry ∈ activeRooms →
      ∃ userIds, NoDup userIds ∧
        (∀ userId, userId ∈ userIds ↔
                   userId ∈ subscribers (ar_room entry) (userRoomMemberships w)) ∧
        ar_userCount entry = length userIds ∧
        ar_users entry = username_of (connectedUsers w) <$> userIds.
Proof.
  split; [intros room; by eexists|].
  eexists. split; [reflexivity|].
  change (@map ?A ?B ?f ?l) with (f <$> l).
  set (roomStats :=
         foldl (λ roomStats '(userId, rooms), collect_rooms userId rooms roomStats)
               [] (userRoomMemberships w)).
  assert (NoDup roomStats.*1) as Hkeys by (apply invert_NoDup; constructor).
  assert (∀ room userIds, (room, userIds) ∈ roomStats ↔
            subscribers room (userRoomMemberships w) ≠ [] ∧
            userIds = Set_add_all [] (subscribers room (userRoomMemberships w)))
    as Hentries.
  { intros room userIds. rewrite Map_get_elem_of by done.
    unfold roomStats. rewrite invert_get. cbn.
    destruct (subscribers room (userRoomMemberships w)) as [|u subs].
    - split; [done|]. by intros [? _].
    - split; [by intros [= <-]|]. by intros [_ ->]. }
  assert (ar_room <$> ((λ '(room, userIds),
              {| ar_room := room; ar_userCount := length userIds;
                 ar_users := map (username_of (connectedUsers w)) userIds |})
             <$> roomStats) = roomStats.*1) as Hrooms.
  { rewrite <-list_fmap_compose. apply list_fmap_ext. by intros i [room userIds]. }
  split_and!.
  - by rewrite Hrooms.
  - intros room. rewrite Hrooms. split.
    + intros ([room' userIds] & -> & Hin)%list_elem_of_fmap.
      by apply Hentries in Hin as [? _].
    + intros Hsubs. apply list_elem_of_fmap.
      exists (room, Set_add_all [] (subscribers room (userRoomMemberships w))).
      split; [done|]. by apply Hentries.
  - intros entry ([room userIds] & -> & Hin)%list_elem_of_fmap.
    apply Hentries in Hin as [_ ->]. eexists. split_and!; [|  |done|done].
    + apply Set_add_all_NoDup. constructor.
    + intros userId. cbn. rewrite Set_add_all_elem_of, elem_of_nil. tauto.
Qed.

Lemma room_statistics_witness :
  ∃ stats, getRoomStats "random" w_rooms = (Ok stats, w_rooms) ∧
           users stats = [("u1", "alice")] ∧ userCount stats = 1%nat.
Proof.
  destruct (room_statistics w_rooms) as [Hstats _].
  destruct (Hstats "random") as (stats & Hrun & Husers & Hcount).
  exists stats. split; [done|]. rewrite Husers, Hcount. by vm_compute.
Defined.

(** C9, counterexample. alice joined with room "lobby" and then joined
    the rooms "general" and "random": the Membership Index subscribes her
    to "general", [getAllActiveRooms] lists her there, and
    [getRoomStats("general")] is empty. *)
Lemma getRoomStats_counterexample :
  (getRoomStats "general" w_rooms).1 = Ok {| userCount := 0; users := [] |} ∧
  getRoomStats_by_index "general" w_rooms
    = {| userCount := 1; users := [("u1", "alice")] |} ∧
  (getAllActiveRooms w_rooms).1
    = Ok [ {| ar_room := "general"; ar_userCount := 1; ar_users := ["alice"] |};
           {| ar_room := "random"; ar_userCount := 1; ar_users := ["alice"] |} ].
Proof. by vm_compute. Qed.

End getAllActiveRooms.

(* ===================================================================== *)
(** * RoomService: leaving, rejoining and the administration of a room *)
(* ===================================================================== *)

Section RoomService_admin.
Import RoomService.

Lemma answers_not_fails w : (∀ e, ¬ store_fails w e) → ∃ o, answers w o.
Proof.
  intros Hok. unfold answers. destruct (oracle w) as [|[e|] o] eqn:Ho.
  - exists []. by right.
  - destruct (Hok e). by exists o.
  - exists o. by left.
Qed.

Lemma not_fails_throw w e o : (∀ e', ¬ store_fails w e') → oracle w = Some e :: o → False.
Proof. intros Hok Ho. apply (Hok e). by exists o. Qed.

Lemma leaveRoom_spec roomName userId w :
  wp (leaveRoom roomName userId) w (λ res w',
    same_but_Rooms w w' ∧
    match res with
    | Throw e => Rooms w' = Rooms w
    | Ok None => Rooms w !! roomName = None ∧ Rooms w' = Rooms w
    | Ok (Some saved) =>
        ∃ room, Rooms w !! roomName = Some room ∧
          Rooms w' = <[r_name room := saved]> (Rooms w) ∧
          saved = with_lastActivity (clock w)
                    (with_participants
                       (match findIndex userId (r_participants room) with
                        | Some (i, p) =>
                            <[i := mark false (clock w) p]> (r_participants room)
                        | None => r_participants room
                        end) room)
    end).
Proof.
  unfold leaveRoom, Room_findOne, Room_save.
  wp_steps; try done.
  destruct (Rooms w !! roomName) as [room|] eqn:Hroom; cbn; [|by wp_steps].
  destruct (findIndex _ _) as [[i p]|] eqn:Hfind; wp_steps; try done.
  - split; [done|]. exists room. by rewrite Hfind.
  - split; [done|]. exists room. by rewrite Hfind.
Qed.

Lemma findIndex_insert_same userId (ps : list Participant) i p q :
  findIndex userId ps = Some (i, p) → p_userId q = userId →
  findIndex userId (<[i := q]> ps) = Some (i, q).
Proof.
  unfold findIndex. intros Hfind Hq.
  apply list_find_Some in Hfind as (Hi & Hp & Hbefore).
  apply list_find_Some. split_and!.
  - apply list_lookup_insert_eq. by eapply lookup_lt_Some.
  - done.
  - intros j y Hj Hlt. rewrite list_lookup_insert_ne in Hj by lia.
    by eapply Hbefore.
Qed.

(** X1. A user who leaves a room and joins it again gets the same
    participant entry back: it stays at its position with its role and
    its [joinedAt], it is active again, and no entry is added.  Time may
    pass between the two calls. *)
Theorem leave_then_join_keeps_entry roomName user w room i p saved w1 w1' r w2 :
  Rooms w !! roomName = Some room → r_name room = roomName →
  r_isActive room = true →
  findIndex (u_id user) (r_participants room) = Some (i, p) →
  leaveRoom roomName (u_id user) w = (Ok (Some saved), w1) →
  Rooms w1' = Rooms w1 →
  joinRoom roomName user w1' = (Ok r, w2) →
  r_participants r = <[i := mark true (clock w1') p]> (r_participants room) ∧
  Rooms w2 !! roomName = Some r ∧
  ∃ q, r_participants r !! i = Some q ∧
       p_userId q = p_userId p ∧ p_role q = p_role p ∧
       p_joinedAt q = p_joinedAt p ∧ p_isActive q = true.
Proof.
  intros Hroom Hname Hact Hfind Hleave Henv Hjoin.
  pose proof (wp_run _ _ _ _ _ Hleave (leaveRoom_spec _ _ _)) as [_ Hl].
  cbv beta iota in Hl. destruct Hl as (room' & Hroom' & HR1 & ->).
  rewrite Hroom in Hroom'. injection Hroom' as <-.
  rewrite Hfind in HR1. cbn in HR1. rewrite Hname in HR1.
  pose proof (wp_run _ _ _ _ _ Hjoin (joinRoom_spec _ _ _)) as [_ Hj].
  cbv beta iota in Hj. destruct Hj as [HR2 Hj].
  rewrite Henv, HR1, lookup_insert_eq in Hj. destruct Hj as (_ & _ & Hr).
  cbn [r_participants with_lastActivity with_participants] in Hr.
  assert (p_userId p = u_id user) as Hp.
  { unfold findIndex in Hfind. by apply list_find_Some in Hfind as (_ & ? & _). }
  assert (i < length (r_participants room))%nat as Hi.
  { unfold findIndex in Hfind. apply list_find_Some in Hfind as (? & _).
    by eapply lookup_lt_Some. }
  assert (joined (clock w1') user (<[i := mark false (clock w) p]> (r_participants room))
          = <[i := mark true (clock w1') p]> (r_participants room)) as Hjoined.
  { unfold joined. erewrite findIndex_insert_same; [|done|done].
    by rewrite list_insert_insert_eq. }
  rewrite Hjoined in Hr. subst r. cbn [r_participants with_lastActivity with_participants].
  split; [done|]. split.
  - rewrite HR2. cbn. rewrite Hname. apply lookup_insert_eq.
  - eexists. split; [by apply list_lookup_insert_eq|]. done.
Qed.

Lemma leave_then_join_keeps_entry_witness :
  ∃ r, (joinRoom "vip" alice w_vip_left).1 = Ok r ∧
       (p_role <$> r_participants r) = [admin] ∧
       (p_isActive <$> r_participants r) = [true].
Proof.
  eassert (Rooms w_vip !! "vip" = Some _) as Hroom by (vm_compute; reflexivity).
  eassert (leaveRoom "vip" "u1" w_vip = (Ok (Some _), _)) as Hleave
    by (vm_compute; reflexivity).
  eassert (joinRoom "vip" alice w_vip_left = (Ok _, _)) as Hjoin
    by (vm_compute; reflexivity).
  pose proof (leave_then_join_keeps_entry "vip" alice w_vip _ 0%nat _ _ _ w_vip_left _ _
                Hroom eq_refl eq_refl eq_refl Hleave eq_refl Hjoin) as (Hps & _ & _).
  eexists. split; [by rewrite Hjoin|]. rewrite Hps. by vm_compute.
Defined.

(** ** Changing a role *)

Lemma find_participant_Some userId (ps : list Participant) a :
  find_participant userId ps = Some a ↔ ∃ i, findIndex userId ps = Some (i, a).
Proof.
  unfold find_participant. destruct (findIndex userId ps) as [[i p]|]; cbn.
  - split; [intros [= ->]; by exists i|intros [j [= _ ->]]; done].
  - split; [done|by intros [? ?]].
Qed.

Lemma with_role_userIds (ps : list Participant) (i : nat) p role :
  ps !! i = Some p →
  p_userId <$> <[i := with_role role p]> ps = p_userId <$> ps.
Proof.
  intros Hi. rewrite list_fmap_insert. apply list_insert_id.
  by rewrite list_lookup_fmap, Hi.
Qed.

Lemma with_role_isActive (ps : list Participant) (i : nat) p role :
  ps !! i = Some p →
  p_isActive <$> <[i := with_role role p]> ps = p_isActive <$> ps.
Proof.
  intros Hi. rewrite list_fmap_insert. apply list_insert_id.
  by rewrite list_lookup_fmap, Hi.
Qed.

(** X2. [changeUserRole] changes the Room collection only when the
    first entry of the requesting user in the active room has the role
    [admin] and the target has an entry: then the first entry of the
    target gets the new role, and no participant is added, removed,
    activated or deactivated.  In every other case the collection stays
    as it is. *)
Theorem changeUserRole_outcome roomName adminUserId targetUserId newRole w res w' :
  changeUserRole roomName adminUserId targetUserId newRole w = (res, w') →
  match res with
  | Ok (Some saved) =>
      ∃ room a i t,
        Rooms w !! roomName = Some room ∧ r_isActive room = true ∧
        find_participant adminUserId (r_participants room) = Some a ∧
        p_role a = admin ∧
        findIndex targetUserId (r_participants room) = Some (i, t) ∧
        r_participants saved = <[i := with_role newRole t]> (r_participants room) ∧
        p_userId <$> r_participants saved = p_userId <$> r_participants room ∧
        p_isActive <$> r_participants saved = p_isActive <$> r_participants room ∧
        Rooms w' = <[r_name room := saved]> (Rooms w)
  | Ok None => Rooms w' = Rooms w
  | Throw e => Rooms w' = Rooms w
  end.
Proof.
  intros Hrun. wp_inv Hrun.
  unfold changeUserRole, Room_findOne_active, Room_save.
  wp_steps; try done.
  destruct (Rooms w !! roomName) as [room|] eqn:Hroom; cbn; [|by wp_steps].
  destruct (r_isActive room) eqn:Hact; cbn; [|by wp_steps].
  destruct (find_participant _ _) as [a|] eqn:Ha; cbn; [|by wp_steps].
  case_bool_decide as Hadmin; cbn; [|by wp_steps].
  destruct (findIndex targetUserId _) as [[i t]|] eqn:Ht; wp_steps; try done.
  assert (r_participants room !! i = Some t) as Hi.
  { unfold findIndex in Ht. by apply list_find_Some in Ht as (? & _). }
  exists room, a, i, t. split_and!; try done.
  - by apply with_role_userIds.
  - by apply with_role_isActive.
Qed.

Lemma changeUserRole_outcome_witness :
  ∃ saved, (changeUserRole "vip" "u1" "u2" moderator w_vip_both).1 = Ok (Some saved) ∧
           (p_role <$> r_participants saved) = [admin; moderator].
Proof.
  eassert (changeUserRole "vip" "u1" "u2" moderator w_vip_both = (Ok (Some _), _))
    as Hrun by (vm_compute; reflexivity).
  pose proof (changeUserRole_outcome _ _ _ _ _ _ _ Hrun)
    as (room & a & i & t & Hroom & _ & _ & _ & Ht & Hps & _).
  eexists. split; [by rewrite Hrun|].
  vm_compute in Hroom. injection Hroom as <-.
  vm_compute in Ht. injection Ht as <- <-.
  rewrite Hps. by vm_compute.
Defined.

(** ** Removing a participant *)

Lemma removeUserFromRoom_spec roomName adminUserId targetUserId w :
  wp (removeUserFromRoom roomName adminUserId targetUserId) w (λ res w',
    match res with
    | Ok (Some saved) =>
        ∃ room a i t,
          Rooms w !! roomName = Some room ∧ r_isActive room = true ∧
          find_participant adminUserId (r_participants room) = Some a ∧
          (p_role a = admin ∨ p_role a = moderator) ∧
          findIndex targetUserId (r_participants room) = Some (i, t) ∧
          (p_role t = admin → c_userId (r_createdBy room) = adminUserId) ∧
          saved = with_lastActivity (clock w)
                    (with_participants (delete i (r_participants room)) room) ∧
          Rooms w' = <[r_name room := saved]> (Rooms w)
    | Ok None => Rooms w' = Rooms w
    | Throw e => Rooms w' = Rooms w
    end).
Proof.
  unfold removeUserFromRoom, Room_findOne_active, Room_save.
  wp_steps; try done.
  destruct (Rooms w !! roomName) as [room|] eqn:Hroom; cbn; [|by wp_steps].
  destruct (r_isActive room) eqn:Hact; cbn; [|by wp_steps].
  destruct (find_participant _ _) as [a|] eqn:Ha; cbn; [|by wp_steps].
  case_bool_decide as Hpriv; cbn; [|by wp_steps].
  destruct (findIndex targetUserId _) as [[i t]|] eqn:Ht; [|by wp_steps].
  destruct (bool_decide (p_role t = admin) && _) eqn:Hguard; wp_steps; try done.
  exists room, a, i, t. split_and!; try done.
  - apply elem_of_cons in Hpriv as [?|Hpriv]; [by left|].
    apply elem_of_cons in Hpriv as [?|Hpriv]; [by right|].
    by apply elem_of_nil in Hpriv.
  - intros Hadmin. apply andb_false_iff in Hguard as [Hguard|Hguard].
    + by apply bool_decide_eq_false in Hguard.
    + apply negb_false_iff, bool_decide_eq_true in Hguard. done.
Qed.

(** X3. [removeUserFromRoom] removes a participant only on behalf of a
    user whose first entry in the active room is [admin] or [moderator],
    and it removes an [admin] only on behalf of the creator of the room:
    then exactly the first entry of the target is taken out of the list.
    In every other case the collection stays as it is. *)
Theorem removeUserFromRoom_outcome roomName adminUserId targetUserId w res w' :
  removeUserFromRoom roomName adminUserId targetUserId w = (res, w') →
  match res with
  | Ok (Some saved) =>
      ∃ room a i t,
        Rooms w !! roomName = Some room ∧ r_isActive room = true ∧
        find_participant adminUserId (r_participants room) = Some a ∧
        (p_role a = admin ∨ p_role a = moderator) ∧
        findIndex targetUserId (r_participants room) = Some (i, t) ∧
        (p_role t = admin → c_userId (r_createdBy room) = adminUserId) ∧
        r_participants saved = delete i (r_participants room) ∧
        r_participants room
          = take i (r_participants saved) ++ t :: drop i (r_participants saved) ∧
        Rooms w' = <[r_name room := saved]> (Rooms w)
  | Ok None => Rooms w' = Rooms w
  | Throw e => Rooms w' = Rooms w
  end.
Proof.
  intros Hrun.
  pose proof (wp_run _ _ _ _ _ Hrun (removeUserFromRoom_spec _ _ _ _)) as Hspec.
  cbv beta in Hspec. destruct res as [[saved|]|e]; try done.
  destruct Hspec as (room & a & i & t & Hroom & Hact & Ha & Hpriv & Ht & Hguard & -> & HR).
  assert (r_participants room !! i = Some t) as Hi.
  { unfold findIndex in Ht. by apply list_find_Some in Ht as (? & _). }
  exists room, a, i, t. split_and!; try done. cbn.
  apply lookup_lt_Some in Hi as Hlt.
  rewrite delete_take_drop.
  rewrite take_app_length', drop_app_length' by (rewrite length_take; lia).
  symmetry. by apply take_drop_middle.
Qed.

Lemma removeUserFromRoom_outcome_witness :
  ∃ saved, (removeUserFromRoom "vip" "u1" "u2" w_vip_both).1 = Ok (Some saved) ∧
           (p_userId <$> r_participants saved) = ["u1"].
Proof.
  eassert (removeUserFromRoom "vip" "u1" "u2" w_vip_both = (Ok (Some _), _))
    as Hrun by (vm_compute; reflexivity).
  pose proof (removeUserFromRoom_outcome _ _ _ _ _ _ Hrun)
    as (room & a & i & t & Hroom & _ & _ & _ & Ht & _ & Hps & _).
  eexists. split; [by rewrite Hrun|].
  vm_compute in Hroom. injection Hroom as <-.
  vm_compute in Ht. injection Ht as <- <-.
  rewrite Hps. by vm_compute.
Defined.

Lemma findIndex_delete_unique userId (ps : list Participant) i p :
  NoDup (p_userId <$> ps) → findIndex userId ps = Some (i, p) →
  findIndex userId (delete i ps) = None.
Proof.
  unfold findIndex. intros Hnodup Hfind.
  apply list_find_Some in Hfind as (Hi & Hp & _).
  apply list_find_None, Forall_forall. intros q Hq Hqid.
  apply list_elem_of_lookup in Hq as [j Hj].
  assert (∀ k, ps !! k = Some q → k = i) as Hk.
  { intros k Hk. eapply (NoDup_lookup _ _ _ userId); [done| |].
    - rewrite list_lookup_fmap, Hk. cbn. congruence.
    - rewrite list_lookup_fmap, Hi. cbn. congruence. }
  destruct (decide (j < i)%nat) as [Hlt|Hge].
  - rewrite list_lookup_delete_lt in Hj by done. apply Hk in Hj. lia.
  - rewrite list_lookup_delete_ge in Hj by lia. apply Hk in Hj. lia.
Qed.

(** X4. A participant who was removed from a room and joins it again
    comes back as a plain new member, at the end of the list: unlike
    after leaving, the former role and [joinedAt] are gone.  The
    participants of the room are unique per user. *)
Theorem kick_then_join_as_member roomName adminUserId user w saved w1 w1' r w2 :
  (∀ room, Rooms w !! roomName = Some room →
           r_name room = roomName ∧ unique_participants room) →
  removeUserFromRoom roomName adminUserId (u_id user) w = (Ok (Some saved), w1) →
  Rooms w1' = Rooms w1 →
  joinRoom roomName user w1' = (Ok r, w2) →
  r_participants r = r_participants saved ++ [new_member (clock w1') user] ∧
  entries_of (u_id user) (r_participants r) = [new_member (clock w1') user].
Proof.
  intros Hinv Hkick Henv Hjoin.
  pose proof (wp_run _ _ _ _ _ Hkick (removeUserFromRoom_spec _ _ _ _)) as Hk.
  cbv beta iota in Hk.
  destruct Hk as (room & a & i & t & Hroom & Hact & _ & _ & Hfind & _ & Hsaved & HR1).
  assert (r_participants saved = delete i (r_participants room)) as Hps by by subst.
  destruct (Hinv _ Hroom) as [Hname Huniq].
  pose proof (wp_run _ _ _ _ _ Hjoin (joinRoom_spec _ _ _)) as [_ Hj].
  cbv beta iota in Hj. destruct Hj as [_ Hj].
  rewrite Henv, HR1, Hname, lookup_insert_eq in Hj. destruct Hj as (_ & _ & Hr).
  assert (findIndex (u_id user) (r_participants saved) = None) as Hnone.
  { rewrite Hps. by eapply findIndex_delete_unique. }
  assert (joined (clock w1') user (r_participants saved)
          = r_participants saved ++ [new_member (clock w1') user]) as Hjoined.
  { unfold joined. by rewrite Hnone. }
  rewrite Hjoined in Hr. subst r. cbn [r_participants with_lastActivity with_participants].
  split; [done|].
  rewrite entries_of_app, (findIndex_None_entries _ _ Hnone). cbn.
  by rewrite bool_decide_eq_true_2.
Qed.

Lemma kick_then_join_as_member_witness :
  ∃ r, (joinRoom "duo" bob
          (set_clock 5000 (exec (removeUserFromRoom "duo" "u1" "u2") w_duo_bob))).1
         = Ok r ∧
       (p_userId <$> r_participants r) = ["u1"; "u2"] ∧
       (p_joinedAt <$> r_participants r) = [1000; 5000].
Proof.
  eassert (removeUserFromRoom "duo" "u1" "u2" w_duo_bob = (Ok (Some _), _))
    as Hkick by (vm_compute; reflexivity).
  eassert (joinRoom "duo" bob
             (set_clock 5000 (exec (removeUserFromRoom "duo" "u1" "u2") w_duo_bob))
           = (Ok _, _)) as Hjoin by (vm_compute; reflexivity).
  assert (∀ room, Rooms w_duo_bob !! "duo" = Some room →
                  r_name room = "duo" ∧ unique_participants room) as Hinv.
  { intros room Hroom. vm_compute in Hroom. injection Hroom as <-.
    split; [done|]. unfold unique_participants. cbn.
    apply (bool_decide_unpack _). by vm_compute. }
  pose proof (kick_then_join_as_member "duo" "u1" bob w_duo_bob _ _
                (set_clock 5000 (exec (removeUserFromRoom "duo" "u1" "u2") w_duo_bob))
                _ _ Hinv Hkick eq_refl Hjoin) as [Hps _].
  eexists. split; [by rewrite Hjoin|]. rewrite Hps. by vm_compute.
Defined.

(** ** Deleting a room *)

Lemma deleteRoom_spec roomName userId w :
  wp (deleteRoom roomName userId) w (λ res w',
    same_but_Rooms w w' ∧
    match res with
    | Ok true =>
        ∃ room, Rooms w !! roomName = Some room ∧
          (c_userId (r_createdBy room) = userId ∨
           ∃ a, find_participant userId (r_participants room) = Some a ∧
                p_role a = admin) ∧
          Rooms w' = <[r_name room := with_lastActivity (clock w)
                                        (with_isActive false room)]> (Rooms w)
    | Ok false => Rooms w !! roomName = None ∧ Rooms w' = Rooms w
    | Throw e => Rooms w' = Rooms w
    end).
Proof.
  unfold deleteRoom, Room_findOne, Room_save.
  wp_steps; try done.
  destruct (Rooms w !! roomName) as [room|] eqn:Hroom; cbn; [|by wp_steps].
  case_bool_decide as Hcreator; cbn.
  - wp_steps; try done. split; [done|]. exists room. split_and!; try done. by left.
  - destruct (find_participant _ _) as [a|] eqn:Ha; cbn; [|by wp_steps].
    case_bool_decide as Hadmin; cbn; wp_steps; try done.
    split; [done|]. exists room. split_and!; try done. right. by exists a.
Qed.

(** X5. [deleteRoom] is a soft delete that only the creator of the room
    or a participant whose first entry is [admin] obtains: the room stays
    in the collection with its participants, marked as inactive.  From
    then on, as long as the collection is not changed otherwise,
    [getRoomByName] answers null, nobody can join the room, and no room
    of that name can be created. *)
Theorem deleteRoom_aftermath roomName userId w w1 :
  (∀ room, Rooms w !! roomName = Some room → r_name room = roomName) →
  deleteRoom roomName userId w = (Ok true, w1) →
  (∃ room, Rooms w !! roomName = Some room ∧
     (c_userId (r_createdBy room) = userId ∨
      ∃ a, find_participant userId (r_participants room) = Some a ∧
           p_role a = admin) ∧
     ∃ room1, Rooms w1 !! roomName = Some room1 ∧
              r_isActive room1 = false ∧
              r_participants room1 = r_participants room) ∧
  ∀ w2, Rooms w2 = Rooms w1 → (∀ e, ¬ store_fails w2 e) →
    (getRoomByName roomName w2).1 = Ok None ∧
    (∀ user, (joinRoom roomName user w2).1
             = Throw "Failed to join room: Room is not active") ∧
    (∀ data, cr_name data = roomName →
             (createRoom data w2).1
             = Throw "Failed to create room: Room with this name already exists") ∧
    Rooms (exec (getRoomByName roomName) w2) = Rooms w1.
Proof.
  intros Hname Hrun.
  pose proof (wp_run _ _ _ _ _ Hrun (deleteRoom_spec _ _ _)) as [_ Hd].
  cbv beta iota in Hd. destruct Hd as (room & Hroom & Hauth & HR1).
  rewrite (Hname _ Hroom) in HR1.
  assert (Rooms w1 !! roomName
          = Some (with_lastActivity (clock w) (with_isActive false room))) as Hroom1.
  { rewrite HR1. apply lookup_insert_eq. }
  split.
  { exists room. split_and!; try done. eexists. split; [done|]. done. }
  intros w2 Henv Hok. rewrite <- Henv in Hroom1. split_and!.
  - change ((getRoomByName roomName w2).1 = Ok None)
      with (wp (getRoomByName roomName) w2 (λ res _, res = Ok None)).
    unfold getRoomByName, Room_findOne_active. wp_steps.
    + by rewrite Hroom1.
    + exfalso. by eapply not_fails_throw.
  - intros user.
    change (wp (joinRoom roomName user) w2
              (λ res _, res = Throw "Failed to join room: Room is not active")).
    unfold joinRoom, Room_findOne. wp_steps.
    + rewrite Hroom1. cbn. by wp_steps.
    + exfalso. by eapply not_fails_throw.
  - intros data <-.
    change (wp (createRoom data) w2
              (λ res _, res = Throw "Failed to create room: Room with this name already exists")).
    unfold createRoom, Room_findOne. wp_steps.
    + rewrite Hroom1. cbn. by wp_steps.
    + exfalso. by eapply not_fails_throw.
  - rewrite <- Henv.
    change (wp (getRoomByName roomName) w2 (λ _ w', Rooms w' = Rooms w2)).
    unfold getRoomByName, Room_findOne_active. by wp_steps.
Qed.

Lemma deleteRoom_aftermath_witness :
  (joinRoom "vip" carol (exec (deleteRoom "vip" "u1") w_vip_both)).1
    = Throw "Failed to join room: Room is not active" ∧
  (getRoomByName "vip" (exec (deleteRoom "vip" "u1") w_vip_both)).1 = Ok None.
Proof.
  assert (∀ room, Rooms w_vip_both !! "vip" = Some room → r_name room = "vip") as Hname.
  { intros room Hroom. vm_compute in Hroom. by injection Hroom as <-. }
  eassert (deleteRoom "vip" "u1" w_vip_both = (Ok true, _)) as Hrun
    by (vm_compute; reflexivity).
  pose proof (deleteRoom_aftermath "vip" "u1" w_vip_both _ Hname Hrun) as [_ Hafter].
  destruct (Hafter (exec (deleteRoom "vip" "u1") w_vip_both)) as (Hget & Hjoin & _).
  - done.
  - intros e [o Ho]. by vm_compute in Ho.
  - split; [apply Hjoin|apply Hget].
Defined.

(** ** Who may administrate *)

Lemma refused_wp {A} (m : M A) w e :
  wp m w (λ res w', Rooms w' = Rooms w ∧
                    ((∀ e', ¬ store_fails w e') → res = Throw e)) →
  refused m w e.
Proof. done. Qed.

(** X6. A user without privilege in an active room (no participant
    entry, or a first entry with the role [member]) cannot administrate
    it: [updateRoomSettings], [changeUserRole] and [removeUserFromRoom]
    on the user's behalf, and [deleteRoom] unless the user created the
    room, throw their permission error and leave the Room collection as
    it is. *)
Theorem members_cannot_administrate roomName userId w room :
  Rooms w !! roomName = Some room → r_isActive room = true →
  plain_member userId room →
  (∀ settings,
     refused (updateRoomSettings roomName userId settings) w
       "Failed to update room settings: Insufficient permissions to update room settings") ∧
  (∀ targetUserId newRole,
     refused (changeUserRole roomName userId targetUserId newRole) w
       "Failed to change user role: Only admins can change user roles") ∧
  (∀ targetUserId,
     refused (removeUserFromRoom roomName userId targetUserId) w
       "Failed to remove user from room: Insufficient permissions to remove users") ∧
  (c_userId (r_createdBy room) ≠ userId →
     refused (deleteRoom roomName userId) w
       "Failed to delete room: Only room creator or admins can delete the room").
Proof.
  intros Hroom Hact Hplain. unfold plain_member in Hplain. split_and!.
  - intros settings. apply refused_wp.
    unfold updateRoomSettings, Room_findOne_active. wp_steps.
    + rewrite Hroom, Hact. cbn.
      destruct (find_participant _ _) as [a|]; cbn.
      * rewrite Hplain. cbn. by wp_steps.
      * by wp_steps.
    + split; [done|]. intros Hok. exfalso. by eapply not_fails_throw.
  - intros targetUserId newRole. apply refused_wp.
    unfold changeUserRole, Room_findOne_active. wp_steps.
    + rewrite Hroom, Hact. cbn.
      destruct (find_participant _ _) as [a|]; cbn.
      * rewrite Hplain. cbn. by wp_steps.
      * by wp_steps.
    + split; [done|]. intros Hok. exfalso. by eapply not_fails_throw.
  - intros targetUserId. apply refused_wp.
    unfold removeUserFromRoom, Room_findOne_active. wp_steps.
    + rewrite Hroom, Hact. cbn.
      destruct (find_participant _ _) as [a|]; cbn.
      * rewrite Hplain. cbn. by wp_steps.
      * by wp_steps.
    + split; [done|]. intros Hok. exfalso. by eapply not_fails_throw.
  - intros Hcreator. apply refused_wp.
    unfold deleteRoom, Room_findOne. wp_steps.
    + rewrite Hroom. cbn. rewrite bool_decide_eq_false_2 by done. cbn.
      destruct (find_participant _ _) as [a|]; cbn.
      * rewrite Hplain. cbn. by wp_steps.
      * by wp_steps.
    + split; [done|]. intros Hok. exfalso. by eapply not_fails_throw.
Qed.

Lemma members_cannot_administrate_witness :
  (changeUserRole "vip" "u2" "u2" admin w_vip_both).1
    = Throw "Failed to change user role: Only admins can change user roles" ∧
  Rooms (exec (deleteRoom "vip" "u2") w_vip_both) = Rooms w_vip_both.
Proof.
  eassert (Rooms w_vip_both !! "vip" = Some _) as Hroom by (vm_compute; reflexivity).
  pose proof (members_cannot_administrate "vip" "u2" w_vip_both _ Hroom eq_refl eq_refl)
    as (_ & Hrole & _ & Hdel).
  split.
  - apply (Hrole "u2" admin). intros e [o Ho]. by vm_compute in Ho.
  - apply Hdel. by vm_compute.
Defined.
End RoomService_admin.

(* ===================================================================== *)
(** * RoomService: statistics, clean-up and the membership queries *)
(* ===================================================================== *)

Section Array_sort_facts.
Context {A : Type} (key : A → Z).

Lemma sort_insert_Permutation x l :
  sort_insert (λ a b, key b - key a) x l ≡ₚ x :: l.
Proof.
  induction l as [|y l IH]; cbn; [done|].
  case_decide; [done|]. rewrite IH. apply Permutation_swap.
Qed.

Lemma Array_sort_Permutation l : Array_sort (λ a b, key b - key a) l ≡ₚ l.
Proof.
  induction l as [|x l IH]; cbn; [done|].
  by rewrite sort_insert_Permutation, IH.
Qed.

Lemma sort_insert_sorted x l :
  StronglySorted (λ a b, key b ≤ key a) l →
  StronglySorted (λ a b, key b ≤ key a) (sort_insert (λ a b, key b - key a) x l).
Proof.
  induction 1 as [|y l Hl IH Hy]; cbn.
  - repeat constructor.
  - case_decide as Hxy.
    + constructor; [by constructor|]. constructor; [lia|].
      eapply Forall_impl; [done|]. intros z Hz. cbn in Hz. lia.
    + constructor; [done|].
      rewrite sort_insert_Permutation. constructor; [lia|done].
Qed.

Lemma Array_sort_sorted l :
  StronglySorted (λ a b, key b ≤ key a) (Array_sort (λ a b, key b - key a) l).
Proof.
  induction l as [|x l IH]; cbn; [constructor|]. by apply sort_insert_sorted.
Qed.

(** The sort is stable: the elements with one key keep their order. *)
Lemma sort_insert_stable k x l :
  List.filter (λ a, bool_decide (key a = k)) (sort_insert (λ a b, key b - key a) x l)
  = List.filter (λ a, bool_decide (key a = k)) (x :: l).
Proof.
  induction l as [|y l IH]; [done|]. cbn [sort_insert].
  case_decide as Hxy; [done|].
  cbn [List.filter] in *. rewrite IH.
  case_bool_decide as Hx; case_bool_decide as Hy; try done. lia.
Qed.

Lemma Array_sort_stable k l :
  List.filter (λ a, bool_decide (key a = k)) (Array_sort (λ a b, key b - key a) l)
  = List.filter (λ a, bool_decide (key a = k)) l.
Proof.
  induction l as [|x l IH]; [done|]. cbn [Array_sort foldr].
  rewrite sort_insert_stable. cbn [List.filter]. by rewrite <- IH.
Qed.
End Array_sort_facts.

Section RoomService_queries.
Import RoomService.

Lemma filter_elem_of {A} (f : A → bool) (l : list A) x :
  x ∈ List.filter f l ↔ x ∈ l ∧ f x = true.
Proof. rewrite !list_elem_of_In. apply List.filter_In. Qed.

Lemma sorted_lookup {A} (R : relation A) `{!Reflexive R} (l : list A) i j x y :
  StronglySorted R l → (i ≤ j)%nat → l !! i = Some x → l !! j = Some y → R x y.
Proof.
  intros Hsorted Hij Hi Hj.
  destruct (decide (i = j)) as [->|Hne]; [by simplify_eq|].
  rewrite <- (take_drop (S i) l) in Hsorted.
  eapply StronglySorted_app_1_elem_of; [done| |].
  - apply list_elem_of_lookup. exists i. rewrite lookup_take_lt by lia. done.
  - apply list_elem_of_lookup. exists (j - S i)%nat.
    rewrite lookup_drop. by replace (S i + (j - S i))%nat with j by lia.
Qed.

Lemma getRoomStats_spec roomName w :
  wp (getRoomStats roomName) w (λ res w',
    Rooms w' = Rooms w ∧
    match res with
    | Ok (Some stats) =>
        ∃ room, Rooms w !! roomName = Some room ∧ r_isActive room = true ∧
          stats =
            {| st_totalParticipants := length (r_participants room);
               st_activeParticipants :=
                 length (List.filter p_isActive (r_participants room));
               st_messageCount := r_messageCount room;
               st_lastActivity := r_lastActivity room;
               st_topActiveUsers :=
                 map (λ p, (p_username p, p_lastSeen p))
                   (take 10
                      (Array_sort
                         (λ a b, getTime_or_0 (p_lastSeen b)
                                 - getTime_or_0 (p_lastSeen a))
                         (List.filter (λ p, bool_decide (is_Some (p_lastSeen p)))
                            (r_participants room)))) |}
    | _ => True
    end).
Proof.
  unfold getRoomStats, Room_findOne_active. wp_steps; try done.
  destruct (Rooms w !! roomName) as [room|] eqn:Hroom; cbn; [|by wp_steps].
  destruct (r_isActive room) eqn:Hact; cbn; wp_steps; [|done].
  split; [done|]. by exists room.
Qed.

(** X7. The statistics of an active room: [activeParticipants] never
    exceeds [totalParticipants]; [topActiveUsers] lists at most ten
    participants that have a [lastSeen], the most recently seen first,
    and a participant with a [lastSeen] is left out only when ten
    participants seen at least as recently are listed. *)
Theorem getRoomStats_top_active_users roomName w stats w' :
  getRoomStats roomName w = (Ok (Some stats), w') →
  ∃ room, Rooms w !! roomName = Some room ∧ r_isActive room = true ∧
    Rooms w' = Rooms w ∧
    st_totalParticipants stats = length (r_participants room) ∧
    (st_activeParticipants stats ≤ st_totalParticipants stats)%nat ∧
    (length (st_topActiveUsers stats) ≤ 10)%nat ∧
    (∀ i j x y, (i ≤ j)%nat →
       st_topActiveUsers stats !! i = Some x →
       st_topActiveUsers stats !! j = Some y →
       getTime_or_0 y.2 ≤ getTime_or_0 x.2) ∧
    (∀ x, x ∈ st_topActiveUsers stats →
       is_Some x.2 ∧
       ∃ p, p ∈ r_participants room ∧ x = (p_username p, p_lastSeen p)) ∧
    (∀ p, p ∈ r_participants room → is_Some (p_lastSeen p) →
       (p_username p, p_lastSeen p) ∈ st_topActiveUsers stats ∨
       (length (st_topActiveUsers stats) = 10%nat ∧
        ∀ x, x ∈ st_topActiveUsers stats →
             getTime_or_0 (p_lastSeen p) ≤ getTime_or_0 x.2)).
Proof.
  intros Hrun.
  pose proof (wp_run _ _ _ _ _ Hrun (getRoomStats_spec _ _)) as [HR Hspec].
  cbv beta iota in Hspec. destruct Hspec as (room & Hroom & Hact & ->).
  exists room. cbn [st_totalParticipants st_activeParticipants st_topActiveUsers].
  set (seen := List.filter (λ p, bool_decide (is_Some (p_lastSeen p)))
                 (r_participants room)).
  set (key := λ p : Participant, getTime_or_0 (p_lastSeen p)).
  set (sorted := Array_sort _ seen).
  assert (StronglySorted (λ a b, key b ≤ key a) sorted) as Hsorted
    by apply (Array_sort_sorted key).
  assert (sorted ≡ₚ seen) as Hperm by apply (Array_sort_Permutation key).
  assert (∀ p, p ∈ sorted ↔ p ∈ r_participants room ∧ is_Some (p_lastSeen p))
    as Helem.
  { intros p. rewrite Hperm. unfold seen. rewrite filter_elem_of.
    by rewrite bool_decide_eq_true. }
  split_and!; try done.
  - apply List.filter_length_le.
  - rewrite length_map, length_take. lia.
  - intros i j x y Hij Hi Hj.
    rewrite list_lookup_fmap in Hi, Hj.
    destruct (take 10 sorted !! i) as [p|] eqn:Hp; [|done].
    destruct (take 10 sorted !! j) as [q|] eqn:Hq; [|done].
    cbn in Hi, Hj. simplify_eq. cbn.
    assert (Reflexive (λ a b : Participant, key b ≤ key a)) by (intros ?; lia).
    eapply (sorted_lookup (λ a b, key b ≤ key a) (take 10 sorted) i j p q); try done.
    rewrite <- (take_drop 10 sorted) in Hsorted.
    by apply StronglySorted_app_1_l in Hsorted.
  - intros x (p & -> & Hp)%list_elem_of_fmap.
    apply subseteq_take, Helem in Hp as [Hp Hseen]. split; [done|]. by exists p.
  - intros p Hp Hseen.
    assert (p ∈ sorted) as Hin by by apply Helem.
    rewrite <- (take_drop 10 sorted) in Hin. apply elem_of_app in Hin as [Hin|Hin].
    + left. apply list_elem_of_fmap. by exists p.
    + right. split.
      * rewrite length_map, length_take.
        assert (10 < length sorted)%nat; [|lia].
        destruct (decide (10 < length sorted)%nat); [done|].
        rewrite drop_ge in Hin by lia. by apply elem_of_nil in Hin.
      * intros x (q & -> & Hq)%list_elem_of_fmap. cbn.
        rewrite <- (take_drop 10 sorted) in Hsorted.
        apply (StronglySorted_app_1_elem_of _ _ _ q p Hsorted Hq Hin).
Qed.

Lemma getRoomStats_top_active_users_witness :
  ∃ stats, (getRoomStats "duo" w_duo_bob).1 = Ok (Some stats) ∧
           st_topActiveUsers stats = [("bob", Some 1000)] ∧
           (length (st_topActiveUsers stats) ≤ 10)%nat.
Proof.
  eassert (getRoomStats "duo" w_duo_bob = (Ok (Some _), _)) as Hrun
    by (vm_compute; reflexivity).
  pose proof (getRoomStats_top_active_users _ _ _ _ Hrun)
    as (room & _ & _ & _ & _ & _ & Hlen & _).
  eexists. split; [by rewrite Hrun|]. split; [by vm_compute|exact Hlen].
Defined.

(** ** Cleaning up inactive rooms *)

Lemma stale_with_isActive cutoffDate room :
  stale cutoffDate (with_isActive false room) = false.
Proof. unfold stale. cbn. by rewrite andb_false_r. Qed.

Lemma count_active_cleanup cutoffDate (docs : list IRoom) :
  length (List.filter r_isActive docs)
  = (length (List.filter r_isActive
               ((λ room, if stale cutoffDate room then with_isActive false room
                         else room) <$> docs))
     + length (List.filter (stale cutoffDate) docs))%nat.
Proof.
  induction docs as [|room docs IH]; [done|]. cbn.
  destruct (stale cutoffDate room) eqn:Hstale; cbn.
  - assert (r_isActive room = true) as ->.
    { unfold stale in Hstale. by destruct (r_isActive room), (bool_decide _). }
    cbn. lia.
  - destruct (r_isActive room); cbn; lia.
Qed.

Lemma count_stale_cleanup cutoffDate (docs : list IRoom) :
  List.filter (stale cutoffDate)
    ((λ room, if stale cutoffDate room then with_isActive false room else room)
       <$> docs) = [].
Proof.
  induction docs as [|room docs IH]; [done|]. cbn.
  destruct (stale cutoffDate room) eqn:Hstale.
  - by rewrite stale_with_isActive.
  - by rewrite Hstale.
Qed.

Lemma Room_documents_fmap (f : IRoom → IRoom) w :
  Room_documents (set_Rooms (fmap f) w) = f <$> Room_documents w.
Proof.
  unfold Room_documents. cbn. rewrite map_to_list_fmap.
  rewrite <- !list_fmap_compose. done.
Qed.

Lemma cleanupInactiveRooms_spec daysInactive w :
  wp (cleanupInactiveRooms daysInactive) w (λ res w',
    match res with
    | Ok n =>
        ∃ o, answers w o ∧
          n = length (List.filter
                        (stale (clock w - default 30 daysInactive * 24 * 60 * 60 * 1000))
                        (Room_documents w)) ∧
          w' = set_Rooms
                 (fmap (λ room,
                    if stale (clock w - default 30 daysInactive * 24 * 60 * 60 * 1000) room
                    then with_isActive false room else room))
                 (set_oracle o w)
    | Throw e => Rooms w' = Rooms w
    end).
Proof.
  unfold cleanupInactiveRooms. wp_steps; [|done].
  eexists. split; [done|]. done.
Qed.

(** X8. [cleanupInactiveRooms] only switches rooms off: it keeps every
    room of the collection and changes nothing but [isActive]; it never
    touches a direct conversation, a room that was active since the
    cutoff date, or a room that is already inactive; it deactivates every
    other room, and the number it returns is the number of rooms that
    went from active to inactive.  Run again at the same time, it finds
    nothing left to do. *)
Theorem cleanupInactiveRooms_outcome daysInactive w n w' :
  cleanupInactiveRooms daysInactive w = (Ok n, w') →
  let cutoffDate := clock w - default 30 daysInactive * 24 * 60 * 60 * 1000 in
  (∀ name, Rooms w' !! name = None ↔ Rooms w !! name = None) ∧
  (∀ name room, Rooms w !! name = Some room →
     ∃ room', Rooms w' !! name = Some room' ∧
       if bool_decide (r_lastActivity room < cutoffDate) && r_isActive room
          && negb (bool_decide (r_roomType room = direct))
       then room' = with_isActive false room
       else room' = room) ∧
  (length (List.filter r_isActive (Room_documents w))
   = length (List.filter r_isActive (Room_documents w')) + n)%nat ∧
  ((∀ e, ¬ store_fails w' e) →
   (cleanupInactiveRooms daysInactive w').1 = Ok 0%nat).
Proof.
  intros Hrun cutoffDate.
  pose proof (wp_run _ _ _ _ _ Hrun (cleanupInactiveRooms_spec _ _)) as Hspec.
  cbv beta iota in Hspec. destruct Hspec as (o & Ho & -> & ->).
  fold cutoffDate. split_and!.
  - intros name. cbn. rewrite lookup_fmap. by destruct (Rooms w !! name).
  - intros name room Hroom. cbn. rewrite lookup_fmap, Hroom. cbn.
    eexists. split; [done|]. fold (stale cutoffDate room).
    by destruct (stale cutoffDate room).
  - rewrite Room_documents_fmap.
    change (Room_documents (set_oracle o w)) with (Room_documents w).
    apply count_active_cleanup.
  - intros Hok.
    match goal with |- (_ ?w2).1 = _ => set (w1 := w2) end.
    change (wp (cleanupInactiveRooms daysInactive) w1 (λ res _, res = Ok 0%nat)).
    unfold cleanupInactiveRooms. wp_steps.
    + f_equal. subst w1. cbn [clock set_Rooms set_oracle].
      fold cutoffDate.
      change (Room_documents _)
        with (Room_documents
                (set_Rooms
                   (fmap (λ room, if stale cutoffDate room
                                  then with_isActive false room else room)) w)).
      rewrite Room_documents_fmap, count_stale_cleanup. done.
    + exfalso. by eapply not_fails_throw.
Qed.

Lemma cleanupInactiveRooms_outcome_witness :
  (cleanupInactiveRooms (Some 0) (set_clock 9000 w_duo_bob)).1 = Ok 1%nat ∧
  (cleanupInactiveRooms (Some 0)
     (exec (cleanupInactiveRooms (Some 0)) (set_clock 9000 w_duo_bob))).1 = Ok 0%nat.
Proof.
  eassert (cleanupInactiveRooms (Some 0) (set_clock 9000 w_duo_bob) = (Ok 1%nat, _))
    as Hrun by (vm_compute; reflexivity).
  pose proof (cleanupInactiveRooms_outcome _ _ _ _ Hrun) as (_ & _ & _ & Hagain).
  split; [by rewrite Hrun|].
  apply Hagain. intros e [o Ho]. by vm_compute in Ho.
Defined.

(** ** Who is in a room *)

Lemma has_participant_elem_of userId room :
  has_participant userId room = true ↔
  ∃ p, p ∈ r_participants room ∧ p_userId p = userId.
Proof.
  unfold has_participant. rewrite existsb_exists. split.
  - intros (p & Hp & Hid). exists p. split; [by apply list_elem_of_In|].
    by apply bool_decide_eq_true in Hid.
  - intros (p & Hp & Hid). exists p. split; [by apply list_elem_of_In|].
    by apply bool_decide_eq_true.
Qed.

Lemma has_active_participant_elem_of room :
  has_active_participant room = true ↔
  ∃ p, p ∈ r_participants room ∧ p_isActive p = true.
Proof.
  unfold has_active_participant. rewrite existsb_exists. split.
  - intros (p & Hp & Hact). exists p. split; [by apply list_elem_of_In|done].
  - intros (p & Hp & Hact). exists p. split; [by apply list_elem_of_In|done].
Qed.

Lemma isUserInRoom_answer roomName userId w :
  (∀ e, ¬ store_fails w e) →
  (isUserInRoom roomName userId w).1
  = Ok (match Rooms w !! roomName with
        | Some room =>
            r_isActive room && has_participant userId room
            && has_active_participant room
        | None => false
        end).
Proof.
  intros Hok.
  match goal with |- _ = Ok ?b =>
    change (wp (isUserInRoom roomName userId) w (λ res _, res = Ok b)) end.
  unfold isUserInRoom. wp_steps.
  - destruct (Rooms w !! roomName) as [room|]; [|done].
    by destruct (_ && _ && _).
  - exfalso. by eapply not_fails_throw.
Qed.

Lemma getUserRoleInRoom_answer roomName userId w :
  (∀ e, ¬ store_fails w e) →
  (getUserRoleInRoom roomName userId w).1
  = Ok (match Rooms w !! roomName with
        | Some room =>
            if r_isActive room
            then p_role <$> List.find (λ p, bool_decide (p_userId p = userId)
                                            && p_isActive p) (r_participants room)
            else None
        | None => None
        end).
Proof.
  intros Hok.
  match goal with |- _ = Ok ?b =>
    change (wp (getUserRoleInRoom roomName userId) w (λ res _, res = Ok b)) end.
  unfold getUserRoleInRoom, Room_findOne_active. wp_steps.
  - destruct (Rooms w !! roomName) as [room|]; [|by wp_steps]. cbn.
    destruct (r_isActive room); by wp_steps.
  - exfalso. by eapply not_fails_throw.
Qed.

Lemma find_active_mark_false userId (ps : list Participant) i p d :
  NoDup (p_userId <$> ps) → findIndex userId ps = Some (i, p) →
  List.find (λ q, bool_decide (p_userId q = userId) && p_isActive q)
            (<[i := mark false d p]> ps) = None.
Proof.
  intros Hnodup Hfind. unfold findIndex in Hfind.
  apply list_find_Some in Hfind as (Hi & Hp & _).
  destruct (List.find _ _) as [q|] eqn:Hq; [|done]. exfalso.
  apply List.find_some in Hq as [Hin Hq].
  apply andb_true_iff in Hq as [Hid%bool_decide_eq_true Hact].
  apply list_elem_of_In, list_elem_of_lookup in Hin as [j Hj].
  destruct (decide (j = i)) as [->|Hne].
  - rewrite list_lookup_insert_eq in Hj by by eapply lookup_lt_Some.
    by simplify_eq.
  - rewrite list_lookup_insert_ne in Hj by done.
    apply Hne. eapply (NoDup_lookup _ _ _ userId); [done| |].
    + rewrite list_lookup_fmap, Hj. cbn. congruence.
    + rewrite list_lookup_fmap, Hi. cbn. congruence.
Qed.

(** X9. The query of [isUserInRoom] asks for a room with an entry of the
    user and with an active entry, not for an active entry of the user:
    after a user has left a room in which somebody else is still active,
    [isUserInRoom] keeps answering true for that user, while
    [getUserRoleInRoom] answers null. *)
Theorem isUserInRoom_after_leave roomName userId w room saved w1 other :
  Rooms w !! roomName = Some room → r_name room = roomName →
  r_isActive room = true → unique_participants room →
  has_participant userId room = true →
  other ∈ r_participants room → p_userId other ≠ userId →
  p_isActive other = true →
  leaveRoom roomName userId w = (Ok (Some saved), w1) →
  ∀ w2, Rooms w2 = Rooms w1 → (∀ e, ¬ store_fails w2 e) →
    (isUserInRoom roomName userId w2).1 = Ok true ∧
    (getUserRoleInRoom roomName userId w2).1 = Ok None.
Proof.
  intros Hroom Hname Hact Huniq Hhas Hother Hne Hotheract Hleave w2 Henv Hok.
  pose proof (wp_run _ _ _ _ _ Hleave (leaveRoom_spec _ _ _)) as [_ Hl].
  cbv beta iota in Hl. destruct Hl as (room' & Hroom' & HR1 & Hsaved).
  rewrite Hroom in Hroom'. injection Hroom' as <-.
  rewrite Hname in HR1.
  apply has_participant_elem_of in Hhas as (p0 & Hp0 & Hp0id).
  destruct (findIndex userId (r_participants room)) as [[i p]|] eqn:Hfind; last first.
  { unfold findIndex in Hfind. apply list_find_None in Hfind.
    rewrite Forall_forall in Hfind. by destruct (Hfind p0 Hp0). }
  assert (Rooms w2 !! roomName = Some saved) as Hroom2.
  { rewrite Henv, HR1. apply lookup_insert_eq. }
  assert (r_participants room !! i = Some p ∧ p_userId p = userId) as [Hi Hpid].
  { unfold findIndex in Hfind. by apply list_find_Some in Hfind as (? & ? & _). }
  split.
  - rewrite isUserInRoom_answer, Hroom2 by done. f_equal. subst saved.
    cbn -[has_participant has_active_participant].
    rewrite Hact. cbn -[has_participant has_active_participant].
    apply andb_true_iff. split.
    + apply has_participant_elem_of. exists (mark false (clock w) p). split; [|done].
      cbn. apply list_elem_of_lookup. exists i. apply list_lookup_insert_eq.
      by eapply lookup_lt_Some.
    + apply has_active_participant_elem_of. exists other. split; [|done].
      cbn. apply list_elem_of_lookup in Hother as [j Hj].
      apply list_elem_of_lookup. exists j. rewrite list_lookup_insert_ne; [done|].
      intros ->. congruence.
  - rewrite getUserRoleInRoom_answer, Hroom2 by done. f_equal. subst saved. cbn.
    rewrite Hact. by erewrite find_active_mark_false.
Qed.

Lemma isUserInRoom_after_leave_witness :
  (isUserInRoom "duo" "u2" (exec (leaveRoom "duo" "u2") w_duo_bob)).1 = Ok true ∧
  (getUserRoleInRoom "duo" "u2" (exec (leaveRoom "duo" "u2") w_duo_bob)).1 = Ok None.
Proof.
  eassert (Rooms w_duo_bob !! "duo" = Some _) as Hroom by (vm_compute; reflexivity).
  eassert (leaveRoom "duo" "u2" w_duo_bob = (Ok (Some _), _)) as Hleave
    by (vm_compute; reflexivity).
  eapply (isUserInRoom_after_leave "duo" "u2" w_duo_bob _ _ _ _ Hroom);
    [done|done| |done| | | |exact Hleave|done|].
  - unfold unique_participants. apply (bool_decide_unpack _). by vm_compute.
  - apply list_elem_of_lookup. exists 0%nat. cbn. reflexivity.
  - by vm_compute.
  - done.
  - intros e [o Ho]. by vm_compute in Ho.
Defined.

Lemma getUserRoleInRoom_spec roomName userId w :
  wp (getUserRoleInRoom roomName userId) w (λ res w',
    match res with
    | Ok (Some role) =>
        ∃ room p, Rooms w !! roomName = Some room ∧ r_isActive room = true ∧
          p ∈ r_participants room ∧ p_userId p = userId ∧
          p_isActive p = true ∧ p_role p = role
    | _ => True
    end).
Proof.
  unfold getUserRoleInRoom, Room_findOne_active. wp_steps; try done.
  destruct (Rooms w !! roomName) as [room|] eqn:Hroom; cbn; [|by wp_steps].
  destruct (r_isActive room) eqn:Hact; cbn; wp_steps; [|done].
  destruct (List.find _ _) as [p|] eqn:Hp; cbn; [|done].
  apply List.find_some in Hp as [Hin Hp].
  apply andb_true_iff in Hp as [Hid%bool_decide_eq_true Hpact].
  exists room, p. split_and!; try done. by apply list_elem_of_In.
Qed.

(** X10. A role reported by [getUserRoleInRoom] implies membership as
    [isUserInRoom] sees it: when the former answers with a role, the
    latter answers true for the same room and user. *)
Theorem role_implies_isUserInRoom roomName userId w role w1 w2 :
  getUserRoleInRoom roomName userId w = (Ok (Some role), w1) →
  Rooms w2 = Rooms w → (∀ e, ¬ store_fails w2 e) →
  (isUserInRoom roomName userId w2).1 = Ok true.
Proof.
  intros Hrun Henv Hok.
  pose proof (wp_run _ _ _ _ _ Hrun (getUserRoleInRoom_spec _ _ _)) as Hspec.
  cbv beta iota in Hspec.
  destruct Hspec as (room & p & Hroom & Hact & Hp & Hid & Hpact & _).
  rewrite isUserInRoom_answer, Henv, Hroom by done. f_equal.
  rewrite Hact. cbn -[has_participant has_active_participant].
  apply andb_true_iff. split.
  - apply has_participant_elem_of. by exists p.
  - apply has_active_participant_elem_of. by exists p.
Qed.

Lemma role_implies_isUserInRoom_witness :
  (isUserInRoom "duo" "u2" w_duo_bob).1 = Ok true.
Proof.
  eassert (getUserRoleInRoom "duo" "u2" w_duo_bob = (Ok (Some member), _)) as Hrun
    by (vm_compute; reflexivity).
  apply (role_implies_isUserInRoom "duo" "u2" w_duo_bob member _ _ Hrun eq_refl).
  intros e [o Ho]. by vm_compute in Ho.
Defined.

(** ** The rooms of a user *)

Global Instance more_recent_trans : Transitive more_recent.
Proof. unfold more_recent. intros a b c. lia. Qed.

Global Instance more_recent_total : Total more_recent.
Proof. unfold more_recent. intros a b. lia. Qed.

Lemma NoDup_fmap_filter {A B} (f : A → bool) (g : A → B) (l : list A) :
  NoDup (g <$> l) → NoDup (g <$> List.filter f l).
Proof.
  induction l as [|x l IH]; [done|]. cbn. intros [Hx Hl]%NoDup_cons.
  destruct (f x); cbn; [|by apply IH].
  apply NoDup_cons. split; [|by apply IH].
  intros (y & Hxy & Hy)%list_elem_of_fmap. apply filter_elem_of in Hy as [Hy _].
  apply Hx, list_elem_of_fmap. by exists y.
Qed.

Lemma Room_documents_elem_of w room :
  room ∈ Room_documents w ↔ ∃ name, Rooms w !! name = Some room.
Proof.
  unfold Room_documents. rewrite list_elem_of_fmap. split.
  - intros ([name room'] & -> & Hin). exists name. by apply elem_of_map_to_list.
  - intros [name Hroom]. exists (name, room). split; [done|].
    by apply elem_of_map_to_list.
Qed.

Lemma Room_documents_names w :
  keyed_by_name (Rooms w) → r_name <$> Room_documents w = (map_to_list (Rooms w)).*1.
Proof.
  intros Hkeyed. unfold Room_documents. rewrite <- list_fmap_compose.
  apply list_fmap_ext. intros i [name room] Hi. cbn.
  apply (Hkeyed name room). apply elem_of_map_to_list.
  apply list_elem_of_lookup. by exists i.
Qed.

Lemma getUserRooms_spec userId w :
  wp (getUserRooms userId) w (λ res w',
    (∃ o, w' = set_oracle o w) ∧
    match res with
    | Ok rooms =>
        rooms = merge_sort more_recent
                  (List.filter (λ room, has_participant userId room
                                        && has_active_participant room
                                        && r_isActive room)
                               (Room_documents w))
    | Throw _ => ∃ e, store_fails w e
    end).
Proof.
  unfold getUserRooms, Room_find. wp_steps.
  - split; [by exists o|done].
  - split; [by exists o|]. exists e. by exists o.
Qed.

(** X11. [getUserRooms] and [isUserInRoom] agree: the rooms that
    [getUserRooms] lists for a user, each once and the most recently
    active first, are exactly the rooms for which [isUserInRoom] answers
    true.  Every room is stored under its name. *)
Theorem getUserRooms_lists_isUserInRoom userId w rooms w1 :
  keyed_by_name (Rooms w) →
  getUserRooms userId w = (Ok rooms, w1) →
  StronglySorted more_recent rooms ∧
  NoDup (r_name <$> rooms) ∧
  ∀ roomName w2, Rooms w2 = Rooms w → (∀ e, ¬ store_fails w2 e) →
    (isUserInRoom roomName userId w2).1
    = Ok (bool_decide (roomName ∈ r_name <$> rooms)).
Proof.
  intros Hkeyed Hrun.
  pose proof (wp_run _ _ _ _ _ Hrun (getUserRooms_spec _ _)) as [_ ->].
  split_and!.
  - apply StronglySorted_merge_sort; apply _.
  - rewrite merge_sort_Permutation. apply NoDup_fmap_filter.
    rewrite Room_documents_names by done. apply NoDup_fst_map_to_list.
  - intros roomName w2 Henv Hok.
    rewrite isUserInRoom_answer, Henv by done. f_equal.
    set (f := λ room, has_participant userId room && has_active_participant room
                      && r_isActive room).
    assert (roomName ∈ r_name <$> merge_sort more_recent
                                    (List.filter f (Room_documents w))
            ↔ ∃ room, Rooms w !! roomName = Some room ∧ f room = true) as Hiff.
    { rewrite merge_sort_Permutation, list_elem_of_fmap. split.
      - intros (room & -> & Hin). apply filter_elem_of in Hin as [Hin Hf].
        apply Room_documents_elem_of in Hin as [name Hroom].
        exists room. split; [|done].
        by rewrite (Hkeyed name room Hroom).
      - intros (room & Hroom & Hf). exists room.
        split; [symmetry; by apply (Hkeyed roomName room)|].
        apply filter_elem_of. split; [|done].
        apply Room_documents_elem_of. by exists roomName. }
    symmetry. case_bool_decide as Hin.
    + apply Hiff in Hin as (room & -> & Hf). unfold f in Hf.
      by destruct (r_isActive room), (has_participant userId room),
           (has_active_participant room).
    + destruct (Rooms w !! roomName) as [room|] eqn:Hroom; [|done].
      destruct (r_isActive room && _ && _) eqn:Hf; [|done].
      destruct Hin. apply Hiff. exists room. split; [done|]. unfold f.
      by destruct (r_isActive room), (has_participant userId room),
           (has_active_participant room).
Qed.

Lemma getUserRooms_lists_isUserInRoom_witness :
  (isUserInRoom "duo" "u2" w_duo_bob).1 = Ok true ∧
  (isUserInRoom "vip" "u2" w_duo_bob).1 = Ok false.
Proof.
  eassert (getUserRooms "u2" w_duo_bob = (Ok _, _)) as Hrun
    by (vm_compute; reflexivity).
  assert (keyed_by_name (Rooms w_duo_bob)) as Hkeyed.
  { apply (bool_decide_unpack _). by vm_compute. }
  pose proof (getUserRooms_lists_isUserInRoom _ _ _ _ Hkeyed Hrun) as (_ & _ & Hin).
  split.
  - rewrite (Hin "duo" w_duo_bob eq_refl); [by vm_compute|].
    intros e [o Ho]. by vm_compute in Ho.
  - rewrite (Hin "vip" w_duo_bob eq_refl); [by vm_compute|].
    intros e [o Ho]. by vm_compute in Ho.
Defined.
End RoomService_queries.

(* ===================================================================== *)
(** * MessageService: pages, edits and what a message needs *)
(* ===================================================================== *)

Section MessageService_more.
Import MessageService.

Lemma StronglySorted_take {A} (R : relation A) n (l : list A) :
  StronglySorted R l → StronglySorted R (take n l).
Proof.
  intros Hl. rewrite <- (take_drop n l) in Hl. by apply StronglySorted_app_1_l in Hl.
Qed.

Lemma StronglySorted_drop {A} (R : relation A) n (l : list A) :
  StronglySorted R l → StronglySorted R (drop n l).
Proof.
  intros Hl. rewrite <- (take_drop n l) in Hl. by apply StronglySorted_app_1_r in Hl.
Qed.

Lemma StronglySorted_reverse {A} (R : relation A) (l : list A) :
  StronglySorted R l → StronglySorted (flip R) (reverse l).
Proof.
  induction 1 as [|x l Hl IH Hx]; [constructor|].
  rewrite reverse_cons. apply StronglySorted_app_2; [|done|repeat constructor].
  intros y z Hy ->%list_elem_of_singleton. unfold flip.
  rewrite elem_of_reverse in Hy. rewrite Forall_forall in Hx. by apply Hx.
Qed.

Global Instance not_older_trans : Transitive not_older.
Proof. unfold not_older. intros a b c. lia. Qed.

Global Instance not_older_total : Total not_older.
Proof. unfold not_older. intros a b. lia. Qed.

Lemma getMessages_page_spec filter w :
  wp (getMessages filter) w (λ res w',
    match res with
    | Ok page =>
        page = {| pg_messages :=
                    reverse (take (or_nat (f_limit filter) 50)
                               (drop (or_nat (f_skip filter) 0)
                                  (newest_first (matching filter w))));
                  pg_total := length (matching filter w);
                  pg_hasMore :=
                    bool_decide (or_nat (f_skip filter) 0 + or_nat (f_limit filter) 50
                                 < length (matching filter w))%nat |}
    | Throw _ => True
    end).
Proof. unfold getMessages, matching. by wp_steps. Qed.

Lemma or_nat_pos o d : (0 < d)%nat → (0 < or_nat o d)%nat.
Proof. unfold or_nat. intros Hd. destruct o as [n|]; [|done]. case_decide; lia. Qed.

Lemma or_nat_Some_pos n d : (0 < n)%nat → or_nat (Some n) d = n.
Proof. unfold or_nat. intros Hn. case_decide; [lia|done]. Qed.

Lemma or_nat_Some_0 n : or_nat (Some n) 0 = n.
Proof. unfold or_nat. by case_decide. Qed.

(** X12. A page of [getMessages]: [total] counts all the messages that
    match the filter; the page holds [limit] of them, or as many as are
    left after [skip], in chronological order; and [hasMore] tells that
    older messages are left, in which case the page is full.  The limit
    is never 0: an absent limit, or 0, stands for 50. *)
Theorem getMessages_page filter w page w' :
  getMessages filter w = (Ok page, w') →
  let limit := or_nat (f_limit filter) 50 in
  let skip := or_nat (f_skip filter) 0 in
  (0 < limit)%nat ∧
  pg_total page = length (matching filter w) ∧
  length (pg_messages page) = (limit `min` (pg_total page - skip))%nat ∧
  (pg_hasMore page = true ↔ (skip + limit < pg_total page)%nat) ∧
  (pg_hasMore page = true → length (pg_messages page) = limit) ∧
  StronglySorted (λ a b, m_timestamp a ≤ m_timestamp b) (pg_messages page).
Proof.
  intros Hrun limit skip.
  pose proof (wp_run _ _ _ _ _ Hrun (getMessages_page_spec _ _)) as Hspec.
  cbv beta iota in Hspec. subst page. cbn [pg_messages pg_total pg_hasMore].
  fold limit skip.
  assert (length (reverse (take limit (drop skip (newest_first (matching filter w)))))
          = (limit `min` (length (matching filter w) - skip))%nat) as Hlen.
  { rewrite length_reverse, length_take, length_drop. unfold newest_first.
    by rewrite merge_sort_Permutation. }
  split_and!.
  - apply or_nat_pos. lia.
  - done.
  - done.
  - by rewrite bool_decide_eq_true.
  - rewrite bool_decide_eq_true, Hlen. lia.
  - apply (StronglySorted_reverse not_older), StronglySorted_take, StronglySorted_drop.
    unfold newest_first. apply StronglySorted_merge_sort; apply _.
Qed.

Lemma getMessages_page_witness :
  ∃ page, (getMessages any_message w_answered).1 = Ok page ∧
          length (pg_messages page) = 2%nat ∧ pg_hasMore page = false.
Proof.
  eassert (getMessages any_message w_answered = (Ok _, _)) as Hrun
    by (vm_compute; reflexivity).
  pose proof (getMessages_page _ _ _ _ Hrun) as (_ & Htotal & Hlen & _).
  eexists. split; [by rewrite Hrun|]. split; [|by vm_compute].
  rewrite Hlen, Htotal. by vm_compute.
Defined.

Lemma matching_page_of filter limit skip w w' :
  Messages w' = Messages w → matching (page_of filter limit skip) w' = matching filter w.
Proof. unfold matching. by intros ->. Qed.

(** X13. Two consecutive pages of [getMessages] make up the page of
    twice the size: the older page followed by the newer one.  The
    Message collection is the same for the three calls. *)
Theorem getMessages_pages_concat filter limit skip w wa wb newer older both w1 w2 w3 :
  (0 < limit)%nat →
  Messages wa = Messages w → Messages wb = Messages w →
  getMessages (page_of filter limit skip) w = (Ok newer, w1) →
  getMessages (page_of filter limit (skip + limit)) wa = (Ok older, w2) →
  getMessages (page_of filter (limit + limit) skip) wb = (Ok both, w3) →
  pg_messages both = pg_messages older ++ pg_messages newer.
Proof.
  intros Hlimit Ha Hb Hnewer Holder Hboth.
  pose proof (wp_run _ _ _ _ _ Hnewer (getMessages_page_spec _ _)) as H1.
  pose proof (wp_run _ _ _ _ _ Holder (getMessages_page_spec _ _)) as H2.
  pose proof (wp_run _ _ _ _ _ Hboth (getMessages_page_spec _ _)) as H3.
  cbv beta iota in H1, H2, H3. subst newer older both. cbn [pg_messages].
  rewrite (matching_page_of _ _ _ w wa), (matching_page_of _ _ _ w wb) by done.
  rewrite (matching_page_of _ _ _ w w) by done.
  cbn [f_limit f_skip page_of].
  rewrite !or_nat_Some_0, !or_nat_Some_pos by lia.
  rewrite <- reverse_app. f_equal.
  rewrite <- take_take_drop, drop_drop. done.
Qed.

Lemma getMessages_pages_concat_witness :
  ∃ newer older both,
    (getMessages (page_of any_message 1 0) w_answered).1 = Ok newer ∧
    (getMessages (page_of any_message 1 1) w_answered).1 = Ok older ∧
    (getMessages (page_of any_message 2 0) w_answered).1 = Ok both ∧
    pg_messages both = pg_messages older ++ pg_messages newer ∧
    length (pg_messages both) = 2%nat.
Proof.
  eassert (getMessages (page_of any_message 1 0) w_answered = (Ok _, _)) as H1
    by (vm_compute; reflexivity).
  eassert (getMessages (page_of any_message 1 (0 + 1)) w_answered = (Ok _, _)) as H2
    by (vm_compute; reflexivity).
  eassert (getMessages (page_of any_message (1 + 1) 0) w_answered = (Ok _, _)) as H3
    by (vm_compute; reflexivity).
  pose proof (getMessages_pages_concat any_message 1 0 w_answered w_answered w_answered
                _ _ _ _ _ _ ltac:(lia) eq_refl eq_refl H1 H2 H3) as Hcat.
  do 3 eexists. split_and!.
  - by rewrite H1.
  - change 1%nat with (0 + 1)%nat at 2. by rewrite H2.
  - change 2%nat with (1 + 1)%nat. by rewrite H3.
  - exact Hcat.
  - by vm_compute.
Defined.

(** ** Editing and deleting *)

Lemma editMessage_spec messageId newContent userId w :
  wp (editMessage messageId newContent userId) w (λ res w',
    same_but_Messages w w' ∧
    match res with
    | Ok (Some edited) =>
        ∃ i m, Messages w !! i = Some m ∧ own_message messageId userId m ∧
               edited = with_content newContent true (Some (clock w)) m ∧
               Messages w' = <[i := edited]> (Messages w)
    | Ok None =>
        Messages w' = Messages w ∧
        Forall (λ m, ¬ own_message messageId userId m) (Messages w)
    | Throw e => Messages w' = Messages w ∧ ∃ e0, store_fails w e0
    end).
Proof.
  unfold editMessage. wp_step. wp_step. wp_step.
  wp_use Message_findOneAndUpdate_spec.
  destruct H as [Hframe Hres]. destruct r as [[[old new]|]|e]; wp_steps.
  - destruct Hres as (i & Hfind & -> & Hmsgs).
    apply list_find_Some in Hfind as (Hi & Hown & _).
    split; [done|]. by exists i, old.
  - destruct Hres as [Hfind Hmsgs]. split; [done|]. split; [done|].
    by apply list_find_None in Hfind.
  - destruct Hres as [Hmsgs Hfail]. split; [done|]. split; [done|]. by exists e.
Qed.



Lemma editMessage_none messageId newContent userId w :
  Forall (λ m, ¬ own_message messageId userId m) (Messages w) →
  (∀ e, ¬ store_fails w e) →
  (editMessage messageId newContent userId w).1 = Ok None ∧
  Messages (exec (editMessage messageId newContent userId) w) = Messages w.
Proof.
  intros Hnone Hok.
  change (wp (editMessage messageId newContent userId) w
            (λ res w', res = Ok None ∧ Messages w' = Messages w)).
  eapply wp_mono; [apply editMessage_spec|]. cbv beta.
  intros [[edited|]|e] w' [_ Hspec].
  - destruct Hspec as (i & m & Hi & Hown & _). rewrite Forall_forall in Hnone.
    destruct (Hnone m); [|done]. apply list_elem_of_lookup. by exists i.
  - by destruct Hspec.
  - destruct Hspec as [_ [e0 Hfail]]. by destruct (Hok e0).
Qed.

Lemma deleteMessage_none messageId userId w :
  Forall (λ m, ¬ own_message messageId userId m) (Messages w) →
  (∀ e, ¬ store_fails w e) →
  (deleteMessage messageId userId w).1 = Ok false ∧
  Messages (exec (deleteMessage messageId userId) w) = Messages w.
Proof.
  intros Hnone Hok.
  change (wp (deleteMessage messageId userId) w
            (λ res w', res = Ok false ∧ Messages w' = Messages w)).
  unfold deleteMessage. wp_step. wp_step. wp_step.
  wp_use Message_findOneAndUpdate_spec.
  destruct H as [Hframe Hres]. destruct r as [[[old new]|]|e]; wp_steps.
  - destruct Hres as (i & Hfind & _). exfalso.
    apply list_find_Some in Hfind as (Hi & Hown & _).
    rewrite Forall_forall in Hnone. destruct (Hnone old); [|done].
    apply list_elem_of_lookup. by exists i.
  - by destruct Hres.
  - destruct Hres as [_ Hfail]. by destruct (Hok e).
Qed.

(** X15. A deletion is final.  Once [deleteMessage] has answered true
    for a message, and as long as the Message collection is not changed
    otherwise, the message is stored as deleted with the placeholder as
    its content, [editMessage] answers null for it and [deleteMessage]
    answers false, whoever calls, and neither changes the collection.
    Message identifiers are unique. *)
Theorem deletion_is_final messageId userId w w1 :
  NoDup (m_id <$> Messages w) →
  deleteMessage messageId userId w = (Ok true, w1) →
  (∃ m, m ∈ Messages w1 ∧ m_id m = messageId ∧ m_isDeleted m = true ∧
        m_content m = "[Message deleted]") ∧
  ∀ w2 caller newContent,
    Messages w2 = Messages w1 → (∀ e, ¬ store_fails w2 e) →
    ((editMessage messageId newContent caller w2).1 = Ok None ∧
     Messages (exec (editMessage messageId newContent caller) w2) = Messages w2) ∧
    ((deleteMessage messageId caller w2).1 = Ok false ∧
     Messages (exec (deleteMessage messageId caller) w2) = Messages w2).
Proof.
  intros Hnodup Hrun.
  pose proof (wp_run _ _ _ _ _ Hrun (deleteMessage_spec _ _ _)) as [_ Hspec].
  cbv beta iota in Hspec. destruct Hspec as (i & m & Hi & Hown & HM1).
  apply lookup_lt_Some in Hi as Hlt. destruct Hown as (Hid & _ & _).
  assert (∀ caller, Forall (λ m', ¬ own_message messageId caller m') (Messages w1))
    as Hnone.
  { intros caller. apply Forall_forall. intros m' Hm' (Hid' & _ & Hdel').
    rewrite HM1 in Hm'. apply list_elem_of_lookup in Hm' as [j Hj].
    destruct (decide (j = i)) as [->|Hne].
    - rewrite list_lookup_insert_eq in Hj by done. by simplify_eq.
    - rewrite list_lookup_insert_ne in Hj by done.
      apply Hne. eapply (NoDup_lookup _ _ _ messageId); [done| |].
      + by rewrite list_lookup_fmap, Hj; cbn; rewrite Hid'.
      + by rewrite list_lookup_fmap, Hi; cbn; rewrite Hid. }
  split.
  - eexists. split_and!.
    + rewrite HM1. apply list_elem_of_lookup. exists i.
      by apply list_lookup_insert_eq.
    + done.
    + done.
    + done.
  - intros w2 caller newContent Henv Hok. split.
    + apply editMessage_none; [|done]. rewrite Henv. apply Hnone.
    + apply deleteMessage_none; [|done]. rewrite Henv. apply Hnone.
Qed.

Lemma deletion_is_final_witness :
  (editMessage "0" "again" "u1" w_deleted).1 = Ok None ∧
  (deleteMessage "0" "u1" w_deleted).1 = Ok false.
Proof.
  eassert (deleteMessage "0" "u1" w_answered = (Ok true, _)) as Hrun
    by (vm_compute; reflexivity).
  assert (NoDup (m_id <$> Messages w_answered)) as Hnodup.
  { apply (bool_decide_unpack _). by vm_compute. }
  pose proof (deletion_is_final _ _ _ _ Hnodup Hrun) as [_ Hfinal].
  destruct (Hfinal w_deleted "u1" "again") as [[Hedit _] [Hdel _]].
  - done.
  - intros e [o Ho]. by vm_compute in Ho.
  - done.
Defined.

(** ** What a message needs *)

(** X16. [createMessage] never consults the Room collection: whether
    the room of the message exists, is active or lists the sender makes
    no difference to its answer, to the stored message or to the event it
    sends.  A message for a room that does not exist is stored and
    announced like any other, and no room is created for it. *)
Theorem createMessage_ignores_rooms data w rooms :
  (createMessage data (set_Rooms (λ _, rooms) w)).1 = (createMessage data w).1 ∧
  Messages (exec (createMessage data) (set_Rooms (λ _, rooms) w))
    = Messages (exec (createMessage data) w) ∧
  emitted (exec (createMessage data) (set_Rooms (λ _, rooms) w))
    = emitted (exec (createMessage data) w) ∧
  (∀ room, cm_room data = Some room → Rooms w !! room = None →
     Rooms (exec (createMessage data) w) = Rooms w).
Proof.
  unfold exec, createMessage, new_ObjectId, Message_save, Room_countMessage,
    SocketService.sendToRoom, try_catch, mbind, M_bind, mret, M_ret, new_Date,
    gets, modify, store_call, throw, emit.
  cbn.
  destruct (oracle w) as [|[e|] [|[e'|] o]] eqn:Ho; cbn;
    destruct (truthy (cm_room data)) as [room'|] eqn:Hroom; cbn;
    rewrite ?Ho; cbn; (split_and!; [done|done|done|]);
    intros room Hdata Hnone; try done;
    rewrite Hdata in Hroom; cbn in Hroom;
    try (case_decide; [done|]); simplify_eq;
    by apply alter_id'.
Qed.
End MessageService_more.

(* ===================================================================== *)
(** * SocketService: the membership index and the broadcasts *)
(* ===================================================================== *)

Section forEach_rule.
Context {A : Type}.

Lemma wp_forEach_from (f : A → M unit) (I : list A → World → Prop) l pre w Q :
  I pre w →
  (∀ done x w1, I done w1 →
     wp (f x) w1 (λ r w2, r = Ok tt ∧ I (done ++ [x]) w2)) →
  (∀ w', I (pre ++ l) w' → Q (Ok tt) w') →
  wp (forEach f l) w Q.
Proof.
  revert pre w. induction l as [|x l IH]; intros pre w Hpre Hstep Hpost; cbn.
  - apply wp_ret, Hpost. by rewrite app_nil_r.
  - apply wp_bind. eapply wp_mono; [by apply Hstep|]. cbv beta.
    intros r w2 [-> Hx]. eapply (IH (pre ++ [x])); [done|done|].
    intros w' Hw'. apply Hpost. by rewrite <- app_assoc in Hw'.
Qed.

(** A loop whose body never throws establishes its invariant for the
    whole list. *)
Lemma wp_forEach (f : A → M unit) (I : list A → World → Prop) l w Q :
  I [] w →
  (∀ done x w1, I done w1 →
     wp (f x) w1 (λ r w2, r = Ok tt ∧ I (done ++ [x]) w2)) →
  (∀ w', I l w' → Q (Ok tt) w') →
  wp (forEach f l) w Q.
Proof. intros. by eapply (wp_forEach_from f I l []). Qed.
End forEach_rule.

Section JsMap_more.
Context {V : Type}.
Implicit Types (m : list (string * V)).

Lemma Map_delete_set k v m : Map_delete k (Map_set k v m) = Map_delete k m.
Proof.
  induction m as [|[k0 v0] m IH]; cbn.
  - by rewrite decide_True.
  - destruct (decide (k0 = k)) as [->|Hne]; cbn.
    + by rewrite decide_True.
    + rewrite decide_False by done. by rewrite IH.
Qed.

Lemma Map_delete_absent k m : k ∉ m.*1 → Map_delete k m = m.
Proof.
  induction m as [|[k0 v0] m IH]; cbn; [done|].
  intros [Hne Hk]%not_elem_of_cons. rewrite decide_False by done.
  by rewrite IH.
Qed.

Lemma Map_delete_sublist k m : Map_delete k m `sublist_of` m.
Proof.
  induction m as [|[k0 v0] m IH]; cbn; [done|].
  destruct (decide (k0 = k)); [by apply sublist_cons|by apply sublist_skip].
Qed.

Lemma Map_delete_NoDup k m : NoDup m.*1 → NoDup (Map_delete k m).*1.
Proof.
  intros Hm. eapply sublist_NoDup; [done|]. apply fmap_sublist, Map_delete_sublist.
Qed.

Lemma Map_delete_Forall (P : string * V → Prop) k m :
  Forall P m → Forall P (Map_delete k m).
Proof.
  induction 1 as [|[k0 v0] m Hx Hm IH]; cbn; [done|].
  destruct (decide (k0 = k)); [done|by constructor].
Qed.

Lemma Map_get_delete k m : NoDup m.*1 → Map_get k (Map_delete k m) = None.
Proof.
  induction m as [|[k0 v0] m IH]; cbn; [done|].
  intros [Hk0 Hm]%NoDup_cons. destruct (decide (k0 = k)) as [->|Hne]; cbn.
  - by apply Map_get_None.
  - rewrite decide_False by done. by apply IH.
Qed.

Lemma Map_get_delete_ne k k' m : k ≠ k' → Map_get k' (Map_delete k m) = Map_get k' m.
Proof.
  intros Hne. induction m as [|[k0 v0] m IH]; cbn; [done|].
  destruct (decide (k0 = k)) as [->|Hne0]; cbn.
  - by rewrite decide_False.
  - by rewrite IH.
Qed.

Lemma Map_set_Forall (P : string * V → Prop) k v m :
  P (k, v) → Forall P m → Forall P (Map_set k v m).
Proof.
  intros Hv. induction 1 as [|[k0 v0] m Hx Hm IH]; cbn.
  - by apply Forall_singleton.
  - destruct (decide (k0 = k)); constructor; done.
Qed.

Lemma Map_set_get_id k v m : Map_get k m = Some v → Map_set k v m = m.
Proof.
  induction m as [|[k0 v0] m IH]; cbn; [done|].
  destruct (decide (k0 = k)) as [->|Hne]; [by intros [= ->]|].
  intros Hget. by rewrite IH.
Qed.

Lemma Map_set_absent k v m : Map_get k m = None → Map_set k v m = m ++ [(k, v)].
Proof.
  induction m as [|[k0 v0] m IH]; cbn; [done|].
  destruct (decide (k0 = k)) as [->|Hne]; [done|].
  intros Hget. by rewrite IH.
Qed.

Lemma Map_get_Forall (P : string * V → Prop) k v m :
  Forall P m → Map_get k m = Some v → P (k, v).
Proof.
  induction 1 as [|[k0 v0] m Hx Hm IH]; cbn; [done|].
  destruct (decide (k0 = k)) as [->|Hne]; [by intros [= ->]|done].
Qed.
End JsMap_more.

Section Set_more.
Lemma Set_delete_elem_of x y s : y ∈ Set_delete x s ↔ y ≠ x ∧ y ∈ s.
Proof.
  unfold Set_delete. rewrite !list_elem_of_In, List.filter_In, negb_true_iff.
  rewrite bool_decide_eq_false. tauto.
Qed.

Lemma Set_delete_NoDup x s : NoDup s → NoDup (Set_delete x s).
Proof.
  unfold Set_delete. induction 1 as [|y s Hy Hs IH]; cbn; [constructor|].
  destruct (negb _); [|done]. constructor; [|done].
  rewrite list_elem_of_In, List.filter_In, <- list_elem_of_In. tauto.
Qed.

Lemma Set_delete_absent x s : x ∉ s → Set_delete x s = s.
Proof.
  unfold Set_delete. induction s as [|y s IH]; cbn; [done|].
  intros [Hne Hx]%not_elem_of_cons.
  rewrite bool_decide_eq_false_2 by done. cbn. by rewrite IH.
Qed.

Lemma Set_delete_add x s : x ∉ s → Set_delete x (Set_add x s) = s.
Proof.
  intros Hx. unfold Set_add, Set_has. rewrite bool_decide_eq_false_2 by done.
  unfold Set_delete. rewrite List.filter_app. cbn.
  rewrite bool_decide_eq_true_2 by done. cbn. rewrite app_nil_r.
  by apply Set_delete_absent.
Qed.

Lemma Set_add_not_nil x s : Set_add x s ≠ [].
Proof.
  unfold Set_add, Set_has. case_bool_decide as Hx.
  - intros ->. by apply elem_of_nil in Hx.
  - by destruct s.
Qed.
End Set_more.

Section membership_index.
Import SocketService.

Lemma addUserToRoom_index userId room w :
  userRoomMemberships (exec (addUserToRoom userId room) w)
  = Map_set userId (Set_add room (subscriptions userId w)) (userRoomMemberships w).
Proof. unfold exec, addUserToRoom, subscriptions. cbn. apply collect_room_step. Qed.

Lemma removeUserFromRoom_index userId room w :
  userRoomMemberships (exec (removeUserFromRoom userId room) w)
  = match Map_get userId (userRoomMemberships w) with
    | Some userRooms =>
        if decide (Set_delete room userRooms = [])
        then Map_delete userId (userRoomMemberships w)
        else Map_set userId (Set_delete room userRooms) (userRoomMemberships w)
    | None => userRoomMemberships w
    end.
Proof.
  unfold exec, removeUserFromRoom. cbn.
  destruct (Map_get userId (userRoomMemberships w)) as [userRooms|]; [|done].
  destruct (decide (length _ = 0%nat)) as [Hlen|Hlen].
  - apply length_zero_iff_nil in Hlen as Hnil. rewrite decide_True by done.
    apply Map_delete_set.
  - rewrite decide_False; [done|]. intros Hnil. by rewrite Hnil in Hlen.
Qed.

Lemma getUserRooms_subscriptions userId w :
  getUserRooms userId w = (Ok (subscriptions userId w), w).
Proof. done. Qed.

(** X17. The Membership Index keeps its shape: [addUserToRoom],
    [removeUserFromRoom] and [cleanupUserMemberships] leave an index that
    lists each user once, with a set of rooms that has no duplicate and
    is never empty.  Hence [getUserRooms] answers the empty list exactly
    for the users the index does not list. *)
Theorem membership_index_invariant userId room w :
  index_ok (userRoomMemberships w) →
  index_ok (userRoomMemberships (exec (addUserToRoom userId room) w)) ∧
  index_ok (userRoomMemberships (exec (removeUserFromRoom userId room) w)) ∧
  index_ok (userRoomMemberships (exec (cleanupUserMemberships userId) w)) ∧
  ∀ user, (getUserRooms user w).1 = Ok [] ↔ user ∉ (userRoomMemberships w).*1.
Proof.
  intros [Hkeys Hsets]. split_and!.
  - rewrite addUserToRoom_index. split; [by apply Map_set_NoDup|].
    apply Map_set_Forall; [|done]. cbn. split; [apply Set_add_not_nil|].
    apply Set_add_NoDup. unfold subscriptions.
    destruct (Map_get userId _) as [rooms|] eqn:Hget; cbn; [|constructor].
    by apply (Map_get_Forall _ _ _ _ Hsets Hget).
  - rewrite removeUserFromRoom_index.
    destruct (Map_get userId _) as [rooms|] eqn:Hget; [|done].
    case_decide as Hnil.
    + split; [by apply Map_delete_NoDup|by apply Map_delete_Forall].
    + split; [by apply Map_set_NoDup|].
      apply Map_set_Forall; [|done]. cbn. split; [done|].
      apply Set_delete_NoDup. by apply (Map_get_Forall _ _ _ _ Hsets Hget).
  - unfold exec, cleanupUserMemberships. cbn.
    split; [by apply Map_delete_NoDup|by apply Map_delete_Forall].
  - intros user. rewrite getUserRooms_subscriptions. cbn. unfold subscriptions.
    rewrite <- Map_get_None.
    destruct (Map_get user _) as [rooms|] eqn:Hget; cbn; [|done].
    split; [|done]. intros [= ->].
    by destruct (Map_get_Forall _ _ _ _ Hsets Hget) as [? _].
Qed.

Lemma membership_index_invariant_witness :
  index_ok (userRoomMemberships (exec (addUserToRoom "u2" "random") w_rooms)) ∧
  index_ok (userRoomMemberships (exec (removeUserFromRoom "u1" "random") w_rooms)).
Proof.
  assert (index_ok (userRoomMemberships w_rooms)) as Hok.
  { apply (bool_decide_unpack _). by vm_compute. }
  split.
  - apply (membership_index_invariant "u2" "random" w_rooms Hok).
  - apply (membership_index_invariant "u1" "random" w_rooms Hok).
Defined.

(** X18. Subscribing and unsubscribing are inverse to each other: for
    a user who is not subscribed to a room, [addUserToRoom] followed by
    [removeUserFromRoom] gives the Membership Index back as it was, the
    order of its entries included; after [addUserToRoom] the room is
    among the rooms of the user, a second [addUserToRoom] changes
    nothing, and after [removeUserFromRoom] the room is not among them. *)
Theorem subscribe_unsubscribe_round_trip userId room w :
  index_ok (userRoomMemberships w) →
  room ∉ subscriptions userId w →
  userRoomMemberships
    (exec (removeUserFromRoom userId room) (exec (addUserToRoom userId room) w))
    = userRoomMemberships w ∧
  room ∈ subscriptions userId (exec (addUserToRoom userId room) w) ∧
  userRoomMemberships
    (exec (addUserToRoom userId room) (exec (addUserToRoom userId room) w))
    = userRoomMemberships (exec (addUserToRoom userId room) w) ∧
  room ∉ subscriptions userId (exec (removeUserFromRoom userId room) w).
Proof.
  intros [Hkeys Hsets] Hroom.
  assert (subscriptions userId (exec (addUserToRoom userId room) w)
          = Set_add room (subscriptions userId w)) as Hsub.
  { unfold subscriptions at 1. rewrite addUserToRoom_index, Map_get_set.
    by rewrite decide_True. }
  split_and!.
  - rewrite removeUserFromRoom_index, addUserToRoom_index, Map_get_set.
    rewrite decide_True by done. rewrite Set_delete_add by done.
    unfold subscriptions in *.
    destruct (Map_get userId (userRoomMemberships w)) as [rooms|] eqn:Hget; cbn in *.
    + destruct (Map_get_Forall _ _ _ _ Hsets Hget) as [Hne _]. cbn in Hne.
      rewrite decide_False by done. rewrite Map_set_set. by apply Map_set_get_id.
    + rewrite decide_True by done. rewrite Map_delete_set.
      apply Map_delete_absent. by apply Map_get_None.
  - rewrite Hsub. apply Set_add_elem_of. by left.
  - rewrite !addUserToRoom_index, Hsub, Set_add_idemp. by rewrite Map_set_set.
  - unfold subscriptions at 1. rewrite removeUserFromRoom_index.
    destruct (Map_get userId (userRoomMemberships w)) as [rooms|] eqn:Hget.
    + case_decide as Hnil.
      * rewrite Map_get_delete by done. cbn. apply not_elem_of_nil.
      * rewrite Map_get_set, decide_True by done. cbn.
        rewrite Set_delete_elem_of. by intros [? _].
    + rewrite Hget. cbn. apply not_elem_of_nil.
Qed.

Lemma subscribe_unsubscribe_round_trip_witness :
  userRoomMemberships
    (exec (removeUserFromRoom "u1" "lobby") (exec (addUserToRoom "u1" "lobby") w_rooms))
    = userRoomMemberships w_rooms.
Proof.
  apply (subscribe_unsubscribe_round_trip "u1" "lobby" w_rooms).
  - apply (bool_decide_unpack _). by vm_compute.
  - apply (bool_decide_unpack _). by vm_compute.
Defined.

(** ** Broadcasts to the rooms of a user *)

Lemma emitting_nil w : emitting [] w = w.
Proof. destruct w. unfold emitting, set_emitted. cbn. by rewrite app_nil_r. Qed.

Lemma emitting_app delta1 delta2 w :
  emitting delta2 (emitting delta1 w) = emitting (delta1 ++ delta2) w.
Proof. unfold emitting, set_emitted. cbn. by rewrite app_assoc. Qed.

(** X19. [broadcastToUserRooms] sends the event once to each room the
    Membership Index holds for the user, in the order of the
    subscriptions, except to the excluded room; it sends nothing else,
    changes nothing else and never throws. *)
Theorem broadcastToUserRooms_targets userId event data excludeRoom w :
  broadcastToUserRooms userId event data excludeRoom w
  = (Ok tt,
     emitting
       (room_event event data
          <$> List.filter (λ room, bool_decide (Some room ≠ excludeRoom))
                (subscriptions userId w)) w).
Proof.
  rewrite (run_exec (broadcastToUserRooms _ _ _ _) w). unfold exec.
  match goal with |- ((?m ?w).1, (?m ?w).2) = (?r, ?w') =>
    change (wp m w (λ res w1, (res, w1) = (r, w'))) end.
  unfold broadcastToUserRooms, getUserRooms. apply wp_bind, wp_gets.
  cbv beta iota. fold (subscriptions userId w).
  apply (wp_forEach _
    (λ done w1, w1 = emitting
       (room_event event data
          <$> List.filter (λ room, bool_decide (Some room ≠ excludeRoom)) done) w)).
  - by rewrite emitting_nil.
  - intros done room w1 ->. rewrite List.filter_app, fmap_app. cbn.
    destruct (decide (Some room ≠ excludeRoom)) as [Hroom|Hroom].
    + rewrite bool_decide_eq_true_2 by done. apply wp_emit. split; [done|].
      by rewrite <- emitting_app.
    + rewrite bool_decide_eq_false_2 by done. apply wp_ret. split; [done|].
      cbn. by rewrite app_nil_r.
  - by intros w' ->.
Qed.

(** ** The counters of the registry *)

Lemma length_omap_le {A B} (f : A → option B) (l : list A) :
  (length (omap f l) ≤ length l)%nat.
Proof. induction l as [|x l IH]; cbn; [done|]. destruct (f x); cbn; lia. Qed.

Lemma truthy_Some o s : truthy o = Some s ↔ o = Some s ∧ s ≠ EmptyString.
Proof.
  unfold truthy. destruct o as [s'|]; [|by split; [|intros [? _]]].
  case_decide as Hs; split.
  - done.
  - intros [[= ->] Hne]. done.
  - by intros [= ->].
  - by intros [[= ->] _].
Qed.

(** X20. The room counter of the server statistics counts the rooms that
    are occupied as [getRoomStats] sees it: [getRoomCount] is the number
    of rooms, other than the empty name, for which [getRoomStats] reports
    at least one user; it never exceeds [getUserCount]. *)
Theorem getRoomCount_counts_occupied_rooms w :
  ∃ rooms,
    SocketRoomManager.getRoomCount w = (Ok (length rooms), w) ∧
    NoDup rooms ∧
    (∀ room, room ∈ rooms ↔
       room ≠ EmptyString ∧
       ∃ stats, getRoomStats room w = (Ok stats, w) ∧ (0 < userCount stats)%nat) ∧
    ∃ n, SocketRoomManager.getUserCount w = (Ok n, w) ∧ (length rooms ≤ n)%nat.
Proof.
  set (current := omap (λ user, truthy (cu_room user)) (map snd (connectedUsers w))).
  exists (Set_add_all [] current). split_and!.
  - done.
  - apply Set_add_all_NoDup. constructor.
  - intros room. rewrite Set_add_all_elem_of. unfold current.
    rewrite list_elem_of_omap. split.
    + intros [[]%elem_of_nil|(user & Huser & Hroom)].
      apply truthy_Some in Hroom as [Hroom Hne]. split; [done|].
      eexists. split; [reflexivity|]. cbn.
      assert (user ∈ List.filter (λ user, bool_decide (cu_room user = Some room))
                        (map snd (connectedUsers w))) as Hin.
      { apply list_elem_of_In, List.filter_In. split; [by apply list_elem_of_In|].
        by apply bool_decide_eq_true. }
      destruct (List.filter _ _); [by apply elem_of_nil in Hin|cbn; lia].
    + intros (Hne & stats & [= <-] & Hcount). cbn in Hcount. right.
      destruct (List.filter _ _) as [|user users] eqn:Hf; [cbn in Hcount; lia|].
      assert (In user (List.filter (λ user, bool_decide (cu_room user = Some room))
                         (map snd (connectedUsers w)))) as Hin
        by (rewrite Hf; by left).
      apply List.filter_In in Hin as [Hin Hroom%bool_decide_eq_true].
      exists user. split; [by apply list_elem_of_In|]. by apply truthy_Some.
  - eexists. split; [reflexivity|].
    transitivity (length current).
    + apply submseteq_length, NoDup_submseteq.
      * apply Set_add_all_NoDup. constructor.
      * intros room [[]%elem_of_nil|?]%Set_add_all_elem_of. done.
    + unfold current. etrans; [apply length_omap_le|]. by rewrite length_map.
Qed.
End membership_index.

(* ===================================================================== *)
(** * The event handlers: connecting, joining, leaving, disconnecting *)
(* ===================================================================== *)

Section Handlers_more.
Import SOCKET_EVENTS.

Lemma wp_bind_run {A B} (m : M A) (f : A → M B) w Q res w1 :
  m w = (res, w1) →
  match res with
  | Ok a => wp (f a) w1 Q
  | Throw e => Q (Throw e) w1
  end →
  wp (m ≫= f) w Q.
Proof. intros Hrun Hres. apply wp_bind. unfold wp at 1. by rewrite Hrun. Qed.

Lemma store_swallowed_spec w :
  wp (try_catch store_call (λ _, mret tt)) w (λ res w',
    res = Ok tt ∧ ∃ o, w' = set_oracle o w).
Proof. wp_steps; eauto. Qed.

Lemma updateUserStatus_frame userId isOnline w :
  wp (AuthService.updateUserStatus userId isOnline) w (λ res w',
    res = Ok tt ∧ ∃ o, w' = set_oracle o w).
Proof. apply store_swallowed_spec. Qed.

Lemma updateUserRoom_frame userId room w :
  wp (AuthService.updateUserRoom userId room) w (λ res w',
    res = Ok tt ∧ ∃ o, w' = set_oracle o w).
Proof. apply store_swallowed_spec. Qed.

Lemma roster_touch (ps : list Participant) (i : nat) p d :
  ps !! i = Some p →
  (λ p, (p_userId p, p_role p, p_isActive p)) <$> <[i := touch d p]> ps
  = (λ p, (p_userId p, p_role p, p_isActive p)) <$> ps.
Proof.
  intros Hi. rewrite list_fmap_insert. apply list_insert_id.
  by rewrite list_lookup_fmap, Hi.
Qed.

(** [updateUserLastSeen] stamps times and nothing else. *)
Lemma updateUserLastSeen_frame roomName userId w :
  wp (RoomService.updateUserLastSeen roomName userId) w (λ res w',
    res = Ok tt ∧
    ∃ o rooms, w' = set_Rooms (λ _, rooms) (set_oracle o w) ∧
      ∀ name, roster <$> rooms !! name = roster <$> Rooms w !! name).
Proof.
  unfold RoomService.updateUserLastSeen. wp_steps.
  - split; [done|]. eexists _, _. split; [reflexivity|]. intros name. cbn.
    destruct (Rooms w !! roomName) as [room|] eqn:Hroom; [|done].
    destruct (findIndex userId (r_participants room)) as [[i p]|] eqn:Hfind; [|done].
    destruct (r_isActive room); [|done].
    destruct (decide (name = roomName)) as [->|Hne].
    + rewrite lookup_insert_eq, Hroom. cbn. f_equal. unfold roster. cbn.
      apply roster_touch. unfold findIndex in Hfind.
      by apply list_find_Some in Hfind as (? & _).
    + by rewrite lookup_insert_ne.
  - split; [done|]. exists o, (Rooms w). split; [|done]. by destruct w.
Qed.

(** X21. The [disconnect] handler never throws.  It takes the session
    of the connection out of the registry and the user out of the
    Membership Index, whatever other connections the user still has; it
    tells each room the index held for the user, once, that the user left
    ([socket.to], so not the connection itself).  In the Room collection
    it only stamps times: no participant is removed or deactivated, so
    the user keeps counting as an active participant. *)
Theorem disconnect_outcome socket user w res w' :
  sk_user socket = Some user →
  Handlers.disconnect socket w = (res, w') →
  res = Ok tt ∧
  connectedUsers w' = Map_delete (sk_id socket) (connectedUsers w) ∧
  userRoomMemberships w' = Map_delete (u_id user) (userRoomMemberships w) ∧
  emitted w' = emitted w ++
    (presence_event socket user "user_left" " disconnected" (clock w)
       <$> subscriptions (u_id user) w) ∧
  Messages w' = Messages w ∧ socketRooms w' = socketRooms w ∧
  ∀ name, roster <$> Rooms w' !! name = roster <$> Rooms w !! name.
Proof.
  intros Huser Hrun. wp_inv Hrun. unfold Handlers.disconnect. rewrite Huser.
  wp_rule. wp_rule.
  wp_use updateUserStatus_frame. destruct H as [-> [o ->]].
  wp_rule. unfold SocketService.getUserRooms. wp_rule.
  change (default [] (Map_get (u_id user) (userRoomMemberships (set_oracle o w))))
    with (subscriptions (u_id user) w).
  wp_rule.
  apply (wp_forEach _
    (λ done w1, w1 = emitting
       (presence_event socket user "user_left" " disconnected" (clock w) <$> done)
       (set_oracle o w))).
  { by rewrite emitting_nil. }
  { intros done room w1 ->. wp_rule. wp_rule. wp_rule. split; [done|].
    rewrite fmap_app. cbn. by rewrite <- emitting_app. }
  intros w1 ->. cbv beta iota.
  wp_rule. unfold SocketService.cleanupUserMemberships. wp_rule.
  wp_rule. wp_rule. wp_rule.
  match goal with |- wp (match ?x with _ => _ end) _ _ => destruct x as [room|] end.
  - wp_use updateUserLastSeen_frame.
    destruct H as (-> & o' & rooms & -> & Hroster). wp_rule. by cbn.
  - wp_rule. wp_rule. by cbn.
Qed.

Lemma disconnect_outcome_witness :
  userRoomMemberships (exec (Handlers.disconnect s1) w_rooms) = [] ∧
  length (emitted (exec (Handlers.disconnect s1) w_rooms))
    = (length (emitted w_rooms) + 2)%nat.
Proof.
  pose proof (disconnect_outcome s1 alice w_rooms _ _ eq_refl (run_exec _ _))
    as (_ & _ & Hindex & Hemitted & _).
  split.
  - rewrite Hindex. by vm_compute.
  - rewrite Hemitted, length_app, length_fmap. by vm_compute.
Defined.

(** ** Joining a room over the socket *)

Lemma rooms_of_socket_joined w socketId room :
  room ∈ joined_rooms socketId w → receives w socketId (io_to room) = true.
Proof.
  intros Hin. cbn. apply bool_decide_eq_true. unfold rooms_of_socket.
  apply elem_of_cons. by right.
Qed.

Lemma getRoomMessages_frame roomName limit skip w :
  wp (MessageService.getRoomMessages roomName limit skip) w (λ res w',
    ∃ o, w' = set_oracle o w).
Proof.
  unfold MessageService.getRoomMessages, MessageService.getMessages,
    Room_findOne_active.
  wp_steps; try (by eexists); by exists (oracle w); destruct w.
Qed.

(** X22. The [join_room] handler never throws.  When [joinRoom] refuses
    (the room is full or inactive, or the store fails), nothing of the
    live view changes, the adapter, the Membership Index and the
    registry are as before, and the only event is an [error] on the
    connection of the caller.  When [joinRoom] succeeds, the connection
    is in the room of the adapter, so that it receives what is emitted to
    the room, the room is among the subscriptions of the user, the others
    in the room are told with [user_joined], and the caller gets one more
    event on its own connection. *)
Theorem join_room_outcome socket user room w res w' :
  sk_user socket = Some user →
  Handlers.join_room socket room w = (res, w') →
  res = Ok tt ∧
  match (RoomService.joinRoom room user w).1 with
  | Throw e =>
      socketRooms w' = socketRooms w ∧
      userRoomMemberships w' = userRoomMemberships w ∧
      connectedUsers w' = connectedUsers w ∧
      Rooms w' = Rooms w ∧
      emitted w' = emitted w ++ [error_to socket e]
  | Ok r =>
      receives w' (sk_id socket) (io_to room) = true ∧
      room ∈ subscriptions (u_id user) w' ∧
      Rooms w' = <[r_name r := r]> (Rooms w) ∧
      ∃ own, emitted w' = emitted w ++
               [presence_event socket user "user_joined" " joined the room"
                  (clock w) room; own] ∧
             e_target own = socket_emit (sk_id socket)
  end.
Proof.
  intros Huser Hrun. wp_inv Hrun. unfold Handlers.join_room. rewrite Huser.
  pose proof (joinRoom_spec room user w) as Hjoin. unfold wp in Hjoin.
  destruct (RoomService.joinRoom room user w) as [[r|e] w1] eqn:Hrun;
    cbn [fst snd] in *.
  - destruct Hjoin as [(Hm & Hcu & Hix & Hsr & Hem & Hclk & Hoid) [HR _]].
    wp_rule. eapply wp_bind_run; [exact Hrun|]. cbv beta iota.
    unfold socket_join, SocketService.addUserToRoom.
    wp_rule. wp_rule. wp_rule. wp_rule. wp_rule.
    wp_use updateUserRoom_frame. destruct H as [-> [o ->]].
    wp_rule. wp_rule. wp_rule. wp_rule. wp_rule. wp_rule. wp_rule.
    wp_use getRoomMessages_frame. destruct H as [o' ->].
    assert (room ∈ Set_add room (default [] (Map_get (sk_id socket) (socketRooms w1))))
      as Hin by (apply Set_add_elem_of; by left).
    destruct r0 as [page|e]; wp_steps.
    + split; [done|]. split_and!.
      * apply rooms_of_socket_joined. unfold joined_rooms. cbn.
        by rewrite Map_get_set, decide_True.
      * unfold subscriptions. cbn. rewrite collect_room_step, Map_get_set.
        rewrite decide_True by done. cbn. apply Set_add_elem_of. by left.
      * done.
      * eexists. cbn. rewrite Hem, Hclk, <- app_assoc. split; [reflexivity|done].
    + split; [done|]. split_and!.
      * apply rooms_of_socket_joined. unfold joined_rooms. cbn.
        by rewrite Map_get_set, decide_True.
      * unfold subscriptions. cbn. rewrite collect_room_step, Map_get_set.
        rewrite decide_True by done. cbn. apply Set_add_elem_of. by left.
      * done.
      * eexists. cbn. rewrite Hem, Hclk, <- app_assoc. split; [reflexivity|done].
  - destruct Hjoin as [(Hm & Hcu & Hix & Hsr & Hem & Hclk & Hoid) HR].
    wp_rule. eapply wp_bind_run; [exact Hrun|]. cbv beta iota.
    wp_rule. cbn. split; [done|]. split_and!; try done. by rewrite Hem.
Qed.

Lemma join_room_outcome_witness :
  receives (exec (Handlers.join_room s3 "general") w_chat) "s3" (io_to "general") = true ∧
  receives w_chat "s3" (io_to "general") = false.
Proof.
  pose proof (join_room_outcome s3 carol "general" w_chat _ _ eq_refl (run_exec _ _))
    as [_ Hout].
  eassert ((RoomService.joinRoom "general" carol w_chat).1 = Ok _) as Hjoin
    by (vm_compute; reflexivity).
  rewrite Hjoin in Hout. destruct Hout as (Hrecv & _).
  split; [exact Hrecv|by vm_compute].
Defined.

(** ** Leaving a room over the socket *)

Lemma removeUserFromRoom_unsubscribed userId room w :
  NoDup (userRoomMemberships w).*1 →
  room ∉ subscriptions userId (exec (SocketService.removeUserFromRoom userId room) w).
Proof.
  intros Hkeys. unfold subscriptions at 1. rewrite removeUserFromRoom_index.
  destruct (Map_get userId (userRoomMemberships w)) as [rooms|] eqn:Hget.
  - case_decide as Hnil.
    + rewrite Map_get_delete by done. cbn. apply not_elem_of_nil.
    + rewrite Map_get_set, decide_True by done. cbn.
      rewrite Set_delete_elem_of. by intros [? _].
  - rewrite Hget. cbn. apply not_elem_of_nil.
Qed.

Lemma leaveRoom_frame roomName userId w :
  wp (RoomService.leaveRoom roomName userId) w (λ res w',
    ∃ o rooms, w' = set_Rooms (λ _, rooms) (set_oracle o w) ∧
      match res with
      | Throw e => rooms = Rooms w
      | Ok _ => True
      end).
Proof.
  unfold RoomService.leaveRoom, Room_findOne, Room_save. wp_steps.
  - destruct (Rooms w !! roomName) as [room|]; cbn.
    + destruct (findIndex _ _) as [[i p]|]; wp_steps;
        exists o0; eexists; (split; [reflexivity|done]).
    + wp_steps. exists o, (Rooms w). split; [reflexivity|done].
  - exists o, (Rooms w). split; [reflexivity|done].
Qed.

(** X23. The [leave_room] handler never throws.  Without a room to
    leave (no argument and no current room in the session) it does
    nothing at all.  Otherwise the connection leaves the room of the
    adapter first, whatever happens next: when [leaveRoom] then fails,
    the participant entry and the Membership Index are as before and the
    only event is an [error] on the connection of the caller; when it
    succeeds, the room is no longer among the subscriptions of the user,
    the others in the room are told with [user_left], and the caller gets
    [room_left]. *)
Theorem leave_room_outcome socket user roomToLeave w res w' :
  sk_user socket = Some user →
  NoDup (userRoomMemberships w).*1 →
  Handlers.leave_room socket roomToLeave w = (res, w') →
  res = Ok tt ∧
  match room_to_leave socket roomToLeave w with
  | None => w' = w
  | Some currentRoom =>
      joined_rooms (sk_id socket) w'
        = Set_delete currentRoom (joined_rooms (sk_id socket) w) ∧
      (currentRoom ∉ joined_rooms (sk_id socket) w') ∧
      match (RoomService.leaveRoom currentRoom (u_id user)
               (exec (socket_leave socket currentRoom) w)).1 with
      | Throw e =>
          Rooms w' = Rooms w ∧
          userRoomMemberships w' = userRoomMemberships w ∧
          emitted w' = (emitted w ++ [error_to socket e])
      | Ok _ =>
          (currentRoom ∉ subscriptions (u_id user) w') ∧
          emitted w' =
            (emitted w ++
               [presence_event socket user "user_left" " left the room" (clock w)
                  currentRoom;
                {| e_target := socket_emit (sk_id socket); e_event := "room_left";
                   e_data := PRoomLeft currentRoom ("Left room: " +:+ currentRoom) |}])
      end
  end.
Proof.
  intros Huser Hkeys Hrun. wp_inv Hrun. unfold Handlers.leave_room. rewrite Huser.
  wp_rule. wp_rule. wp_rule. unfold room_to_leave.
  match goal with |- wp (match ?x with _ => _ end) _ _ =>
    destruct x as [currentRoom|] eqn:Hcurrent end; [|by wp_steps].
  wp_rule. unfold socket_leave at 1. wp_rule.
  set (w0 := set_socketRooms _ w).
  change (exec (socket_leave socket currentRoom) w) with w0.
  assert (joined_rooms (sk_id socket) w0
          = Set_delete currentRoom (joined_rooms (sk_id socket) w)) as Hleft.
  { unfold joined_rooms, w0. cbn. by rewrite Map_get_set, decide_True. }
  assert (currentRoom ∉ joined_rooms (sk_id socket) w0) as Hnotin.
  { rewrite Hleft, Set_delete_elem_of. by intros [? _]. }
  pose proof (leaveRoom_frame currentRoom (u_id user) w0) as Hleave.
  unfold wp in Hleave.
  destruct (RoomService.leaveRoom currentRoom (u_id user) w0) as [[saved|e] w1] eqn:Hrun;
    cbn [fst snd] in *; destruct Hleave as (o & rooms & -> & Hrooms).
  - eapply wp_bind_run; [exact Hrun|]. cbv beta iota.
    wp_rule. unfold SocketService.removeUserFromRoom at 1. wp_rule.
    wp_rule. wp_rule. wp_rule. wp_rule.
    match goal with |- wp (_ ≫= _) ?w2 _ => set (w2' := w2) end.
    assert (currentRoom ∉ subscriptions (u_id user) w2') as Hunsub.
    { apply (removeUserFromRoom_unsubscribed (u_id user) currentRoom
               (set_Rooms (λ _, rooms) (set_oracle o w0))). exact Hkeys. }
    wp_rule.
    destruct (truthy roomToLeave) as [given|] eqn:Hgiven.
    + wp_steps. split; [done|]. split_and!; try done; by rewrite <- app_assoc.
    + destruct (Map_get (sk_id socket) (connectedUsers w)) as [session|] eqn:Hsession;
        cbn.
      * wp_rule. wp_use updateUserRoom_frame. destruct H as [-> [o' ->]].
        wp_steps. split; [done|]. split_and!; try done; by rewrite <- app_assoc.
      * wp_steps. split; [done|]. split_and!; try done; by rewrite <- app_assoc.
  - eapply wp_bind_run; [exact Hrun|]. cbv beta iota.
    wp_rule. subst rooms. cbn. split; [done|]. split_and!; try done.
Qed.

Lemma leave_room_outcome_witness :
  exec (Handlers.leave_room s3 None) w_chat = w_chat ∧
  "general" ∉ joined_rooms "s1" (exec (Handlers.leave_room s1 (Some "general")) w_chat).
Proof.
  assert (NoDup (userRoomMemberships w_chat).*1) as Hkeys.
  { apply (bool_decide_unpack _). by vm_compute. }
  pose proof (leave_room_outcome s3 carol None w_chat _ _ eq_refl Hkeys (run_exec _ _))
    as [_ Hnone].
  pose proof (leave_room_outcome s1 alice (Some "general") w_chat _ _ eq_refl Hkeys
                (run_exec _ _)) as [_ Hsome].
  split; [exact Hnone|]. by destruct Hsome as (_ & Hout & _).
Defined.

(** ** A new connection *)

Lemma subscribeUserToRooms_loop_spec sockets users userId rooms w :
  wp (SocketService.subscribeUserToRooms_loop sockets users userId rooms) w
    (λ res w',
       res = Ok tt ∧ Rooms w' = Rooms w ∧ emitted w' = emitted w ∧
       connectedUsers w' = connectedUsers w ∧ Messages w' = Messages w ∧
       (Forall (λ entry, cu_id entry.2 ≠ userId) users → w' = w)).
Proof.
  induction users as [|[socketId user] users IH]; [done|].
  cbn [SocketService.subscribeUserToRooms_loop].
  destruct (decide (cu_id user = userId)) as [Hid|Hne].
  - destruct (Set_has socketId sockets).
    + apply (wp_forEach _ (λ _ w1,
        Rooms w1 = Rooms w ∧ emitted w1 = emitted w ∧
        connectedUsers w1 = connectedUsers w ∧ Messages w1 = Messages w)).
      * done.
      * intros done room w1 (? & ? & ? & ?).
        unfold adapter_join, SocketService.addUserToRoom. by wp_steps.
      * intros w' (? & ? & ? & ?). split_and!; try done.
        intros [Hno _]%Forall_cons. done.
    + split_and!; try done.
  - eapply wp_mono; [apply IH|]. cbv beta. intros res w' (-> & ? & ? & ? & ? & Hsame).
    split_and!; try done. intros [_ Hno]%Forall_cons. by apply Hsame.
Qed.

Lemma forEach_socket_join_spec socket names w :
  wp (forEach (λ roomName, socket_join socket roomName) names) w (λ res w',
    res = Ok tt ∧ Rooms w' = Rooms w ∧ emitted w' = emitted w ∧
    connectedUsers w' = connectedUsers w ∧ Messages w' = Messages w ∧
    userRoomMemberships w' = userRoomMemberships w ∧
    ∀ name, name ∈ names → name ∈ joined_rooms (sk_id socket) w').
Proof.
  apply (wp_forEach _ (λ done w1,
    Rooms w1 = Rooms w ∧ emitted w1 = emitted w ∧
    connectedUsers w1 = connectedUsers w ∧ Messages w1 = Messages w ∧
    userRoomMemberships w1 = userRoomMemberships w ∧
    ∀ name, name ∈ done → name ∈ joined_rooms (sk_id socket) w1)).
  - split_and!; try done. by intros name Hin%elem_of_nil.
  - intros done room w1 (? & ? & ? & ? & ? & Hin). unfold socket_join. wp_steps.
    split; [done|]. split_and!; try done.
    intros name Hname. unfold joined_rooms. cbn.
    rewrite Map_get_set, decide_True by done. cbn. apply Set_add_elem_of.
    apply elem_of_app in Hname as [Hname|Hname%list_elem_of_singleton].
    + right. by apply Hin.
    + by left.
  - intros w' (? & ? & ? & ? & ? & ?). done.
Qed.

(** X24. The [connection] handler never throws and sends nothing.  When
    the store answers, the new connection joins, in the adapter, every
    room that [getUserRooms] finds for the user: every active room that
    holds a participant entry of the user, active or not, and some
    active entry; so the connection receives what is emitted to these
    rooms.  The Membership Index is left as it is when the registry holds
    no session of the user, which is the case of a first connection. *)
Theorem connection_joins_rooms sockets socket user w res w' :
  sk_user socket = Some user →
  Handlers.connection sockets socket w = (res, w') →
  res = Ok tt ∧ Rooms w' = Rooms w ∧ emitted w' = emitted w ∧
  connectedUsers w' = connectedUsers w ∧
  ((∀ e, ¬ store_fails w e) →
   ∀ name room,
     Rooms w !! name = Some room → r_name room = name →
     r_isActive room = true →
     has_participant (u_id user) room = true →
     has_active_participant room = true →
     receives w' (sk_id socket) (io_to name) = true) ∧
  (Forall (λ entry, cu_id entry.2 ≠ u_id user) (connectedUsers w) →
   userRoomMemberships w' = userRoomMemberships w).
Proof.
  intros Huser Hrun. wp_inv Hrun. unfold Handlers.connection. rewrite Huser.
  wp_rule. wp_rule. wp_use getUserRooms_spec. destruct H as [[o ->] Hrooms].
  destruct r as [userRooms|e]; [|wp_rule].
  2:{ destruct Hrooms as [e0 Hfail]. split_and!; try done.
      intros Hok. by destruct (Hok e0). }
  unfold SocketService.subscribeUserToRooms.
  wp_rule. wp_rule. wp_rule.
  wp_use subscribeUserToRooms_loop_spec.
  destruct H as (-> & HR1 & Hem1 & Hcu1 & Hm1 & Hsame).
  wp_use forEach_socket_join_spec.
  destruct H as (-> & HR2 & Hem2 & Hcu2 & Hm2 & Hix2 & Hjoined).
  cbn in HR1, Hem1, Hcu1, Hm1, Hsame.
  split_and!; try congruence.
  - intros Hok name room Hroom Hname Hact Hhas Hactive.
    apply rooms_of_socket_joined, Hjoined.
    change (name ∈ r_name <$> userRooms).
    apply list_elem_of_fmap. exists room. split; [done|].
    rewrite Hrooms, merge_sort_Permutation. apply filter_elem_of. split.
    + apply Room_documents_elem_of. by exists name.
    + by rewrite Hhas, Hactive, Hact.
  - intros Hno. rewrite Hix2, (Hsame Hno). done.
Qed.

Lemma connection_joins_rooms_witness :
  receives (exec (Handlers.connection ["s9"] {| sk_id := "s9"; sk_user := Some bob |})
              (exec (RoomService.leaveRoom "duo" "u2") w_duo_bob))
           "s9" (io_to "duo") = true.
Proof.
  pose proof (connection_joins_rooms ["s9"] {| sk_id := "s9"; sk_user := Some bob |} bob
                (exec (RoomService.leaveRoom "duo" "u2") w_duo_bob) _ _ eq_refl
                (run_exec _ _)) as (_ & _ & _ & _ & Hrecv & _).
  eassert (Rooms (exec (RoomService.leaveRoom "duo" "u2") w_duo_bob) !! "duo" = Some _)
    as Hroom by (vm_compute; reflexivity).
  apply (Hrecv ltac:(intros e [o Ho]; by vm_compute in Ho) "duo" _ Hroom);
    by vm_compute.
Defined.
End Handlers_more.

(* ===================================================================== *)
(** * The HTTP routes of [/api/socket] and the token middleware *)
(* ===================================================================== *)

Section SocketRoutes_facts.

Lemma receives_socketRooms w w' socketId t :
  socketRooms w' = socketRooms w → receives w' socketId t = receives w socketId t.
Proof. intros Heq. unfold receives, rooms_of_socket. by rewrite Heq. Qed.

Lemma sendToUser_loop_frame users userId event data w :
  wp (SocketService.sendToUser_loop users userId event data) w (λ res w',
    res = Ok tt ∧
    w' = emitting
           (match list_find (λ entry, cu_id entry.2 = userId) users with
            | Some (_, (socketId, _)) => [event_to socketId event data]
            | None => []
            end) w).
Proof.
  induction users as [|[socketId user] users IH].
  { split; [done|]. by rewrite emitting_nil. }
  cbn [SocketService.sendToUser_loop]. rewrite list_find_cons. cbn [snd].
  destruct (decide (cu_id user = userId)); [done|].
  eapply wp_mono; [apply IH|]. cbv beta. intros res w' [-> ->].
  split; [done|]. by destruct (list_find _ users) as [[i [s u]]|].
Qed.

Lemma sendToUser_frame userId event data w :
  wp (SocketService.sendToUser userId event data) w (λ res w',
    res = Ok tt ∧ w' = emitting (user_event userId event data w) w).
Proof.
  unfold SocketService.sendToUser. wp_rule. wp_rule. apply sendToUser_loop_frame.
Qed.

(** X25. Joining a room through [POST /api/socket/join-room] never
    touches the adapter: no connection joins the Socket.IO room, so what
    is emitted to the room reaches exactly the connections it reached
    before.  When [joinRoom] refuses, the answer is 400 with its message
    and neither the Membership Index nor the event log changes; when it
    succeeds, the room is among the subscriptions of the user and the
    first session of the user, if there is one, is notified. *)
Theorem api_join_room_outcome user roomName w res w' :
  SocketRoutes.join_room user roomName w = (res, w') →
  socketRooms w' = socketRooms w ∧ connectedUsers w' = connectedUsers w ∧
  (∀ socketId t, receives w' socketId t = receives w socketId t) ∧
  match (RoomService.joinRoom roomName user w).1 with
  | Throw e =>
      res = Ok (RoomError 400 e) ∧ Rooms w' = Rooms w ∧
      userRoomMemberships w' = userRoomMemberships w ∧ emitted w' = emitted w
  | Ok r =>
      res = Ok (RoomOk ("Successfully joined room: " +:+ roomName) roomName) ∧
      Rooms w' = <[r_name r := r]> (Rooms w) ∧
      roomName ∈ subscriptions (u_id user) w' ∧
      emitted w' =
        (emitted w ++
           user_event (u_id user) "room_joined_api"
             (PNotice roomName ("Joined room " +:+ roomName +:+ " via API") (clock w)) w)
  end.
Proof.
  intros Hrun.
  cut (socketRooms w' = socketRooms w ∧ connectedUsers w' = connectedUsers w ∧
       match (RoomService.joinRoom roomName user w).1 with
       | Throw e =>
           res = Ok (RoomError 400 e) ∧ Rooms w' = Rooms w ∧
           userRoomMemberships w' = userRoomMemberships w ∧ emitted w' = emitted w
       | Ok r =>
           res = Ok (RoomOk ("Successfully joined room: " +:+ roomName) roomName) ∧
           Rooms w' = <[r_name r := r]> (Rooms w) ∧
           roomName ∈ subscriptions (u_id user) w' ∧
           emitted w' =
             (emitted w ++
                user_event (u_id user) "room_joined_api"
                  (PNotice roomName ("Joined room " +:+ roomName +:+ " via API")
                     (clock w)) w)
       end).
  { intros (Hsr & Hcu & Hres). split_and!; try done.
    intros socketId t. by apply receives_socketRooms. }
  wp_inv Hrun. unfold SocketRoutes.join_room.
  pose proof (joinRoom_spec roomName user w) as Hjoin. unfold wp in Hjoin.
  destruct (RoomService.joinRoom roomName user w) as [[r|e] w1] eqn:Hrun;
    cbn [fst snd] in *.
  - destruct Hjoin as [(Hm & Hcu & Hix & Hsr & Hem & Hclk & Hoid) [HR _]].
    wp_rule. eapply wp_bind_run; [exact Hrun|]. cbv beta iota.
    unfold SocketService.addUserToRoom.
    wp_rule. wp_rule. wp_rule.
    wp_use updateUserRoom_frame. destruct H as [-> [o ->]].
    wp_rule. wp_rule. wp_rule.
    wp_use sendToUser_frame. destruct H as [-> ->].
    wp_rule. cbn. split_and!; try done.
    + unfold subscriptions. cbn. rewrite collect_room_step, Map_get_set.
      rewrite decide_True by done. cbn. apply Set_add_elem_of. by left.
    + rewrite Hem. unfold user_event. cbn. by rewrite Hcu, Hclk.
  - destruct Hjoin as [(Hm & Hcu & Hix & Hsr & Hem & Hclk & Hoid) HR].
    wp_rule. eapply wp_bind_run; [exact Hrun|]. cbv beta iota.
    wp_rule. cbn. done.
Qed.

Lemma api_join_room_outcome_witness :
  receives (exec (SocketRoutes.join_room carol "general") w_chat) "s3" (io_to "general")
    = false ∧
  "general" ∈ subscriptions "u3" (exec (SocketRoutes.join_room carol "general") w_chat).
Proof.
  pose proof (api_join_room_outcome carol "general" w_chat _ _ (run_exec _ _))
    as (_ & _ & Hrecv & Hout).
  eassert ((RoomService.joinRoom "general" carol w_chat).1 = Ok _) as Hjoin
    by (vm_compute; reflexivity).
  rewrite Hjoin in Hout. destruct Hout as (_ & _ & Hsub & _).
  split; [|exact Hsub]. rewrite Hrecv. by vm_compute.
Defined.

(** X26. Leaving a room through [POST /api/socket/leave-room] never
    touches the adapter either: the connections of the user stay in the
    Socket.IO room and keep receiving what is emitted to it.  When
    [leaveRoom] fails, the answer is 400 and neither the Membership
    Index nor the event log changes; otherwise, a room that does not
    exist included, the answer is the success message and the room is no
    longer among the subscriptions of the user. *)
Theorem api_leave_room_outcome user roomName w res w' :
  NoDup (userRoomMemberships w).*1 →
  SocketRoutes.leave_room user roomName w = (res, w') →
  socketRooms w' = socketRooms w ∧ connectedUsers w' = connectedUsers w ∧
  (∀ socketId t, receives w' socketId t = receives w socketId t) ∧
  match (RoomService.leaveRoom roomName (u_id user) w).1 with
  | Throw e =>
      res = Ok (RoomError 400 e) ∧ Rooms w' = Rooms w ∧
      userRoomMemberships w' = userRoomMemberships w ∧ emitted w' = emitted w
  | Ok _ =>
      res = Ok (RoomOk ("Successfully left room: " +:+ roomName) roomName) ∧
      (roomName ∉ subscriptions (u_id user) w') ∧
      emitted w' =
        (emitted w ++
           user_event (u_id user) "room_left_api"
             (PNotice roomName ("Left room " +:+ roomName +:+ " via API") (clock w)) w)
  end.
Proof.
  intros Hkeys Hrun.
  cut (socketRooms w' = socketRooms w ∧ connectedUsers w' = connectedUsers w ∧
       match (RoomService.leaveRoom roomName (u_id user) w).1 with
       | Throw e =>
           res = Ok (RoomError 400 e) ∧ Rooms w' = Rooms w ∧
           userRoomMemberships w' = userRoomMemberships w ∧ emitted w' = emitted w
       | Ok _ =>
           res = Ok (RoomOk ("Successfully left room: " +:+ roomName) roomName) ∧
           (roomName ∉ subscriptions (u_id user) w') ∧
           emitted w' =
             (emitted w ++
                user_event (u_id user) "room_left_api"
                  (PNotice roomName ("Left room " +:+ roomName +:+ " via API")
                     (clock w)) w)
       end).
  { intros (Hsr & Hcu & Hres). split_and!; try done.
    intros socketId t. by apply receives_socketRooms. }
  wp_inv Hrun. unfold SocketRoutes.leave_room.
  pose proof (leaveRoom_frame roomName (u_id user) w) as Hleave. unfold wp in Hleave.
  destruct (RoomService.leaveRoom roomName (u_id user) w) as [[saved|e] w1] eqn:Hrun;
    cbn [fst snd] in *; destruct Hleave as (o & rooms & -> & Hrooms).
  - wp_rule. eapply wp_bind_run; [exact Hrun|]. cbv beta iota.
    wp_rule. unfold SocketService.removeUserFromRoom at 1. wp_rule.
    wp_rule. wp_rule. wp_rule.
    wp_use sendToUser_frame. destruct H as [-> ->].
    wp_rule. cbn. split_and!; try done.
    apply (removeUserFromRoom_unsubscribed (u_id user) roomName
             (set_Rooms (λ _, rooms) (set_oracle o w))). exact Hkeys.
  - wp_rule. eapply wp_bind_run; [exact Hrun|]. cbv beta iota.
    wp_rule. subst rooms. cbn. done.
Qed.

Lemma api_leave_room_outcome_witness :
  receives (exec (SocketRoutes.leave_room alice "general") w_chat) "s1" (io_to "general")
    = true ∧
  "general" ∉ subscriptions "u1" (exec (SocketRoutes.leave_room alice "general") w_chat).
Proof.
  assert (NoDup (userRoomMemberships w_chat).*1) as Hkeys.
  { apply (bool_decide_unpack _). by vm_compute. }
  pose proof (api_leave_room_outcome alice "general" w_chat _ _ Hkeys (run_exec _ _))
    as (_ & _ & Hrecv & Hout).
  eassert ((RoomService.leaveRoom "general" (u_id alice) w_chat).1 = Ok _) as Hleave
    by (vm_compute; reflexivity).
  rewrite Hleave in Hout. destruct Hout as (_ & Hsub & _).
  split; [|exact Hsub]. rewrite Hrecv. by vm_compute.
Defined.
End SocketRoutes_facts.

Section middleware_facts.
Variable verifyToken : string → option AuthUser.

Lemma append_nil (s : string) : EmptyString +:+ s = s.
Proof. reflexivity. Qed.

Lemma append_cons c (s1 s2 : string) : String c s1 +:+ s2 = String c (s1 +:+ s2).
Proof. reflexivity. Qed.

Lemma append_assoc (s1 s2 s3 : string) : (s1 +:+ s2) +:+ s3 = s1 +:+ (s2 +:+ s3).
Proof.
  induction s1 as [|c s1 IH]; [done|]. rewrite !append_cons. by f_equal.
Qed.

Lemma append_empty_r (s : string) : s +:+ EmptyString = s.
Proof.
  induction s as [|c s IH]; [done|]. rewrite append_cons. by f_equal.
Qed.

Lemma split_space_no_space cur s :
  no_space s = true → split_space cur s = [cur +:+ s].
Proof.
  revert cur. induction s as [|c s IH]; intros cur; cbn.
  - intros _. by rewrite append_empty_r.
  - intros [Hc Hs]%andb_true_iff. apply negb_true_iff in Hc. rewrite Hc.
    rewrite IH by done. by rewrite append_assoc, append_cons, append_nil.
Qed.

Lemma split_space_first cur s1 s2 :
  no_space s1 = true →
  split_space cur (s1 +:+ " " +:+ s2) = (cur +:+ s1) :: split_space EmptyString s2.
Proof.
  revert cur. induction s1 as [|c s1 IH]; intros cur.
  - intros _. rewrite append_nil, append_cons, append_nil, append_empty_r. done.
  - cbn [no_space]. intros [Hc Hs]%andb_true_iff. apply negb_true_iff in Hc.
    rewrite append_cons. cbn [split_space]. rewrite Hc.
    rewrite IH by done. by rewrite append_assoc, append_cons, append_nil.
Qed.

(** X27. The token that [authenticateToken] verifies is the second
    space-separated piece of the Authorization header, whatever the
    first piece is: for a header [scheme token], as the client builds it
    with the scheme Bearer, the verdict is that of [verifyToken] on the
    token, 403 when it rejects; [optionalAuth] sets the same user.  A
    header without a space carries no token and is answered with 401. *)
Theorem authenticateToken_bearer scheme token header :
  no_space scheme = true → no_space token = true → token ≠ EmptyString →
  no_space header = true →
  authenticateToken verifyToken (Some (scheme +:+ " " +:+ token))
    = match verifyToken token with
      | Some user => next user
      | None => answer 403 "Invalid token" "The provided token is invalid or expired"
      end ∧
  optionalAuth verifyToken (Some (scheme +:+ " " +:+ token)) = verifyToken token ∧
  authenticateToken verifyToken (Some header)
    = answer 401 "Access token required" "Please provide a valid access token" ∧
  optionalAuth verifyToken (Some header) = None.
Proof.
  intros Hscheme Htoken Hne Hheader.
  assert (∀ s : string, s ≠ EmptyString → truthy (Some s) = Some s) as Htruthy.
  { intros s Hs. unfold truthy. by rewrite decide_False. }
  assert (token_of (Some (scheme +:+ " " +:+ token)) = Some token) as Htok.
  { unfold token_of. rewrite Htruthy.
    - rewrite split_space_first by done. cbn [lookup list_lookup].
      rewrite split_space_no_space by done. rewrite append_nil.
      by apply Htruthy.
    - destruct scheme; rewrite ?append_nil, !append_cons; discriminate. }
  assert (token_of (Some header) = None) as Hnone.
  { unfold token_of, truthy. case_decide; [done|].
    by rewrite split_space_no_space. }
  unfold authenticateToken, optionalAuth. by rewrite Htok, Hnone.
Qed.
End middleware_facts.

Lemma authenticateToken_bearer_witness :
  authenticateToken (λ token, if decide (token = "abc.def") then Some alice else None)
    (Some "Bearer abc.def") = next alice ∧
  authenticateToken (λ token, if decide (token = "abc.def") then Some alice else None)
    (Some "Bearer") = answer 401 "Access token required" "Please provide a valid access token".
Proof.
  pose proof (authenticateToken_bearer
                (λ token, if decide (token = "abc.def") then Some alice else None)
                "Bearer" "abc.def" "Bearer" eq_refl eq_refl ltac:(done) eq_refl)
    as (Hnext & _ & Hreject & _).
  split; [exact Hnext|exact Hreject].
Defined.
